(** * End-to-end-encrypted chat backend: key distribution, delivery
      tracking, presence and the connection registry.

    The development embeds the JavaScript services of the repository as
    Rocq functions over an explicit document store.  Every operation that
    reads the clock in the source ([new Date()], [Date.now()]) takes the
    current time as an argument [now], in milliseconds.  A service
    operation maps a store to the store it leaves behind and its outcome:
    the value returned, or the exception thrown ([Throw]).  The store is
    returned in both cases, because some operations have already written
    when they throw. *)

From Stdlib Require Import ZArith List String Ascii Bool Lia Sorted.
From stdpp Require Import base option list strings gmap.
Import ListNotations.

Local Open Scope Z_scope.
Local Open Scope string_scope.

(** ** JavaScript values and exceptions *)

(** Mongo ObjectIds are compared through [toString()] everywhere in the
    source, so they are modelled by their string form; the cast of a
    request string to an ObjectId, which can fail, is not modelled. *)
Definition ObjectId := string.
Definition Time := Z.

Inductive Exn :=
| Error (message : string)            (* throw new Error(message) *)
| ValidationError (path : string)     (* Mongoose schema validation *)
| MongoServerError (code : Z)         (* E11000: unique index violated *)
| TypeError (message : string).       (* property read on undefined/null *)

Inductive result (A : Type) :=
| Ok (a : A)
| Throw (e : Exn).
Arguments Ok {A} a.
Arguments Throw {A} e.

(** [!s] for a value that is a string or undefined: undefined and the
    empty string are falsy. *)
Definition truthy (o : option string) : bool :=
  match o with
  | Some s => negb (String.eqb s EmptyString)
  | None => false
  end.

(** [a === b] for values that are strings or undefined. *)
Definition strict_eq (a b : option string) : bool :=
  match a, b with
  | Some x, Some y => String.eqb x y
  | None, None => true
  | _, _ => false
  end.

(** [Array.prototype.find] followed by a mutation of the element found:
    the first element satisfying [p] is replaced by its image under [f]. *)
Fixpoint update_first {A} (p : A -> bool) (f : A -> A) (l : list A) : list A :=
  match l with
  | [] => []
  | x :: r => if p x then f x :: r else x :: update_first p f r
  end.

(** ** The message model (models/Message.js) *)

Inductive Status := sent | delivered | read | failed.

Inductive MessageType := direct | group.

Record EncryptedKey := {
  ek_recipientId : ObjectId;
  ek_recipientDeviceId : string;
  ek_encryptedKey : string;
  ek_ephemeralPublicKey : string
}.

Record EncryptionMetadata := {
  algorithm : string;
  nonce : string;
  keyVersion : option Z;
  encryptedKeys : list EncryptedKey
}.

Record RecipientStatus := {
  rs_recipientId : ObjectId;
  rs_deviceId : option string;
  rs_status : Status;
  rs_deliveredAt : option Time;
  rs_readAt : option Time
}.

Record Message := {
  messageId : string;
  senderId : ObjectId;
  senderDeviceId : string;
  recipientId : option ObjectId;
  roomId : option ObjectId;
  messageType : MessageType;
  encryptedContent : string;
  encryptionMetadata : EncryptionMetadata;
  deliveryStatus : Status;
  deliveredAt : option Time;
  readAt : option Time;
  recipientStatuses : list RecipientStatus;
  isDeleted : bool;
  deletedAt : option Time;
  expiresAt : option Time;
  createdAt : Time
}.

Module MessageModel.

Definition set_delivery (m : Message) (s : Status)
    (dAt rAt : option Time) : Message :=
  {| messageId := messageId m; senderId := senderId m;
     senderDeviceId := senderDeviceId m; recipientId := recipientId m;
     roomId := roomId m; messageType := messageType m;
     encryptedContent := encryptedContent m;
     encryptionMetadata := encryptionMetadata m;
     deliveryStatus := s; deliveredAt := dAt; readAt := rAt;
     recipientStatuses := recipientStatuses m;
     isDeleted := isDeleted m; deletedAt := deletedAt m;
     expiresAt := expiresAt m; createdAt := createdAt m |}.

Definition set_recipientStatuses (m : Message)
    (l : list RecipientStatus) : Message :=
  {| messageId := messageId m; senderId := senderId m;
     senderDeviceId := senderDeviceId m; recipientId := recipientId m;
     roomId := roomId m; messageType := messageType m;
     encryptedContent := encryptedContent m;
     encryptionMetadata := encryptionMetadata m;
     deliveryStatus := deliveryStatus m; deliveredAt := deliveredAt m;
     readAt := readAt m;
     recipientStatuses := l;
     isDeleted := isDeleted m; deletedAt := deletedAt m;
     expiresAt := expiresAt m; createdAt := createdAt m |}.

(** The predicate handed to [recipientStatuses.find]:
    [rs.recipientId.toString() === recipientId.toString() &&
     rs.deviceId === deviceId]. *)
Definition rs_matches (recipientId : ObjectId) (deviceId : option string)
    (rs : RecipientStatus) : bool :=
  String.eqb (rs_recipientId rs) recipientId
  && strict_eq (rs_deviceId rs) deviceId.

Definition rs_deliver (now : Time) (rs : RecipientStatus) : RecipientStatus :=
  {| rs_recipientId := rs_recipientId rs; rs_deviceId := rs_deviceId rs;
     rs_status := delivered; rs_deliveredAt := Some now;
     rs_readAt := rs_readAt rs |}.

Definition rs_read (now : Time) (rs : RecipientStatus) : RecipientStatus :=
  {| rs_recipientId := rs_recipientId rs; rs_deviceId := rs_deviceId rs;
     rs_status := read; rs_deliveredAt := rs_deliveredAt rs;
     rs_readAt := Some now |}.

(** [messageSchema.methods.markDelivered], up to the final [save()]. *)
Definition markDelivered (m : Message) (recipientId : ObjectId)
    (deviceId : option string) (now : Time) : Message :=
  match messageType m with
  | direct => set_delivery m delivered (Some now) (readAt m)
  | group =>
      set_recipientStatuses m
        (update_first (rs_matches recipientId deviceId) (rs_deliver now)
           (recipientStatuses m))
  end.

(** [messageSchema.methods.markRead], up to the final [save()]. *)
Definition markRead (m : Message) (recipientId : ObjectId)
    (deviceId : option string) (now : Time) : Message :=
  match messageType m with
  | direct => set_delivery m read (deliveredAt m) (Some now)
  | group =>
      set_recipientStatuses m
        (update_first (rs_matches recipientId deviceId) (rs_read now)
           (recipientStatuses m))
  end.

End MessageModel.

(** ** Rooms (models/Room.js) and users (models/User.js) *)

Inductive Role := admin | member.

Record Participant := {
  p_userId : ObjectId;
  p_role : Role;
  p_joinedAt : Time;
  p_hasReceivedGroupKey : bool
}.

Record Room := {
  room_id : ObjectId;                 (* _id *)
  room_name : string;
  participants : list Participant;
  maxParticipants : nat;              (* settings.maxParticipants *)
  room_isActive : bool;
  lastActivity : Time
}.

Record SignedPreKey := {
  spk_keyId : Z;
  spk_publicKey : string;
  spk_signature : string;
  spk_timestamp : Time
}.

Record User := {
  user_id : ObjectId;                 (* _id *)
  identityPublicKey : option string;
  user_signedPreKey : option SignedPreKey;
  isOnline : bool;
  lastSeen : option Time
}.

Module RoomModel.

Definition set_roster (r : Room) (ps : list Participant) (now : Time) : Room :=
  {| room_id := room_id r; room_name := room_name r; participants := ps;
     maxParticipants := maxParticipants r; room_isActive := room_isActive r;
     lastActivity := now |}.

(** [roomSchema.methods.isParticipant]. *)
Definition isParticipant (r : Room) (userId : ObjectId) : bool :=
  existsb (fun p => String.eqb (p_userId p) userId) (participants r).

(** [roomSchema.methods.addParticipant], up to the final [save()]. *)
Definition addParticipant (r : Room) (userId : ObjectId) (role : Role)
    (now : Time) : result Room :=
  if isParticipant r userId then Throw (Error "User already in room")
  else if (maxParticipants r <=? length (participants r))%nat
  then Throw (Error "Room is full")
  else Ok (set_roster r
             (participants r ++
                [{| p_userId := userId; p_role := role; p_joinedAt := now;
                    p_hasReceivedGroupKey := false |}]) now).

(** [roomSchema.methods.removeParticipant], up to the final [save()]. *)
Definition removeParticipant (r : Room) (userId : ObjectId) (now : Time) : Room :=
  set_roster r
    (List.filter (fun p => negb (String.eqb (p_userId p) userId))
       (participants r))
    now.

End RoomModel.

(** ** The message service (services/messageService.js) *)

Module MessageService.

(** The collections the service reads and writes, in natural order. *)
Record Db := {
  users : list User;
  rooms : list Room;
  messages : list Message
}.

(** [messageData.messageType] is client data: on the socket path it
    reaches the service unvalidated, so it may be any value. *)
Inductive JsMessageType := MTdirect | MTgroup | MTother.

Record MessageData := {
  md_messageId : string;
  md_recipientId : option ObjectId;
  md_roomId : option ObjectId;
  md_messageType : JsMessageType;
  md_encryptedContent : string;
  md_encryptionMetadata : EncryptionMetadata;
  md_expiresIn : option Z
}.

(** [Message.findOne({ messageId })]. *)
Definition findOne (mid : string) (l : list Message) : option Message :=
  List.find (fun m => String.eqb (messageId m) mid) l.

(** [save()] of a document obtained from [findOne({ messageId })]: the
    document found, which is the first one with that id, is replaced. *)
Definition save (m' : Message) (l : list Message) : list Message :=
  update_first (fun m => String.eqb (messageId m) (messageId m'))
    (fun _ => m') l.

Definition User_findById (uid : ObjectId) (l : list User) : option User :=
  List.find (fun u => String.eqb (user_id u) uid) l.

Definition Room_findById (rid : ObjectId) (l : list Room) : option Room :=
  List.find (fun r => String.eqb (room_id r) rid) l.

Definition Room_save (r' : Room) (l : list Room) : list Room :=
  update_first (fun r => String.eqb (room_id r) (room_id r')) (fun _ => r') l.

Definition set_messages (db : Db) (l : list Message) : Db :=
  {| users := users db; rooms := rooms db; messages := l |}.

Definition set_rooms (db : Db) (l : list Room) : Db :=
  {| users := users db; rooms := l; messages := messages db |}.

(** The per-recipient entries written at send time:
    [room.participants.filter(p => p.userId != senderId)
         .map(p => ({ recipientId: p.userId, status: 'sent' }))]. *)
Definition initialStatuses (room : Room) (sender : ObjectId)
    : list RecipientStatus :=
  List.map
    (fun p => {| rs_recipientId := p_userId p; rs_deviceId := None;
                 rs_status := sent; rs_deliveredAt := None;
                 rs_readAt := None |})
    (List.filter (fun p => negb (String.eqb (p_userId p) sender))
       (participants room)).

(** The document handed to [Message.create]. *)
Record MessageDoc := {
  doc_recipientId : option ObjectId;
  doc_roomId : option ObjectId;
  doc_recipientStatuses : list RecipientStatus;
  doc_expiresAt : option Time
}.

(** [Message.create(messageDoc)]: schema validation of the required
    paths and of the [messageType] enum, then the insert. *)
Definition create (sender : ObjectId) (senderDevice : string)
    (md : MessageData) (doc : MessageDoc) (now : Time) (db : Db)
    : Db * result Message :=
  if String.eqb (md_messageId md) EmptyString
  then (db, Throw (ValidationError "messageId"))
  else if String.eqb senderDevice EmptyString
  then (db, Throw (ValidationError "senderDeviceId"))
  else
    match md_messageType md with
    | MTother => (db, Throw (ValidationError "messageType"))
    | (MTdirect | MTgroup) as t =>
        if String.eqb (md_encryptedContent md) EmptyString
        then (db, Throw (ValidationError "encryptedContent"))
        else
          let m :=
            {| messageId := md_messageId md; senderId := sender;
               senderDeviceId := senderDevice;
               recipientId := doc_recipientId doc;
               roomId := doc_roomId doc;
               messageType :=
                 match t with MTgroup => group | _ => direct end;
               encryptedContent := md_encryptedContent md;
               encryptionMetadata := md_encryptionMetadata md;
               deliveryStatus := sent; deliveredAt := None; readAt := None;
               recipientStatuses := doc_recipientStatuses doc;
               isDeleted := false; deletedAt := None;
               expiresAt := doc_expiresAt doc; createdAt := now |} in
          (set_messages db (messages db ++ [m]), Ok m)
    end.

(** [MessageService.sendMessage].  For a group message the room's
    [lastActivity] is saved before [Message.create] runs. *)
Definition sendMessage (sender : ObjectId) (senderDevice : string)
    (md : MessageData) (now : Time) (db : Db) : Db * result Message :=
  match md_messageType md, truthy (md_recipientId md), truthy (md_roomId md) with
  | MTdirect, false, _ =>
      (db, Throw (Error "Recipient ID required for direct messages"))
  | MTgroup, _, false =>
      (db, Throw (Error "Room ID required for group messages"))
  | _, _, _ =>
      match findOne (md_messageId md) (messages db) with
      | Some existingMessage => (db, Ok existingMessage)
      | None =>
          let expiresAt :=
            match md_expiresIn md with
            | Some n => if Z.eqb n 0 then None else Some (now + n * 1000)%Z
            | None => None
            end in
          match md_messageType md with
          | MTdirect =>
              match User_findById (default EmptyString (md_recipientId md))
                      (users db) with
              | None => (db, Throw (Error "Recipient not found"))
              | Some _ =>
                  create sender senderDevice md
                    {| doc_recipientId := md_recipientId md;
                       doc_roomId := None; doc_recipientStatuses := [];
                       doc_expiresAt := expiresAt |} now db
              end
          | MTgroup =>
              match Room_findById (default EmptyString (md_roomId md))
                      (rooms db) with
              | None => (db, Throw (Error "Room not found"))
              | Some room =>
                  if negb (RoomModel.isParticipant room sender)
                  then (db, Throw (Error "Not a member of this room"))
                  else
                    let room' :=
                      RoomModel.set_roster room (participants room) now in
                    create sender senderDevice md
                      {| doc_recipientId := None;
                         doc_roomId := md_roomId md;
                         doc_recipientStatuses := initialStatuses room sender;
                         doc_expiresAt := expiresAt |} now
                      (set_rooms db (Room_save room' (rooms db)))
              end
          | MTother =>
              create sender senderDevice md
                {| doc_recipientId := None; doc_roomId := None;
                   doc_recipientStatuses := []; doc_expiresAt := expiresAt |}
                now db
          end
      end
  end.

(** [MessageService.markDelivered]. *)
Definition markDelivered (mid : string) (recipientId : ObjectId)
    (deviceId : option string) (now : Time) (db : Db) : Db * result Message :=
  match findOne mid (messages db) with
  | None => (db, Throw (Error "Message not found"))
  | Some message =>
      let message' := MessageModel.markDelivered message recipientId deviceId now in
      (set_messages db (save message' (messages db)), Ok message')
  end.

(** [MessageService.markRead]. *)
Definition markRead (mid : string) (recipientId : ObjectId)
    (deviceId : option string) (now : Time) (db : Db) : Db * result Message :=
  match findOne mid (messages db) with
  | None => (db, Throw (Error "Message not found"))
  | Some message =>
      let message' := MessageModel.markRead message recipientId deviceId now in
      (set_messages db (save message' (messages db)), Ok message')
  end.

(** The roster mutations the room controller offers
    (controllers/roomController.js): look the room up by id, mutate it
    through the model method, save it.  The controller's permission
    checks only decide whether a mutation runs and are left out. *)
Inductive RosterOp :=
| AddParticipant (roomId userId : ObjectId)
| RemoveParticipant (roomId userId : ObjectId).

Definition applyRosterOp (now : Time) (op : RosterOp) (db : Db) : Db :=
  match op with
  | AddParticipant rid uid =>
      match Room_findById rid (rooms db) with
      | None => db
      | Some room =>
          match RoomModel.addParticipant room uid member now with
          | Ok room' => set_rooms db (Room_save room' (rooms db))
          | Throw _ => db
          end
      end
  | RemoveParticipant rid uid =>
      match Room_findById rid (rooms db) with
      | None => db
      | Some room =>
          set_rooms db
            (Room_save (RoomModel.removeParticipant room uid now) (rooms db))
      end
  end.


End MessageService.

(** ** The Base64 codec behind [Buffer.from(s, 'base64')] and
       [buf.toString('base64')]

    [Buffer] belongs to the Node.js runtime, not to the repository.  The
    decoder is the runtime's lenient one: characters outside the
    alphabet are skipped, both the standard and the URL-safe alphabet
    are accepted, and decoding stops at the first padding character.
    The encoder emits the standard alphabet with padding. *)

Module Base64.

Definition alphabet : string :=
  "ABCDEFGHIJKLMNOPQRSTUVWXYZabcdefghijklmnopqrstuvwxyz0123456789+/".

Definition unbase64 (c : ascii) : option N :=
  let n := N_of_ascii c in
  if (65 <=? n)%N && (n <=? 90)%N then Some (n - 65)%N
  else if (97 <=? n)%N && (n <=? 122)%N then Some (n - 71)%N
  else if (48 <=? n)%N && (n <=? 57)%N then Some (n + 4)%N
  else if (n =? 43)%N || (n =? 45)%N then Some 62%N
  else if (n =? 47)%N || (n =? 95)%N then Some 63%N
  else None.

Fixpoint sextets (s : string) : list N :=
  match s with
  | EmptyString => []
  | String c r =>
      if Ascii.eqb c "="%char then []
      else match unbase64 c with
           | Some v => v :: sextets r
           | None => sextets r
           end
  end.

Fixpoint bytes_of_sextets (l : list N) : list N :=
  match l with
  | a :: b :: c :: d :: r =>
      (a * 4 + b / 16)%N :: ((b mod 16) * 16 + c / 4)%N
        :: ((c mod 4) * 64 + d)%N :: bytes_of_sextets r
  | [a; b; c] => [(a * 4 + b / 16)%N; ((b mod 16) * 16 + c / 4)%N]
  | [a; b] => [(a * 4 + b / 16)%N]
  | _ => []
  end.

Definition decode (s : string) : list N := bytes_of_sextets (sextets s).

Definition digit (n : N) : ascii :=
  match String.get (N.to_nat n) alphabet with
  | Some c => c
  | None => "="%char
  end.

Fixpoint encode (l : list N) : string :=
  match l with
  | a :: b :: c :: r =>
      String (digit (a / 4))
        (String (digit ((a mod 4) * 16 + b / 16))
           (String (digit ((b mod 16) * 4 + c / 64))
              (String (digit (c mod 64)) (encode r))))
  | [a; b] =>
      String (digit (a / 4))
        (String (digit ((a mod 4) * 16 + b / 16))
           (String (digit ((b mod 16) * 4)) "="))
  | [a] =>
      String (digit (a / 4)) (String (digit ((a mod 4) * 16)) "==")
  | [] => EmptyString
  end.

End Base64.

(** ** Devices (models/Device.js) and one-time prekeys (models/PreKey.js) *)

Record Device := {
  dev_userId : ObjectId;
  dev_deviceId : string;
  deviceName : string;
  deviceType : string;
  dev_publicKey : string;
  dev_signedPreKey : SignedPreKey;
  dev_isActive : bool;
  isRevoked : bool
}.

Record PreKey := {
  pk_id : nat;                        (* _id *)
  pk_userId : ObjectId;
  pk_deviceId : string;
  keyId : Z;
  pk_publicKey : string;
  isUsed : bool;
  usedAt : option Time;
  usedBy : option ObjectId;
  pk_expiresAt : Time;
  pk_createdAt : Time
}.

Module PreKeyModel.

(** The filter of [getAvailablePreKey]:
    [{ userId, deviceId, isUsed: false, expiresAt: { $gt: new Date() } }]. *)
Definition available (userId : ObjectId) (deviceId : string) (now : Time)
    (k : PreKey) : bool :=
  String.eqb (pk_userId k) userId && String.eqb (pk_deviceId k) deviceId
  && negb (isUsed k) && (now <? pk_expiresAt k)%Z.

(** [.sort({ createdAt: 1 })] followed by taking the first document: a
    document of least [createdAt]; among equal timestamps the store's
    natural order decides. *)
Fixpoint oldest (l : list PreKey) : option PreKey :=
  match l with
  | [] => None
  | k :: r =>
      match oldest r with
      | None => Some k
      | Some k' =>
          if (pk_createdAt k <=? pk_createdAt k')%Z then Some k else Some k'
      end
  end.

(** [preKeySchema.statics.getAvailablePreKey]. *)
Definition getAvailablePreKey (userId : ObjectId) (deviceId : string)
    (now : Time) (coll : list PreKey) : option PreKey :=
  oldest (List.filter (available userId deviceId now) coll).

Definition used (k : PreKey) (usedByUserId : ObjectId) (now : Time) : PreKey :=
  {| pk_id := pk_id k; pk_userId := pk_userId k; pk_deviceId := pk_deviceId k;
     keyId := keyId k; pk_publicKey := pk_publicKey k;
     isUsed := true; usedAt := Some now; usedBy := Some usedByUserId;
     pk_expiresAt := pk_expiresAt k; pk_createdAt := pk_createdAt k |}.

(** [preKeySchema.methods.markAsUsed]: the three fields are set on the
    in-memory document and [save()] writes the modified paths to the
    stored document with the same [_id], whatever that document holds
    by then (the schema enables no version check). *)
Definition markAsUsed (k : PreKey) (usedByUserId : ObjectId) (now : Time)
    (coll : list PreKey) : list PreKey :=
  List.map
    (fun d => if Nat.eqb (pk_id d) (pk_id k) then used d usedByUserId now else d)
    coll.

End PreKeyModel.

(** ** The key service (services/keyService.js) *)

Module KeyService.

Record Db := {
  users : list User;
  devices : list Device;
  preKeys : list PreKey;
  nextId : nat                      (* the next fresh [_id] *)
}.

(** A request field before any type check. *)
Inductive JsValue :=
| JsUndefined
| JsNull
| JsNumber (n : Z)
| JsString (s : string).

(** [KeyService.isValidBase64]. *)
Definition isValidBase64 (str : JsValue) : bool :=
  match str with
  | JsString s =>
      if String.eqb s EmptyString then false
      else String.eqb (Base64.encode (Base64.decode s)) s
  | _ => false
  end.

Record SignedPreKeyData := {
  spkd_keyId : Z;
  spkd_publicKey : string;
  spkd_signature : string
}.

Record PreKeyData := {
  pkd_keyId : Z;
  pkd_publicKey : string
}.

Record KeyData := {
  kd_deviceId : string;
  kd_publicKey : JsValue;
  kd_signedPreKey : option SignedPreKeyData;
  kd_identityPublicKey : option string;
  kd_preKeys : option (list PreKeyData);
  kd_deviceName : option string;
  kd_deviceType : option string
}.

Record Registered := {
  reg_deviceId : string;
  reg_publicKey : string
}.

(** [parseInt(process.env.PREKEY_EXPIRATION_DAYS) || 30]; the argument
    is the parsed variable, [None] when it is unset or not a number. *)
Definition expirationDays (env : option Z) : Z :=
  match env with
  | Some n => if Z.eqb n 0 then 30 else n
  | None => 30
  end.

Definition same_key (userId : ObjectId) (deviceId : string) (kid : Z)
    (k : PreKey) : bool :=
  String.eqb (pk_userId k) userId && String.eqb (pk_deviceId k) deviceId
  && Z.eqb (keyId k) kid.

(** [PreKey.insertMany(docs, { ordered: false })] with the duplicate-key
    error swallowed by the caller: every document is tried in turn; one
    that fails schema validation (empty [publicKey]) or collides on the
    unique index [(userId, deviceId, keyId)] is dropped and the rest
    are still inserted. *)
Fixpoint insertMany (userId : ObjectId) (deviceId : string)
    (expiresAt now : Time) (docs : list PreKeyData)
    (coll : list PreKey) (next : nat) : list PreKey * nat :=
  match docs with
  | [] => (coll, next)
  | pk :: rest =>
      if String.eqb (pkd_publicKey pk) EmptyString
         || existsb (same_key userId deviceId (pkd_keyId pk)) coll
      then insertMany userId deviceId expiresAt now rest coll next
      else
        insertMany userId deviceId expiresAt now rest
          (coll ++
             [{| pk_id := next; pk_userId := userId; pk_deviceId := deviceId;
                 keyId := pkd_keyId pk; pk_publicKey := pkd_publicKey pk;
                 isUsed := false; usedAt := None; usedBy := None;
                 pk_expiresAt := expiresAt; pk_createdAt := now |}])
          (S next)
  end.

Definition set_preKeys (db : Db) (l : list PreKey) (n : nat) : Db :=
  {| users := users db; devices := devices db; preKeys := l; nextId := n |}.

Definition set_devices (db : Db) (l : list Device) : Db :=
  {| users := users db; devices := l; preKeys := preKeys db;
     nextId := nextId db |}.

Definition set_users (db : Db) (l : list User) : Db :=
  {| users := l; devices := devices db; preKeys := preKeys db;
     nextId := nextId db |}.

(** [KeyService.registerPreKeys]; returns [{ count }]. *)
Definition registerPreKeys (env : option Z) (userId : ObjectId)
    (deviceId : string) (pks : list PreKeyData) (now : Time) (db : Db)
    : Db * result nat :=
  let expiresAt := (now + expirationDays env * 24 * 60 * 60 * 1000)%Z in
  let '(coll, next) :=
    insertMany userId deviceId expiresAt now pks (preKeys db) (nextId db) in
  (set_preKeys db coll next, Ok (length pks)).

Definition is_device (userId : ObjectId) (deviceId : string) (d : Device) : bool :=
  String.eqb (dev_userId d) userId && String.eqb (dev_deviceId d) deviceId.

Definition User_findById (uid : ObjectId) (l : list User) : option User :=
  List.find (fun u => String.eqb (user_id u) uid) l.

Definition set_identity (u : User) (k : string) : User :=
  {| user_id := user_id u; identityPublicKey := Some k;
     user_signedPreKey := user_signedPreKey u; isOnline := isOnline u;
     lastSeen := lastSeen u |}.

(** [device.save()] in [registerDeviceKeys].  A new document is
    validated ([deviceId] required, [deviceType] in its enum) and
    inserted unless the unique index on [deviceId] is violated; an
    existing one is replaced where it was found. *)
Definition Device_save (isNew : bool) (d : Device) (l : list Device)
    : result (list Device) :=
  if isNew then
    if String.eqb (dev_deviceId d) EmptyString then Throw (ValidationError "deviceId")
    else if negb (existsb (String.eqb (deviceType d)) ["web"; "mobile"; "desktop"])
    then Throw (ValidationError "deviceType")
    else if existsb (fun d' => String.eqb (dev_deviceId d') (dev_deviceId d)) l
    then Throw (MongoServerError 11000)
    else Ok (l ++ [d])%list
  else
    Ok (update_first (is_device (dev_userId d) (dev_deviceId d)) (fun _ => d) l).

(** [KeyService.registerDeviceKeys]. *)
Definition registerDeviceKeys (env : option Z) (userId : ObjectId)
    (keyData : KeyData) (now : Time) (db : Db) : Db * result Registered :=
  if negb (isValidBase64 (kd_publicKey keyData))
  then (db, Throw (Error "Invalid public key format"))
  else
    let publicKey :=
      match kd_publicKey keyData with JsString s => s | _ => EmptyString end in
    let deviceId := kd_deviceId keyData in
    match kd_signedPreKey keyData with
    | None =>
        (db, Throw (TypeError "Cannot read properties of undefined"))
    | Some spk =>
        let signedPreKey :=
          {| spk_keyId := spkd_keyId spk; spk_publicKey := spkd_publicKey spk;
             spk_signature := spkd_signature spk; spk_timestamp := now |} in
        let saved :=
          match List.find (is_device userId deviceId) (devices db) with
          | None =>
              Device_save true
                {| dev_userId := userId; dev_deviceId := deviceId;
                   deviceName :=
                     if truthy (kd_deviceName keyData)
                     then default EmptyString (kd_deviceName keyData)
                     else "Unknown Device";
                   deviceType :=
                     if truthy (kd_deviceType keyData)
                     then default EmptyString (kd_deviceType keyData)
                     else "web";
                   dev_publicKey := publicKey;
                   dev_signedPreKey := signedPreKey;
                   dev_isActive := true; isRevoked := false |}
                (devices db)
          | Some device =>
              Device_save false
                {| dev_userId := dev_userId device;
                   dev_deviceId := dev_deviceId device;
                   deviceName := deviceName device;
                   deviceType := deviceType device;
                   dev_publicKey := publicKey;
                   dev_signedPreKey := signedPreKey;
                   dev_isActive := true; isRevoked := isRevoked device |}
                (devices db)
          end in
        match saved with
        | Throw e => (db, Throw e)
        | Ok devs =>
            let db1 := set_devices db devs in
            let identity :=
              if truthy (kd_identityPublicKey keyData) then
                match User_findById userId (users db1) with
                | None =>
                    Throw (TypeError "Cannot read properties of null")
                | Some user =>
                    if truthy (identityPublicKey user) then Ok (users db1)
                    else
                      Ok (update_first
                            (fun u => String.eqb (user_id u) userId)
                            (fun _ =>
                               set_identity user
                                 (default EmptyString
                                    (kd_identityPublicKey keyData)))
                            (users db1))
                end
              else Ok (users db1) in
            match identity with
            | Throw e => (db1, Throw e)
            | Ok us =>
                let db2 := set_users db1 us in
                let db3 :=
                  match kd_preKeys keyData with
                  | Some (pk :: pks) =>
                      fst (registerPreKeys env userId deviceId (pk :: pks) now db2)
                  | _ => db2
                  end in
                (db3, Ok {| reg_deviceId := deviceId; reg_publicKey := publicKey |})
            end
        end
    end.

Record OneTimePreKey := {
  otk_keyId : Z;
  otk_publicKey : string
}.

Record DeviceKeys := {
  dk_deviceId : string;
  dk_publicKey : string;
  dk_signedPreKey : SignedPreKey;
  oneTimePreKey : option OneTimePreKey
}.

Record Bundle := {
  b_userId : ObjectId;
  b_identityPublicKey : option string;
  b_signedPreKey : option SignedPreKey;
  b_devices : list DeviceKeys
}.

(** The object the per-device callback of [getUserKeys] returns. *)
Definition entry (device : Device) (preKey : option PreKey) : DeviceKeys :=
  {| dk_deviceId := dev_deviceId device;
     dk_publicKey := dev_publicKey device;
     dk_signedPreKey := dev_signedPreKey device;
     oneTimePreKey :=
       match preKey with
       | Some k => Some {| otk_keyId := keyId k; otk_publicKey := pk_publicKey k |}
       | None => None
       end |}.

(** The per-device callback of [getUserKeys] run without interruption:
    [getAvailablePreKey], then [markAsUsed] when a prekey was found. *)
Definition deviceKeys (targetUserId requestingUserId : ObjectId) (now : Time)
    (device : Device) (coll : list PreKey) : list PreKey * DeviceKeys :=
  let preKey :=
    PreKeyModel.getAvailablePreKey targetUserId (dev_deviceId device) now coll in
  (match preKey with
   | Some k => PreKeyModel.markAsUsed k requestingUserId now coll
   | None => coll
   end,
   entry device preKey).

(** [Promise.all(devices.map(...))] within one call: the callbacks of
    one call work on different devices, hence on disjoint prekeys, and
    are run here one after the other in the order of [devices]. *)
Fixpoint allDeviceKeys (targetUserId requestingUserId : ObjectId) (now : Time)
    (devs : list Device) (coll : list PreKey) : list PreKey * list DeviceKeys :=
  match devs with
  | [] => (coll, [])
  | d :: rest =>
      let '(coll1, e) := deviceKeys targetUserId requestingUserId now d coll in
      let '(coll2, es) :=
        allDeviceKeys targetUserId requestingUserId now rest coll1 in
      (coll2, e :: es)
  end.

(** The filter [{ userId: targetUserId, isRevoked: false, isActive: true }]. *)
Definition activeDevice (targetUserId : ObjectId) (d : Device) : bool :=
  String.eqb (dev_userId d) targetUserId && negb (isRevoked d) && dev_isActive d.

(** [KeyService.getUserKeys]. *)
Definition getUserKeys (targetUserId requestingUserId : ObjectId) (now : Time)
    (db : Db) : Db * result Bundle :=
  match User_findById targetUserId (users db) with
  | None => (db, Throw (Error "User not found"))
  | Some user =>
      let devs := List.filter (activeDevice targetUserId) (devices db) in
      let '(coll, deviceKeys) :=
        allDeviceKeys targetUserId requestingUserId now devs (preKeys db) in
      (set_preKeys db coll (nextId db),
       Ok {| b_userId := targetUserId;
             b_identityPublicKey := identityPublicKey user;
             b_signedPreKey := user_signedPreKey user;
             b_devices := deviceKeys |})
  end.

(** *** Concurrent callers

    The per-device callback awaits twice: once for the query of
    [getAvailablePreKey] and once for the [save()] of [markAsUsed].
    Between the two the event loop (or another server process) may run
    any other caller.  A [Task] is a callback at one of its await
    points; [task_step] runs it up to the next one. *)
Inductive Task :=
| Pending (device : Device)
| Holding (device : Device) (preKey : option PreKey)
| Finished (keys : DeviceKeys).

Record Call := {
  requestingUserId : ObjectId;
  task : Task
}.

Definition task_step (targetUserId requester : ObjectId) (now : Time)
    (t : Task) (coll : list PreKey) : list PreKey * Task :=
  match t with
  | Pending d =>
      (coll,
       Holding d (PreKeyModel.getAvailablePreKey targetUserId (dev_deviceId d) now coll))
  | Holding d preKey =>
      (match preKey with
       | Some k => PreKeyModel.markAsUsed k requester now coll
       | None => coll
       end,
       Finished (entry d preKey))
  | Finished _ => (coll, t)
  end.

(** A schedule names, step by step, the caller that runs next. *)
Fixpoint interleave (targetUserId : ObjectId) (now : Time)
    (schedule : list nat) (coll : list PreKey) (calls : list Call)
    : list PreKey * list Call :=
  match schedule with
  | [] => (coll, calls)
  | i :: rest =>
      match calls !! i with
      | None => interleave targetUserId now rest coll calls
      | Some c =>
          let '(coll', t') :=
            task_step targetUserId (requestingUserId c) now (task c) coll in
          interleave targetUserId now rest coll'
            (<[i := {| requestingUserId := requestingUserId c; task := t' |}]> calls)
      end
  end.

(** What a finished caller received for the device. *)
Definition received (c : Call) : option OneTimePreKey :=
  match task c with
  | Finished keys => oneTimePreKey keys
  | _ => None
  end.

End KeyService.

(** ** Presence (services/presenceService.js)

    The shared Redis keyspace maps a key to its value and the time at
    which it expires; a key is visible while [now] is before that time.
    Events published on the broker are collected in publication order. *)

Inductive PresenceStatus := online | offline.

Record PresenceEvent := {
  ev_userId : ObjectId;
  ev_deviceId : string;
  ev_status : PresenceStatus;
  ev_timestamp : Time
}.

Module PresenceService.

Definition PRESENCE_TIMEOUT : Z := 60.   (* seconds *)

Record State := {
  redis : gmap string (string * Time);
  users : list User;
  published : list PresenceEvent      (* channel 'presence', oldest first *)
}.

Definition presenceKey (userId : ObjectId) (deviceId : string) : string :=
  "presence:" ++ userId ++ ":" ++ deviceId.

(** [redis.keys(`presence:${userId}:*`)]: user ids are ObjectId strings
    and hold no glob metacharacter, so the pattern selects the live keys
    that start with the text before the star. *)
Definition keys (prefix : string) (now : Time)
    (r : gmap string (string * Time)) : list string :=
  List.map fst
    (List.filter
       (fun kv => String.prefix prefix (fst kv) && (now <? snd (snd kv))%Z)
       (map_to_list r)).

(** [User.findByIdAndUpdate(userId, { isOnline, lastSeen })]. *)
Definition User_findByIdAndUpdate (userId : ObjectId) (on : bool) (now : Time)
    (l : list User) : list User :=
  update_first (fun u => String.eqb (user_id u) userId)
    (fun u => {| user_id := user_id u;
                 identityPublicKey := identityPublicKey u;
                 user_signedPreKey := user_signedPreKey u;
                 isOnline := on; lastSeen := Some now |}) l.

Definition publish (e : PresenceEvent) (st : State) : State :=
  {| redis := redis st; users := users st;
     published := (published st ++ [e])%list |}.

(** [PresenceService.setOnline]. *)
Definition setOnline (userId : ObjectId) (deviceId : string) (now : Time)
    (st : State) : State :=
  publish
    {| ev_userId := userId; ev_deviceId := deviceId; ev_status := online;
       ev_timestamp := now |}
    {| redis :=
         <[presenceKey userId deviceId :=
             ("online", (now + PRESENCE_TIMEOUT * 1000)%Z)]> (redis st);
       users := User_findByIdAndUpdate userId true now (users st);
       published := published st |}.

(** [PresenceService.setOffline]. *)
Definition setOffline (userId : ObjectId) (deviceId : string) (now : Time)
    (st : State) : State :=
  let r := delete (presenceKey userId deviceId) (redis st) in
  match keys ("presence:" ++ userId ++ ":") now r with
  | [] =>
      publish
        {| ev_userId := userId; ev_deviceId := deviceId; ev_status := offline;
           ev_timestamp := now |}
        {| redis := r;
           users := User_findByIdAndUpdate userId false now (users st);
           published := published st |}
  | _ :: _ =>
      {| redis := r; users := users st; published := published st |}
  end.

(** The offline events published for a user. *)
Definition offlineEvents (userId : ObjectId) (l : list PresenceEvent)
    : list PresenceEvent :=
  List.filter
    (fun e => String.eqb (ev_userId e) userId
              && match ev_status e with offline => true | online => false end)
    l.

End PresenceService.

(** ** Socket handlers (websocket/wsHandlers.js) *)

Module WebSocketHandlers.

(** [handleConnection]: the presence service publishes the online
    event and the handler publishes it once more. *)
Definition handleConnection (userId : ObjectId) (deviceId : string)
    (now : Time) (st : PresenceService.State) : PresenceService.State :=
  PresenceService.publish
    {| ev_userId := userId; ev_deviceId := deviceId; ev_status := online;
       ev_timestamp := now |}
    (PresenceService.setOnline userId deviceId now st).

(** [handleDisconnection]: [setOffline], then an offline event
    published by the handler itself. *)
Definition handleDisconnection (userId : ObjectId) (deviceId : string)
    (now : Time) (st : PresenceService.State) : PresenceService.State :=
  PresenceService.publish
    {| ev_userId := userId; ev_deviceId := deviceId; ev_status := offline;
       ev_timestamp := now |}
    (PresenceService.setOffline userId deviceId now st).

End WebSocketHandlers.

(** ** The socket server and its connection registry
       (websocket/wsServer.js) *)

Module WebSocketServer.

(** What the server keeps on a socket object. *)
Record Socket := {
  ws_userId : ObjectId;
  ws_deviceId : string;
  isAlive : bool
}.

(** Socket objects are named by a number.  [clients] is the registry
    [Map] of the class; [wss_clients] is the set of open sockets the
    [ws] library tracks ([clientTracking: true]). *)
Record Server := {
  clients : gmap string nat;
  wss_clients : gmap nat Socket;
  presence : PresenceService.State
}.

Definition clientKey (userId : ObjectId) (deviceId : string) : string :=
  userId ++ ":" ++ deviceId.

(** The ['connection'] handler after a successful
    [authenticateWebSocket]. *)
Definition connection (ws : nat) (userId : ObjectId) (deviceId : string)
    (now : Time) (s : Server) : Server :=
  {| clients := <[clientKey userId deviceId := ws]> (clients s);
     wss_clients :=
       <[ws := {| ws_userId := userId; ws_deviceId := deviceId;
                  isAlive := true |}]> (wss_clients s);
     presence :=
       WebSocketHandlers.handleConnection userId deviceId now (presence s) |}.

(** The ['close'] handler registered for socket [ws]; the key deleted
    is the one computed when [ws] connected. *)
Definition close (ws : nat) (now : Time) (s : Server) : Server :=
  match wss_clients s !! ws with
  | None => s
  | Some sock =>
      {| clients :=
           delete (clientKey (ws_userId sock) (ws_deviceId sock)) (clients s);
         wss_clients := delete ws (wss_clients s);
         presence :=
           WebSocketHandlers.handleDisconnection
             (ws_userId sock) (ws_deviceId sock) now (presence s) |}
  end.

(** The ['pong'] handler. *)
Definition pong (ws : nat) (s : Server) : Server :=
  {| clients := clients s;
     wss_clients :=
       alter (fun sock => {| ws_userId := ws_userId sock;
                             ws_deviceId := ws_deviceId sock;
                             isAlive := true |}) ws (wss_clients s);
     presence := presence s |}.

(** One round of [setupHeartbeat] for one socket: a socket that has
    not answered since the last round is terminated, which runs its
    ['close'] handler; any other is marked and pinged. *)
Definition probe (now : Time) (s : Server) (ws : nat) : Server :=
  match wss_clients s !! ws with
  | None => s
  | Some sock =>
      if isAlive sock then
        {| clients := clients s;
           wss_clients :=
             <[ws := {| ws_userId := ws_userId sock;
                        ws_deviceId := ws_deviceId sock;
                        isAlive := false |}]> (wss_clients s);
           presence := presence s |}
      else close ws now s
  end.

(** One tick of the heartbeat interval over every tracked socket. *)
Definition heartbeat (now : Time) (s : Server) : Server :=
  fold_left (probe now) (List.map fst (map_to_list (wss_clients s))) s.

End WebSocketServer.

(** ** Observations used in the statements *)

(** The status an acknowledgement by [(recipientId, deviceId)] addresses:
    the direct status field, or the status of the per-recipient entry
    that [find] selects. *)
Definition statusFor (m : Message) (recipientId : ObjectId)
    (deviceId : option string) : option Status :=
  match messageType m with
  | direct => Some (deliveryStatus m)
  | group =>
      option_map rs_status
        (List.find (MessageModel.rs_matches recipientId deviceId)
           (recipientStatuses m))
  end.

(** The same, read back from the store. *)
Definition persistedStatus (db : MessageService.Db) (mid : string)
    (recipientId : ObjectId) (deviceId : option string) : option Status :=
  match MessageService.findOne mid (MessageService.messages db) with
  | Some m => statusFor m recipientId deviceId
  | None => None
  end.

(** The addressing check at the head of [sendMessage]. *)
Definition addressed (md : MessageService.MessageData) : bool :=
  match MessageService.md_messageType md with
  | MessageService.MTdirect => truthy (MessageService.md_recipientId md)
  | MessageService.MTgroup => truthy (MessageService.md_roomId md)
  | MessageService.MTother => true
  end.

(** ** Sample data: three users, one room, one direct message *)

Definition alice : ObjectId := "64a0000000000000000000a1".
Definition bob : ObjectId := "64a0000000000000000000b2".
Definition carol : ObjectId := "64a0000000000000000000c3".

Definition user (uid : ObjectId) : User :=
  {| user_id := uid; identityPublicKey := None; user_signedPreKey := None;
     isOnline := false; lastSeen := None |}.

Definition participant (uid : ObjectId) (r : Role) : Participant :=
  {| p_userId := uid; p_role := r; p_joinedAt := 0;
     p_hasReceivedGroupKey := false |}.

Definition room1 : Room :=
  {| room_id := "64a0000000000000000000f0"; room_name := "team";
     participants :=
       [participant alice admin; participant bob member;
        participant carol member];
     maxParticipants := 256; room_isActive := true; lastActivity := 0 |}.

Definition metadata0 : EncryptionMetadata :=
  {| algorithm := "XChaCha20-Poly1305"; nonce := "AAAA"; keyVersion := None;
     encryptedKeys := [] |}.

(** A direct message from alice to bob, as [sendMessage] persists it. *)
Definition m1 : Message :=
  {| messageId := "m1"; senderId := alice; senderDeviceId := "alice-phone";
     recipientId := Some bob; roomId := None; messageType := direct;
     encryptedContent := "Y2lwaGVy"; encryptionMetadata := metadata0;
     deliveryStatus := sent; deliveredAt := None; readAt := None;
     recipientStatuses := []; isDeleted := false; deletedAt := None;
     expiresAt := None; createdAt := 10 |}.

Definition db1 : MessageService.Db :=
  {| MessageService.users := [user alice; user bob; user carol];
     MessageService.rooms := [room1];
     MessageService.messages := [m1] |}.

(** A retry of [m1] that has lost its [recipientId]. *)
Definition retry_m1 : MessageService.MessageData :=
  {| MessageService.md_messageId := "m1";
     MessageService.md_recipientId := None;
     MessageService.md_roomId := None;
     MessageService.md_messageType := MessageService.MTdirect;
     MessageService.md_encryptedContent := "b3RoZXI=";
     MessageService.md_encryptionMetadata := metadata0;
     MessageService.md_expiresIn := None |}.

(** A retry of [m1] with another ciphertext. *)
Definition resend_m1 : MessageService.MessageData :=
  {| MessageService.md_messageId := "m1";
     MessageService.md_recipientId := Some bob;
     MessageService.md_roomId := None;
     MessageService.md_messageType := MessageService.MTdirect;
     MessageService.md_encryptedContent := "b3RoZXI=";
     MessageService.md_encryptionMetadata := metadata0;
     MessageService.md_expiresIn := None |}.

(** A group message of alice to [room1]. *)
Definition send_g1 : MessageService.MessageData :=
  {| MessageService.md_messageId := "g1";
     MessageService.md_recipientId := None;
     MessageService.md_roomId := Some (room_id room1);
     MessageService.md_messageType := MessageService.MTgroup;
     MessageService.md_encryptedContent := "Z3JvdXA=";
     MessageService.md_encryptionMetadata := metadata0;
     MessageService.md_expiresIn := None |}.

(** The recipients of a message with their statuses. *)
Definition statuses (m : Message) : list (ObjectId * Status) :=
  List.map (fun rs => (rs_recipientId rs, rs_status rs)) (recipientStatuses m).

(** ** Successive bundle fetches *)

(** [getUserKeys] called once per [(requester, time)], one call after
    the other. *)
Fixpoint fetchAll (target : ObjectId) (reqs : list (ObjectId * Time))
    (db : KeyService.Db) : KeyService.Db * list (result KeyService.Bundle) :=
  match reqs with
  | [] => (db, [])
  | (r, t) :: rest =>
      let '(db1, b) := KeyService.getUserKeys target r t db in
      let '(db2, bs) := fetchAll target rest db1 in
      (db2, b :: bs)
  end.

(** What a fetch returned for one device: [None] when the call threw or
    the bundle has no entry for the device, otherwise the entry's
    [oneTimePreKey] field. *)
Definition fetched (deviceId : string) (r : result KeyService.Bundle)
    : option (option KeyService.OneTimePreKey) :=
  match r with
  | Ok b =>
      option_map KeyService.oneTimePreKey
        (List.find (fun e => String.eqb (KeyService.dk_deviceId e) deviceId)
           (KeyService.b_devices b))
  | Throw _ => None
  end.

(** The documents [insertMany] stores when nothing is dropped. *)
Fixpoint newDocs (userId : ObjectId) (deviceId : string) (expiresAt now : Time)
    (next : nat) (pks : list KeyService.PreKeyData) : list PreKey :=
  match pks with
  | [] => []
  | pk :: rest =>
      {| pk_id := next; pk_userId := userId; pk_deviceId := deviceId;
         keyId := KeyService.pkd_keyId pk;
         pk_publicKey := KeyService.pkd_publicKey pk;
         isUsed := false; usedAt := None; usedBy := None;
         pk_expiresAt := expiresAt; pk_createdAt := now |}
        :: newDocs userId deviceId expiresAt now (S next) rest
  end.

Definition offered (pk : KeyService.PreKeyData) : KeyService.OneTimePreKey :=
  {| KeyService.otk_keyId := KeyService.pkd_keyId pk;
     KeyService.otk_publicKey := KeyService.pkd_publicKey pk |}.

(** The pool invariant: document ids are unique, and at every time of
    the window from [from] up to [upto] the available prekeys of the
    device are [ks], in natural order. *)
Definition pool (target : ObjectId) (dev : string) (from upto : Time)
    (coll ks : list PreKey) : Prop :=
  List.NoDup (List.map pk_id coll)
  /\ forall t, (from <= t < upto)%Z ->
               List.filter (PreKeyModel.available target dev t) coll = ks.

(** Characters of the standard Base64 alphabet, and the padding
    character. *)
Definition base64_char (c : ascii) : bool :=
  existsb (Ascii.eqb c) (list_ascii_of_string Base64.alphabet)
  || Ascii.eqb c "="%char.

Fixpoint all_chars (p : ascii -> bool) (s : string) : bool :=
  match s with
  | EmptyString => true
  | String c r => p c && all_chars p r
  end.

(** ** Sample data: bob's phone and its keys *)

Definition key32 : string := "AAAAAAAAAAAAAAAAAAAAAAAAAAAAAAAAAAAAAAAAAAA=".

Definition bob_phone : Device :=
  {| dev_userId := bob; dev_deviceId := "bob-phone";
     deviceName := "Unknown Device"; deviceType := "mobile";
     dev_publicKey := key32;
     dev_signedPreKey :=
       {| spk_keyId := 1; spk_publicKey := key32; spk_signature := key32;
          spk_timestamp := 0 |};
     dev_isActive := true; isRevoked := false |}.

Definition keydb0 : KeyService.Db :=
  {| KeyService.users := [user alice; user bob; user carol];
     KeyService.devices := [bob_phone];
     KeyService.preKeys := [];
     KeyService.nextId := 0 |}.

Definition prekey (n : Z) : KeyService.PreKeyData :=
  {| KeyService.pkd_keyId := n; KeyService.pkd_publicKey := key32 |}.

Definition ten_prekeys : list KeyService.PreKeyData :=
  List.map prekey [1; 2; 3; 4; 5; 6; 7; 8; 9; 10]%Z.

Definition eleven_requests : list (ObjectId * Time) :=
  List.map
    (fun n => (String (ascii_of_nat (Z.to_nat (64 + n))) EmptyString, 1000 + n)%Z)
    [1; 2; 3; 4; 5; 6; 7; 8; 9; 10; 11]%Z.

(** A registration whose [publicKey] is well formed while the signed
    prekey and the one-time prekey are not Base64 at all. *)
Definition malformed_rest : KeyService.KeyData :=
  {| KeyService.kd_deviceId := "carol-laptop";
     KeyService.kd_publicKey := KeyService.JsString key32;
     KeyService.kd_signedPreKey :=
       Some {| KeyService.spkd_keyId := 1;
               KeyService.spkd_publicKey := "not base64!";
               KeyService.spkd_signature := "***" |};
     KeyService.kd_identityPublicKey := Some "<identity>";
     KeyService.kd_preKeys :=
       Some [{| KeyService.pkd_keyId := 7;
                KeyService.pkd_publicKey := "#one-time#" |}];
     KeyService.kd_deviceName := None;
     KeyService.kd_deviceType := None |}.

(** A registration whose [publicKey] is not canonical Base64. *)
Definition malformed_publicKey : KeyService.KeyData :=
  {| KeyService.kd_deviceId := "carol-laptop";
     KeyService.kd_publicKey := KeyService.JsString "AAA";
     KeyService.kd_signedPreKey :=
       Some {| KeyService.spkd_keyId := 1;
               KeyService.spkd_publicKey := key32;
               KeyService.spkd_signature := key32 |};
     KeyService.kd_identityPublicKey := Some key32;
     KeyService.kd_preKeys := Some [prekey 7];
     KeyService.kd_deviceName := None;
     KeyService.kd_deviceType := None |}.

(** The pool of bob's phone holding a single available prekey. *)
Definition last_prekey : PreKey :=
  {| pk_id := 0; pk_userId := bob; pk_deviceId := "bob-phone"; keyId := 7;
     pk_publicKey := key32; isUsed := false; usedAt := None; usedBy := None;
     pk_expiresAt := 2592000000; pk_createdAt := 0 |}.

Definition two_callers : list KeyService.Call :=
  [{| KeyService.requestingUserId := alice;
      KeyService.task := KeyService.Pending bob_phone |};
   {| KeyService.requestingUserId := carol;
      KeyService.task := KeyService.Pending bob_phone |}].

(** ** Sample data: presence and sockets *)

Definition presence0 : PresenceService.State :=
  {| PresenceService.redis := ∅;
     PresenceService.users := [user alice; user bob; user carol];
     PresenceService.published := [] |}.

(** alice is connected from a phone and from a laptop. *)
Definition alice_twice : PresenceService.State :=
  PresenceService.setOnline alice "alice-laptop" 0
    (PresenceService.setOnline alice "alice-phone" 0 presence0).

Definition server0 : WebSocketServer.Server :=
  {| WebSocketServer.clients := ∅;
     WebSocketServer.wss_clients := ∅;
     WebSocketServer.presence := presence0 |}.

(** Socket 1 connects for alice's phone, then socket 2 for the same
    phone. *)
Definition reconnected : WebSocketServer.Server :=
  WebSocketServer.connection 2 alice "alice-phone" 200
    (WebSocketServer.connection 1 alice "alice-phone" 100 server0).

(** ** The remaining operations of the key service
       (services/keyService.js) *)

Module KeyMaintenance.

Import KeyService.

Record NewKeyData := {
  nk_publicKey : option string;
  nk_signedPreKey : option SignedPreKeyData;
  nk_preKeys : option (list PreKeyData)
}.

(** The filter [{ userId, deviceId, isRevoked: false }]. *)
Definition live_device (userId : ObjectId) (deviceId : string) (d : Device)
    : bool :=
  is_device userId deviceId d && negb (isRevoked d).

(** The filter [{ userId, deviceId, isUsed: false }] of [deleteMany]. *)
Definition unused_of (userId : ObjectId) (deviceId : string) (k : PreKey)
    : bool :=
  String.eqb (pk_userId k) userId && String.eqb (pk_deviceId k) deviceId
  && negb (isUsed k).

(** [KeyService.rotateDeviceKeys]. *)
Definition rotateDeviceKeys (env : option Z) (userId : ObjectId)
    (deviceId : string) (newKeyData : NewKeyData) (now : Time) (db : Db)
    : Db * result string :=
  match List.find (live_device userId deviceId) (devices db) with
  | None => (db, Throw (Error "Device not found or revoked"))
  | Some device =>
      let device1 :=
        {| dev_userId := dev_userId device;
           dev_deviceId := dev_deviceId device;
           deviceName := deviceName device;
           deviceType := deviceType device;
           dev_publicKey :=
             if truthy (nk_publicKey newKeyData)
             then default EmptyString (nk_publicKey newKeyData)
             else dev_publicKey device;
           dev_signedPreKey :=
             match nk_signedPreKey newKeyData with
             | Some spk =>
                 {| spk_keyId := spkd_keyId spk;
                    spk_publicKey := spkd_publicKey spk;
                    spk_signature := spkd_signature spk;
                    spk_timestamp := now |}
             | None => dev_signedPreKey device
             end;
           dev_isActive := dev_isActive device;
           isRevoked := isRevoked device |} in
      let db1 :=
        set_devices db
          (update_first (live_device userId deviceId) (fun _ => device1)
             (devices db)) in
      let db2 :=
        match nk_preKeys newKeyData with
        | Some (pk :: pks) =>
            fst (registerPreKeys env userId deviceId (pk :: pks) now
                   (set_preKeys db1
                      (List.filter
                         (fun k => negb (unused_of userId deviceId k))
                         (preKeys db1))
                      (nextId db1)))
        | _ => db1
        end in
      (db2, Ok "Keys rotated successfully")
  end.

Record Stats := {
  total : nat;
  available : nat;
  used : nat;
  expired : nat
}.

Definition of_device (userId : ObjectId) (deviceId : string) (k : PreKey)
    : bool :=
  String.eqb (pk_userId k) userId && String.eqb (pk_deviceId k) deviceId.

Definition count (p : PreKey -> bool) (l : list PreKey) : nat :=
  length (List.filter p l).

(** [KeyService.getPreKeyStats]; the four [countDocuments] queries read
    the clock at the same [now]. *)
Definition getPreKeyStats (userId : ObjectId) (deviceId : string) (now : Time)
    (db : Db) : Stats :=
  {| total := count (of_device userId deviceId) (preKeys db);
     available :=
       count (fun k => of_device userId deviceId k && negb (isUsed k)
                       && (now <? pk_expiresAt k)%Z) (preKeys db);
     used := count (fun k => of_device userId deviceId k && isUsed k)
               (preKeys db);
     expired :=
       count (fun k => of_device userId deviceId k
                       && (pk_expiresAt k <=? now)%Z) (preKeys db) |}.

(** The filter of [cleanupExpiredPreKeys]:
    [{ userId, deviceId, $or: [{ expiresAt: { $lte: now } }, { isUsed: true }] }]. *)
Definition dead (userId : ObjectId) (deviceId : string) (now : Time)
    (k : PreKey) : bool :=
  of_device userId deviceId k
  && ((pk_expiresAt k <=? now)%Z || isUsed k).

(** [KeyService.cleanupExpiredPreKeys]; returns [deletedCount]. *)
Definition cleanupExpiredPreKeys (userId : ObjectId) (deviceId : string)
    (now : Time) (db : Db) : Db * result nat :=
  (set_preKeys db
     (List.filter (fun k => negb (dead userId deviceId now k)) (preKeys db))
     (nextId db),
   Ok (count (dead userId deviceId now) (preKeys db))).

End KeyMaintenance.

(** The key of the unique index on prekeys. *)
Definition index_key (k : PreKey) : ObjectId * string * Z :=
  (pk_userId k, pk_deviceId k, keyId k).

(** A prekey of the device with this [keyId] is stored as used. *)
Definition consumed (userId : ObjectId) (deviceId : string) (kid : Z)
    (coll : list PreKey) : Prop :=
  exists k, In k coll /\ isUsed k = true /\ pk_userId k = userId
            /\ pk_deviceId k = deviceId /\ keyId k = kid.

(** ** Device sign-out and revocation (services/authService.js,
       models/Device.js)

    The [Device] record of this development carries the key material
    and the two status flags; [refreshTokenHash], [revokedAt] and
    [lastSeen], which these operations also write, are not part of it. *)

Module AuthService.

Import KeyService.

Definition set_flags (d : Device) (active revoked : bool) : Device :=
  {| dev_userId := dev_userId d; dev_deviceId := dev_deviceId d;
     deviceName := deviceName d; deviceType := deviceType d;
     dev_publicKey := dev_publicKey d;
     dev_signedPreKey := dev_signedPreKey d;
     dev_isActive := active; isRevoked := revoked |}.

(** [deviceSchema.methods.revoke], up to the final [save()]. *)
Definition revoke (d : Device) : Device := set_flags d false true.

(** [AuthService.revokeDevice]. *)
Definition revokeDevice (userId : ObjectId) (deviceId : string) (db : Db)
    : Db * result string :=
  match List.find (is_device userId deviceId) (devices db) with
  | None => (db, Throw (Error "Device not found"))
  | Some device =>
      (set_devices db
         (update_first (is_device userId deviceId) (fun _ => revoke device)
            (devices db)),
       Ok "Device revoked successfully")
  end.

(** [AuthService.logout]. *)
Definition logout (userId : ObjectId) (deviceId : string) (now : Time)
    (db : Db) : Db :=
  let devs :=
    match List.find (is_device userId deviceId) (devices db) with
    | None => devices db
    | Some device =>
        update_first (is_device userId deviceId)
          (fun _ => set_flags device false (isRevoked device)) (devices db)
    end in
  let activeDevices := length (List.filter (activeDevice userId) devs) in
  set_users (set_devices db devs)
    (if Nat.eqb activeDevices 0
     then PresenceService.User_findByIdAndUpdate userId false now (users db)
     else users db).

End AuthService.

(** ** Sequences of key-service calls *)

Inductive KeyOp :=
| RegisterDeviceKeys (env : option Z) (userId : ObjectId)
    (keyData : KeyService.KeyData)
| RegisterPreKeys (env : option Z) (userId : ObjectId) (deviceId : string)
    (preKeys : list KeyService.PreKeyData)
| GetUserKeys (targetUserId requestingUserId : ObjectId)
| RotateDeviceKeys (env : option Z) (userId : ObjectId) (deviceId : string)
    (newKeyData : KeyMaintenance.NewKeyData)
| CleanupExpiredPreKeys (userId : ObjectId) (deviceId : string)
| RevokeDevice (userId : ObjectId) (deviceId : string)
| Logout (userId : ObjectId) (deviceId : string).

(** The store a call leaves behind, whether it returned or threw. *)
Definition applyKeyOp (now : Time) (op : KeyOp) (db : KeyService.Db)
    : KeyService.Db :=
  match op with
  | RegisterDeviceKeys env u kd =>
      fst (KeyService.registerDeviceKeys env u kd now db)
  | RegisterPreKeys env u d pks =>
      fst (KeyService.registerPreKeys env u d pks now db)
  | GetUserKeys t r => fst (KeyService.getUserKeys t r now db)
  | RotateDeviceKeys env u d nk =>
      fst (KeyMaintenance.rotateDeviceKeys env u d nk now db)
  | CleanupExpiredPreKeys u d =>
      fst (KeyMaintenance.cleanupExpiredPreKeys u d now db)
  | RevokeDevice u d => fst (AuthService.revokeDevice u d db)
  | Logout u d => AuthService.logout u d now db
  end.

Definition runKeyOps (ops : list (Time * KeyOp)) (db : KeyService.Db)
    : KeyService.Db :=
  fold_left (fun d op => applyKeyOp (fst op) (snd op) d) ops db.

(** The unique indexes of the key store: [deviceId] on devices,
    [(userId, deviceId, keyId)] and [_id] on prekeys, every [_id] below
    the next fresh one. *)
Definition indexes_hold (db : KeyService.Db) : Prop :=
  List.NoDup (List.map dev_deviceId (KeyService.devices db))
  /\ List.NoDup (List.map index_key (KeyService.preKeys db))
  /\ List.NoDup (List.map pk_id (KeyService.preKeys db))
  /\ Forall (fun k => (pk_id k < KeyService.nextId db)%nat)
       (KeyService.preKeys db).

(** The device [(userId, deviceId)] is stored as revoked. *)
Definition revoked (userId : ObjectId) (deviceId : string)
    (db : KeyService.Db) : Prop :=
  exists dv, In dv (KeyService.devices db)
             /\ KeyService.is_device userId deviceId dv = true
             /\ isRevoked dv = true.

(** How a call may change a collection: it leaves it alone, appends a
    document, or rewrites one document in place with [F]. *)
Definition rewritten {A} (ok : (A -> A) -> Prop) (l l' : list A) : Prop :=
  l' = l \/ (exists x, l' = (l ++ [x])%list)
  \/ exists p F, ok F /\ l' = update_first p F l.

(** A rewrite of a device that keeps its ids and does not lift a
    revocation. *)
Definition keeps_revocation (F : Device -> Device) : Prop :=
  forall x, dev_userId (F x) = dev_userId x
            /\ dev_deviceId (F x) = dev_deviceId x
            /\ (isRevoked x = true -> isRevoked (F x) = true).

(** A rewrite of a user that keeps the id and an identity key that is
    set. *)
Definition keeps_identity (F : User -> User) : Prop :=
  forall x, user_id (F x) = user_id x
            /\ (truthy (identityPublicKey x) = true ->
                identityPublicKey (F x) = identityPublicKey x).

(** bob registers the keys of bob-phone once more, offering two
    prekeys and an identity key. *)
Definition reregister_bob : KeyService.KeyData :=
  {| KeyService.kd_deviceId := "bob-phone";
     KeyService.kd_publicKey := KeyService.JsString key32;
     KeyService.kd_signedPreKey :=
       Some {| KeyService.spkd_keyId := 2;
               KeyService.spkd_publicKey := key32;
               KeyService.spkd_signature := key32 |};
     KeyService.kd_identityPublicKey := Some "aWRlbnRpdHk=";
     KeyService.kd_preKeys := Some [prekey 31; prekey 32];
     KeyService.kd_deviceName := None;
     KeyService.kd_deviceType := None |}.

(** What is tried on bob-phone after its revocation. *)
Definition after_revocation : list (Time * KeyOp) :=
  [(2000, RegisterDeviceKeys None bob reregister_bob);
   (2100, Logout bob "bob-phone");
   (2200, RegisterPreKeys None bob "bob-phone" ten_prekeys);
   (2300, RegisterDeviceKeys None bob reregister_bob)]%Z.

(** A stored prekey of bob-phone with the given [keyId]. *)
Definition last_prekey_like (n : Z) : PreKey :=
  {| pk_id := 0; pk_userId := bob; pk_deviceId := "bob-phone"; keyId := n;
     pk_publicKey := key32; isUsed := false; usedAt := None; usedBy := None;
     pk_expiresAt := 2592000000; pk_createdAt := 0 |}.

(** ** The remaining operations of the message service
       (services/messageService.js, models/Message.js) *)

Module MessageQueries.

Import MessageService.

(** [messageSchema.methods.softDelete], up to the final [save()]; the
    ciphertext is kept. *)
Definition softDelete (m : Message) (now : Time) : Message :=
  {| messageId := messageId m; senderId := senderId m;
     senderDeviceId := senderDeviceId m; recipientId := recipientId m;
     roomId := roomId m; messageType := messageType m;
     encryptedContent := encryptedContent m;
     encryptionMetadata := encryptionMetadata m;
     deliveryStatus := deliveryStatus m; deliveredAt := deliveredAt m;
     readAt := readAt m; recipientStatuses := recipientStatuses m;
     isDeleted := true; deletedAt := Some now;
     expiresAt := expiresAt m; createdAt := createdAt m |}.

(** [MessageService.deleteMessage]. *)
Definition deleteMessage (mid : string) (userId : ObjectId) (now : Time)
    (db : Db) : Db * result Message :=
  match findOne mid (messages db) with
  | None => (db, Throw (Error "Message not found"))
  | Some message =>
      if negb (String.eqb (senderId message) userId)
      then (db, Throw (Error "Not authorized to delete this message"))
      else
        let message' := softDelete message now in
        (set_messages db (save message' (messages db)), Ok message')
  end.

(** [.sort({ createdAt: ... })]: insertion into a sorted list, before
    the first element that may follow; among equal timestamps the
    store's natural order is kept. *)
Fixpoint insert_by (before : Message -> Message -> bool) (m : Message)
    (l : list Message) : list Message :=
  match l with
  | [] => [m]
  | x :: r => if before m x then m :: l else x :: insert_by before m r
  end.

Definition sort_by (before : Message -> Message -> bool) (l : list Message)
    : list Message :=
  fold_right (insert_by before) [] l.

Definition ascending (m x : Message) : bool := (createdAt m <=? createdAt x)%Z.
Definition descending (m x : Message) : bool := (createdAt x <=? createdAt m)%Z.

(** The [$or] of [getOfflineMessages]: a direct message to the user, or
    a group message with a per-recipient entry of the user. *)
Definition addressed_to (userId : ObjectId) (m : Message) : bool :=
  match messageType m with
  | direct => strict_eq (recipientId m) (Some userId)
  | group =>
      existsb (fun rs => String.eqb (rs_recipientId rs) userId)
        (recipientStatuses m)
  end.

Definition offline_query (userId : ObjectId) (since : Time) (m : Message)
    : bool :=
  negb (isDeleted m) && (since <? createdAt m)%Z && addressed_to userId m.

(** [MessageService.getOfflineMessages]; [deviceId] is only logged. *)
Definition getOfflineMessages (userId : ObjectId) (deviceId : option string)
    (lastSyncTime : Time) (db : Db) : list Message :=
  firstn 1000
    (sort_by ascending
       (List.filter (offline_query userId lastSyncTime) (messages db))).

(** The [createdAt] condition of the conversation queries: [after]
    overwrites [before] when both are given. *)
Definition in_range (before after : option Time) (m : Message) : bool :=
  match after, before with
  | Some a, _ => (a <? createdAt m)%Z
  | None, Some b => (createdAt m <? b)%Z
  | None, None => true
  end.

Definition direct_query (userId otherUserId : ObjectId)
    (before after : option Time) (m : Message) : bool :=
  match messageType m with direct => true | group => false end
  && negb (isDeleted m)
  && ((String.eqb (senderId m) userId
       && strict_eq (recipientId m) (Some otherUserId))
      || (String.eqb (senderId m) otherUserId
          && strict_eq (recipientId m) (Some userId)))
  && in_range before after m.

(** [MessageService.getDirectMessages]: the newest [limit] messages of
    the conversation, returned oldest first. *)
Definition getDirectMessages (userId otherUserId : ObjectId) (limit : nat)
    (before after : option Time) (db : Db) : list Message :=
  rev (firstn limit
         (sort_by descending
            (List.filter (direct_query userId otherUserId before after)
               (messages db)))).

Definition room_query (rid : ObjectId) (before after : option Time)
    (m : Message) : bool :=
  strict_eq (roomId m) (Some rid)
  && match messageType m with group => true | direct => false end
  && negb (isDeleted m)
  && in_range before after m.

(** [MessageService.getRoomMessages]. *)
Definition getRoomMessages (userId rid : ObjectId) (limit : nat)
    (before after : option Time) (db : Db) : result (list Message) :=
  match Room_findById rid (rooms db) with
  | None => Throw (Error "Not authorized to view room messages")
  | Some room =>
      if negb (RoomModel.isParticipant room userId)
      then Throw (Error "Not authorized to view room messages")
      else
        Ok (rev (firstn limit
                   (sort_by descending
                      (List.filter (room_query rid before after)
                         (messages db)))))
  end.

(** The [status] argument of [bulkUpdateStatus]. *)
Inductive BulkStatus := BSdelivered | BSread | BSother.

(** [MessageService.bulkUpdateStatus]: the documents found are marked
    and saved one by one; the count returned is that of the ids asked
    for. *)
Definition bulkUpdateStatus (messageIds : list string) (recipientId : ObjectId)
    (deviceId : option string) (status : BulkStatus) (now : Time) (db : Db)
    : Db * result nat :=
  let found :=
    List.filter (fun m => existsb (String.eqb (messageId m)) messageIds)
      (messages db) in
  (set_messages db
     (fold_left
        (fun coll m =>
           match status with
           | BSdelivered =>
               save (MessageModel.markDelivered m recipientId deviceId now) coll
           | BSread =>
               save (MessageModel.markRead m recipientId deviceId now) coll
           | BSother => coll
           end)
        found (messages db)),
   Ok (length messageIds)).

(** What [bulkUpdateStatus] does to one document it found. *)
Definition marked (status : BulkStatus) (recipientId : ObjectId)
    (deviceId : option string) (now : Time) (m : Message) : Message :=
  match status with
  | BSdelivered => MessageModel.markDelivered m recipientId deviceId now
  | BSread => MessageModel.markRead m recipientId deviceId now
  | BSother => m
  end.

End MessageQueries.

(** ** Presence reads and heartbeats (services/presenceService.js) *)

Module PresenceReads.
Import PresenceService.

(** The answer of [getPresence]: [{ status: 'online', devices }] or
    [{ status: 'offline', lastSeen }]. *)
Inductive Presence :=
| PresenceOnline (devices : nat)
| PresenceOffline (seen : option Time).

(** [PresenceService.getPresence]; [user?.lastSeen] is undefined when
    there is no such user. *)
Definition getPresence (userId : ObjectId) (now : Time) (st : State)
    : Presence :=
  match keys ("presence:" ++ userId ++ ":") now (redis st) with
  | [] =>
      PresenceOffline
        (match List.find (fun u => String.eqb (user_id u) userId) (users st)
         with
         | Some u => lastSeen u
         | None => None
         end)
  | k :: ks => PresenceOnline (length (k :: ks))
  end.

(** [PresenceService.heartbeat]: a live marker has its time to live
    renewed; otherwise the user is set online again.  The flag is the
    [reconnected] field of the answer. *)
Definition heartbeat (userId : ObjectId) (deviceId : string) (now : Time)
    (st : State) : State * bool :=
  match redis st !! presenceKey userId deviceId with
  | Some (v, e) =>
      if (now <? e)%Z
      then ({| redis :=
                 <[presenceKey userId deviceId :=
                     (v, (now + PRESENCE_TIMEOUT * 1000)%Z)]> (redis st);
               users := users st; published := published st |}, false)
      else (setOnline userId deviceId now st, true)
  | None => (setOnline userId deviceId now st, true)
  end.

End PresenceReads.

(** ** Pushes to connected sockets (websocket/wsServer.js)

    A push is observed as the sockets that [ws.send] is called on.
    [clients.forEach] visits the registry in insertion order, which the
    finite map does not keep: the lists below hold the right sockets,
    in the order of the map's enumeration. *)

Module WebSocketPush.
Import WebSocketServer.

(** [ws.readyState === WebSocket.OPEN]: the open sockets are the ones
    the [ws] library tracks. *)
Definition open (s : Server) (ws : nat) : bool :=
  match wss_clients s !! ws with
  | Some _ => true
  | None => false
  end.

(** [sendToUser]. *)
Definition sendToUser (userId : ObjectId) (s : Server) : list nat :=
  List.map snd
    (List.filter
       (fun kv => String.prefix (userId ++ ":") (fst kv) && open s (snd kv))
       (map_to_list (clients s))).

(** [sendToDevice]. *)
Definition sendToDevice (userId : ObjectId) (deviceId : string) (s : Server)
    : option nat :=
  match clients s !! clientKey userId deviceId with
  | Some ws => if open s ws then Some ws else None
  | None => None
  end.

(** [broadcast]. *)
Definition broadcast (excludeUserId : option ObjectId) (s : Server)
    : list nat :=
  List.map snd
    (List.filter
       (fun kv =>
          negb (match excludeUserId with
                | Some u =>
                    negb (String.eqb u EmptyString)
                    && String.prefix (u ++ ":") (fst kv)
                | None => false
                end)
          && open s (snd kv))
       (map_to_list (clients s))).


End WebSocketPush.

(** ** Rosters along a history of the message store *)





(** ** Login attempts and the account lock (models/User.js,
       services/authService.js) *)

Module LoginGuard.

(** The security fields of a [User] document. *)
Record Security := {
  loginAttempts : Z;
  lockUntil : option Time;
  lastLogin : option Time
}.

(** [parseInt(process.env.MAX_LOGIN_ATTEMPTS) || 5] and
    [parseInt(process.env.LOCKOUT_TIME) || 900000], the environment
    left unset. *)
Definition MAX_ATTEMPTS : Z := 5.
Definition LOCK_TIME : Z := 900000.

(** The [isLocked] virtual. *)
Definition isLocked (u : Security) (now : Time) : bool :=
  match lockUntil u with
  | Some l => (now <? l)%Z
  | None => false
  end.

(** [userSchema.methods.incLoginAttempts]. *)
Definition incLoginAttempts (u : Security) (now : Time) : Security :=
  let expired :=
    match lockUntil u with
    | Some l => (l <? now)%Z
    | None => false
    end in
  if expired
  then {| loginAttempts := 1; lockUntil := None; lastLogin := lastLogin u |}
  else
    {| loginAttempts := loginAttempts u + 1;
       lockUntil :=
         if (MAX_ATTEMPTS <=? loginAttempts u + 1)%Z && negb (isLocked u now)
         then Some (now + LOCK_TIME)%Z
         else lockUntil u;
       lastLogin := lastLogin u |}.

(** [userSchema.methods.resetLoginAttempts]. *)
Definition resetLoginAttempts (u : Security) (now : Time) : Security :=
  {| loginAttempts := 0; lockUntil := None; lastLogin := Some now |}.

(** The head of [AuthService.login] for a user found by e-mail, up to
    [resetLoginAttempts]; [passwordOk] is the answer of
    [comparePassword].  [Ok] means that the login goes on to the device
    lookup. *)
Definition login (passwordOk : bool) (now : Time) (u : Security)
    : Security * result unit :=
  if isLocked u now
  then (u, Throw (Error "Account is locked. Please try again later."))
  else if negb passwordOk
  then (incLoginAttempts u now, Throw (Error "Invalid credentials"))
  else (resetLoginAttempts u now, Ok tt).

(** Logins with a wrong password at the given times. *)
Definition failures (times : list Time) (u : Security) : Security :=
  fold_left (fun u t => fst (login false t u)) times u.

End LoginGuard.

(** * Properties *)

(** ** Lists and lookups *)

Lemma find_update_first {A} (p : A -> bool) (f : A -> A) (l : list A) :
  (forall x, p x = true -> p (f x) = true) ->
  List.find p (update_first p f l) = option_map f (List.find p l).
Proof.
  intros Hp. induction l as [|x r IH]; simpl; [reflexivity|].
  destruct (p x) eqn:Hx; simpl.
  - now rewrite (Hp x Hx).
  - now rewrite Hx.
Qed.

Lemma update_first_none {A} (p : A -> bool) (f : A -> A) (l : list A) :
  (forall x, In x l -> p x = false) -> update_first p f l = l.
Proof.
  induction l as [|x r IH]; simpl; intros H; [reflexivity|].
  rewrite (H x) by now left.
  f_equal. apply IH. intros y Hy. apply H. now right.
Qed.



(** ** Delivery status *)

Section Delivery.

Import MessageService.

Lemma findOne_messageId mid l m :
  findOne mid l = Some m -> messageId m = mid.
Proof.
  unfold findOne. intros H. apply find_some in H as [_ H].
  now apply String.eqb_eq.
Qed.

(** Saving a changed copy of the document found makes it the one found
    next time. *)
Lemma findOne_save mid l m m' :
  findOne mid l = Some m -> messageId m' = mid ->
  findOne mid (save m' l) = Some m'.
Proof.
  unfold findOne, save. intros Hf Hid. subst mid.
  rewrite find_update_first.
  - now rewrite Hf.
  - intros x _. apply String.eqb_refl.
Qed.

Lemma markDelivered_messageId m r d t :
  messageId (MessageModel.markDelivered m r d t) = messageId m.
Proof. unfold MessageModel.markDelivered. now destruct (messageType m). Qed.

Lemma markRead_messageId m r d t :
  messageId (MessageModel.markRead m r d t) = messageId m.
Proof. unfold MessageModel.markRead. now destruct (messageType m). Qed.

Lemma persisted_after_markDelivered db mid m r d t :
  findOne mid (messages db) = Some m ->
  markDelivered mid r d t db
  = (set_messages db (save (MessageModel.markDelivered m r d t) (messages db)),
     Ok (MessageModel.markDelivered m r d t))
  /\ findOne mid (messages (fst (markDelivered mid r d t db)))
     = Some (MessageModel.markDelivered m r d t).
Proof.
  intros Hf. unfold markDelivered. rewrite Hf. split; [reflexivity|].
  simpl. eapply findOne_save; [eassumption|].
  rewrite markDelivered_messageId. eauto using findOne_messageId.
Qed.

Lemma persisted_after_markRead db mid m r d t :
  findOne mid (messages db) = Some m ->
  markRead mid r d t db
  = (set_messages db (save (MessageModel.markRead m r d t) (messages db)),
     Ok (MessageModel.markRead m r d t))
  /\ findOne mid (messages (fst (markRead mid r d t db)))
     = Some (MessageModel.markRead m r d t).
Proof.
  intros Hf. unfold markRead. rewrite Hf. split; [reflexivity|].
  simpl. eapply findOne_save; [eassumption|].
  rewrite markRead_messageId. eauto using findOne_messageId.
Qed.

Lemma statusFor_markDelivered m r d t :
  statusFor (MessageModel.markDelivered m r d t) r d
  = option_map (fun _ => delivered) (statusFor m r d).
Proof.
  unfold statusFor, MessageModel.markDelivered.
  destruct (messageType m) eqn:Ht; simpl; rewrite Ht; [reflexivity|].
  rewrite find_update_first by (intros x Hx; exact Hx).
  now destruct (List.find _ _).
Qed.

Lemma statusFor_markRead m r d t :
  statusFor (MessageModel.markRead m r d t) r d
  = option_map (fun _ => read) (statusFor m r d).
Proof.
  unfold statusFor, MessageModel.markRead.
  destruct (messageType m) eqn:Ht; simpl; rewrite Ht; [reflexivity|].
  rewrite find_update_first by (intros x Hx; exact Hx).
  now destruct (List.find _ _).
Qed.

Lemma persistedStatus_markDelivered db mid r d t :
  persistedStatus (fst (markDelivered mid r d t db)) mid r d
  = option_map (fun _ => delivered) (persistedStatus db mid r d).
Proof.
  unfold persistedStatus.
  destruct (findOne mid (messages db)) as [m|] eqn:Hf.
  - destruct (persisted_after_markDelivered db mid m r d t Hf) as [_ ->].
    apply statusFor_markDelivered.
  - unfold markDelivered. rewrite Hf. simpl. now rewrite Hf.
Qed.

Lemma persistedStatus_markRead db mid r d t :
  persistedStatus (fst (markRead mid r d t db)) mid r d
  = option_map (fun _ => read) (persistedStatus db mid r d).
Proof.
  unfold persistedStatus.
  destruct (findOne mid (messages db)) as [m|] eqn:Hf.
  - destruct (persisted_after_markRead db mid m r d t Hf) as [_ ->].
    apply statusFor_markRead.
  - unfold markRead. rewrite Hf. simpl. now rewrite Hf.
Qed.

End Delivery.

(** ** Claims on the delivery status *)

Section DeliveryClaims.

Import MessageService.

(** C2, as stated, fails: after [markRead], a [markDelivered] for the
    same direct message writes [delivered] over [read]. *)
Lemma delivered_after_read_regresses :
  persistedStatus
    (fst (markDelivered "m1" bob (Some "bob-phone") 30
            (fst (markRead "m1" bob (Some "bob-phone") 20 db1))))
    "m1" bob (Some "bob-phone")
  <> Some read.
Proof. vm_compute. discriminate. Qed.

(** C2 (amended): for a persisted message whose status the call
    addresses, [markRead] after [markDelivered] yields [read], repeating
    [markDelivered] or [markRead] leaves the status as the first call
    left it, and [markDelivered] after [markRead] yields [delivered]:
    the status is that of the last acknowledgement. *)
Theorem status_is_last_acknowledgement db mid r d t1 t2 s :
  persistedStatus db mid r d = Some s ->
  persistedStatus
    (fst (markRead mid r d t2 (fst (markDelivered mid r d t1 db)))) mid r d
  = Some read
  /\ persistedStatus
       (fst (markDelivered mid r d t2 (fst (markDelivered mid r d t1 db)))) mid r d
     = persistedStatus (fst (markDelivered mid r d t1 db)) mid r d
  /\ persistedStatus
       (fst (markRead mid r d t2 (fst (markRead mid r d t1 db)))) mid r d
     = persistedStatus (fst (markRead mid r d t1 db)) mid r d
  /\ persistedStatus
       (fst (markDelivered mid r d t2 (fst (markRead mid r d t1 db)))) mid r d
     = Some delivered.
Proof.
  intros Hs.
  rewrite !persistedStatus_markDelivered, !persistedStatus_markRead,
    !persistedStatus_markDelivered, Hs.
  repeat split.
Qed.

Lemma status_is_last_acknowledgement_witness :
  persistedStatus db1 "m1" bob (Some "bob-phone") = Some sent
  /\ persistedStatus
       (fst (markDelivered "m1" bob (Some "bob-phone") 30
               (fst (markRead "m1" bob (Some "bob-phone") 20 db1))))
       "m1" bob (Some "bob-phone")
     = Some delivered.
Proof.
  split; [reflexivity|].
  apply (status_is_last_acknowledgement db1 "m1" bob (Some "bob-phone")
           20 30 sent).
  reflexivity.
Defined.

(** C10: on a persisted direct message, [markDelivered] and [markRead]
    succeed and store [delivered], respectively [read], whatever
    [recipientId] and [deviceId] the caller passes; neither is compared
    with the recipient the message is addressed to. *)
Theorem direct_status_set_by_any_caller db mid m r d t :
  findOne mid (messages db) = Some m ->
  messageType m = direct ->
  (exists m', snd (markDelivered mid r d t db) = Ok m'
              /\ findOne mid (messages (fst (markDelivered mid r d t db))) = Some m'
              /\ deliveryStatus m' = delivered)
  /\ (exists m', snd (markRead mid r d t db) = Ok m'
                 /\ findOne mid (messages (fst (markRead mid r d t db))) = Some m'
                 /\ deliveryStatus m' = read).
Proof.
  intros Hf Ht.
  destruct (persisted_after_markDelivered db mid m r d t Hf) as [Hd Hd'].
  destruct (persisted_after_markRead db mid m r d t Hf) as [Hr Hr'].
  split.
  - exists (MessageModel.markDelivered m r d t).
    rewrite Hd' , Hd. repeat split.
    unfold MessageModel.markDelivered. now rewrite Ht.
  - exists (MessageModel.markRead m r d t).
    rewrite Hr', Hr. repeat split.
    unfold MessageModel.markRead. now rewrite Ht.
Qed.

(** carol acknowledges a message that alice sent to bob. *)
Lemma direct_status_set_by_any_caller_witness :
  recipientId m1 = Some bob /\ carol <> bob
  /\ exists m', snd (markRead "m1" carol (Some "carol-laptop") 40 db1) = Ok m'
                /\ findOne "m1"
                     (messages (fst (markRead "m1" carol (Some "carol-laptop") 40 db1)))
                   = Some m'
                /\ deliveryStatus m' = read.
Proof.
  split; [reflexivity|]. split; [discriminate|].
  apply (direct_status_set_by_any_caller db1 "m1" m1 carol
           (Some "carol-laptop") 40); reflexivity.
Defined.

End DeliveryClaims.

(** ** Claims on sending *)

Section SendClaims.

Import MessageService.

(** C4, as stated, fails: the addressing check runs before the lookup
    by [messageId], so a retry of a stored message that fails the
    check is rejected instead of being answered with the stored
    record. *)
Lemma retry_without_recipient_rejected :
  findOne "m1" (messages db1) = Some m1
  /\ snd (sendMessage alice "alice-phone" retry_m1 50 db1) <> Ok m1.
Proof. split; [reflexivity|]. vm_compute. discriminate. Qed.

(** C4 (amended): when an envelope with the payload's [messageId] is
    stored, a [sendMessage] whose payload passes the addressing check
    returns that envelope and leaves the store as it was, whatever
    else the payload holds; a payload that fails the check is rejected
    with an error, the store again left as it was. *)
Theorem sendMessage_idempotent_on_messageId db sender dev md now m :
  findOne (md_messageId md) (messages db) = Some m ->
  (addressed md = true -> sendMessage sender dev md now db = (db, Ok m))
  /\ (addressed md = false ->
      exists e, sendMessage sender dev md now db = (db, Throw e)).
Proof.
  intros Hf. unfold addressed, sendMessage.
  destruct (md_messageType md); split; intros Ha;
    try discriminate; rewrite ?Ha, ?Hf; eauto;
    destruct (truthy (md_recipientId md)), (truthy (md_roomId md));
    try discriminate; rewrite ?Hf; eauto.
Qed.

Lemma sendMessage_idempotent_on_messageId_witness :
  encryptedContent m1 <> md_encryptedContent resend_m1
  /\ sendMessage alice "alice-laptop" resend_m1 50 db1 = (db1, Ok m1).
Proof.
  split; [discriminate|].
  apply (sendMessage_idempotent_on_messageId db1 alice "alice-laptop"
           resend_m1 50 m1); reflexivity.
Defined.




Lemma initialStatuses_sent room sender :
  Forall (fun rs => rs_status rs = sent /\ rs_deviceId rs = None)
    (initialStatuses room sender).
Proof.
  unfold initialStatuses. apply List.Forall_forall. intros rs Hin.
  apply List.in_map_iff in Hin as (p & <- & _). now split.
Qed.



(** What [sendMessage] writes as per-recipient entries carries no
    [deviceId], so an acknowledgement that names a device selects no
    entry. *)
Lemma initialStatuses_never_match room sender r dev f :
  update_first (MessageModel.rs_matches r (Some dev)) f
    (initialStatuses room sender)
  = initialStatuses room sender.
Proof.
  apply update_first_none. intros rs Hin.
  pose proof (initialStatuses_sent room sender) as Hall.
  rewrite List.Forall_forall in Hall. destruct (Hall rs Hin) as [_ Hd].
  unfold MessageModel.rs_matches. rewrite Hd. simpl.
  apply andb_false_r.
Qed.

(** C3, evaluated: alice sends a group message to the room of alice,
    bob and carol; the envelope has the entries of bob and carol, both
    [sent].  bob's [markRead] from bob's phone succeeds and the entries
    are still both [sent]: bob's entry has not become [read]. *)
Theorem group_read_receipt_not_recorded :
  let db2 := fst (sendMessage alice "alice-phone" send_g1 100 db1) in
  let ack := markRead "g1" bob (Some "bob-phone") 200 db2 in
  option_map statuses (findOne "g1" (messages db2))
  = Some [(bob, sent); (carol, sent)]
  /\ option_map statuses
       (match snd ack with Ok m => Some m | Throw _ => None end)
     = Some [(bob, sent); (carol, sent)]
  /\ option_map statuses (findOne "g1" (messages (fst ack)))
     = Some [(bob, sent); (carol, sent)].
Proof. vm_compute. repeat split. Qed.

End SendClaims.

(** ** Claims on key registration *)

Section RegistrationClaims.

Import KeyService.




(** What the check accepts is written in the Base64 alphabet. *)
Lemma get_In (s : string) : forall i c,
  String.get i s = Some c -> In c (list_ascii_of_string s).
Proof.
  induction s as [|a s IH]; intros i c; [destruct i; discriminate|].
  destruct i as [|i]; simpl; intros H.
  - left. congruence.
  - right. eapply IH, H.
Qed.

Lemma digit_base64_char n : base64_char (Base64.digit n) = true.
Proof.
  unfold base64_char, Base64.digit.
  destruct (String.get (N.to_nat n) Base64.alphabet) as [c|] eqn:Hc.
  - apply orb_true_iff. left. apply List.existsb_exists.
    exists c. split; [eapply get_In, Hc|apply Ascii.eqb_refl].
  - reflexivity.
Qed.

Lemma encode_base64_chars n : forall l,
  (length l <= n)%nat -> all_chars base64_char (Base64.encode l) = true.
Proof.
  induction n as [|n IH]; intros l Hl;
    destruct l as [|a [|b [|c r]]]; simpl in Hl; try lia;
    cbn [Base64.encode all_chars]; rewrite ?digit_base64_char;
    try reflexivity.
  cbn [andb]. apply IH. lia.
Qed.

Lemma isValidBase64_chars s :
  isValidBase64 (JsString s) = true ->
  s <> EmptyString /\ all_chars base64_char s = true.
Proof.
  unfold isValidBase64. destruct (String.eqb s EmptyString) eqn:He; [discriminate|].
  intros H. apply String.eqb_eq in H. split.
  - now apply String.eqb_neq.
  - rewrite <- H. now apply (encode_base64_chars (length (Base64.decode s))).
Qed.

Lemma Device_save_throws isNew d l e :
  Device_save isNew d l = Throw e -> forall m, e <> Error m.
Proof.
  unfold Device_save. intros H m.
  repeat match type of H with
         | context [if ?b then _ else _] => destruct b
         end;
    congruence.
Qed.

(** The invalid-key error is thrown for no other reason than the
    [publicKey]. *)
Lemma invalid_key_error_only_for_publicKey env userId keyData now db :
  isValidBase64 (kd_publicKey keyData) = true ->
  snd (registerDeviceKeys env userId keyData now db)
  <> Throw (Error "Invalid public key format").
Proof.
  intros H. unfold registerDeviceKeys. rewrite H. cbn [negb].
  destruct (kd_signedPreKey keyData) as [spk|]; [|discriminate].
  destruct (List.find _ (devices db)) as [device|];
    match goal with
    | |- context [Device_save ?b ?d ?l] =>
        destruct (Device_save b d l) as [devs|e] eqn:Hsave
    end;
    try (cbn [snd]; intros Heq; injection Heq as Heq;
         exact (Device_save_throws _ _ _ _ Hsave _ Heq));
    destruct (truthy (kd_identityPublicKey keyData));
    try (destruct (User_findById userId _) as [user|];
         [destruct (truthy (identityPublicKey user))|]);
    cbn [snd]; discriminate.
Qed.

(** C1, evaluated: the pool of bob's phone holds one available prekey
    and alice and carol fetch bob's bundle at the same time.  When
    both queries are answered before either [save()] is issued, both
    callers receive the prekey with [keyId] 7; the second [save()]
    overwrites [usedBy].  Run one after the other, only the first
    caller receives it. *)
Theorem concurrent_fetches_share_prekey :
  List.filter (PreKeyModel.available bob "bob-phone" 1000) [last_prekey]
  = [last_prekey]
  /\ List.map received
       (snd (interleave bob 1000 [0; 1; 0; 1]%nat [last_prekey] two_callers))
     = [Some {| otk_keyId := 7; otk_publicKey := key32 |};
        Some {| otk_keyId := 7; otk_publicKey := key32 |}]
  /\ List.map usedBy
       (fst (interleave bob 1000 [0; 1; 0; 1]%nat [last_prekey] two_callers))
     = [Some carol]
  /\ List.map received
       (snd (interleave bob 1000 [0; 0; 1; 1]%nat [last_prekey] two_callers))
     = [Some {| otk_keyId := 7; otk_publicKey := key32 |}; None].
Proof. vm_compute. repeat split. Qed.

End RegistrationClaims.

(** ** The prekey pool *)

Section Pool.

Import KeyService PreKeyModel.

Lemma oldest_In l k : oldest l = Some k -> In k l.
Proof.
  revert k. induction l as [|x r IH]; simpl; intros k H; [discriminate|].
  destruct (oldest r) as [k'|].
  - destruct (pk_createdAt x <=? pk_createdAt k')%Z; injection H as <-.
    + now left.
    + right. now apply IH.
  - injection H as <-. now left.
Qed.

Lemma oldest_None l : oldest l = None -> l = [].
Proof.
  destruct l as [|x r]; simpl; [reflexivity|].
  destruct (oldest r) as [k'|]; [|discriminate].
  destruct (pk_createdAt x <=? pk_createdAt k')%Z; discriminate.
Qed.

Lemma oldest_least l k :
  oldest l = Some k ->
  forall x, In x l -> (pk_createdAt k <= pk_createdAt x)%Z.
Proof.
  revert k. induction l as [|y r IH]; simpl; intros k H x Hx; [contradiction|].
  destruct (oldest r) as [k'|] eqn:Hr.
  - specialize (IH k' eq_refl).
    destruct (pk_createdAt y <=? pk_createdAt k')%Z eqn:Hle;
      injection H as <-; destruct Hx as [<-|Hx].
    + lia.
    + apply Z.leb_le in Hle. specialize (IH x Hx). lia.
    + apply Z.leb_gt in Hle. lia.
    + now apply IH.
  - apply oldest_None in Hr. subst r. injection H as <-.
    destruct Hx as [<-|[]]. lia.
Qed.

Lemma oldest_head k ks :
  Forall (fun x => pk_createdAt x = pk_createdAt k) ks ->
  oldest (k :: ks) = Some k.
Proof.
  intros Hall. simpl. destruct (oldest ks) as [k'|] eqn:Hk; [|reflexivity].
  apply oldest_In in Hk. rewrite List.Forall_forall in Hall.
  rewrite (Hall k' Hk), Z.leb_refl. reflexivity.
Qed.

(** [getAvailablePreKey] returns an available prekey of the device of
    least [createdAt], and returns none only when none is available. *)
Lemma getAvailablePreKey_oldest_first u d t coll k :
  getAvailablePreKey u d t coll = Some k ->
  In k coll /\ available u d t k = true
  /\ forall x, In x coll -> available u d t x = true ->
               (pk_createdAt k <= pk_createdAt x)%Z.
Proof.
  unfold getAvailablePreKey. intros H.
  pose proof (oldest_In _ _ H) as Hin. apply List.filter_In in Hin as [Hin Hav].
  repeat split; try assumption.
  intros x Hx Hax. apply (oldest_least _ _ H). apply List.filter_In. now split.
Qed.

Lemma markAsUsed_ids k r t coll :
  List.map pk_id (markAsUsed k r t coll) = List.map pk_id coll.
Proof.
  unfold markAsUsed. rewrite List.map_map. apply List.map_ext.
  intros x. now destruct (Nat.eqb (pk_id x) (pk_id k)).
Qed.

Lemma available_used u d t x r t' : available u d t (used x r t') = false.
Proof.
  unfold available, used. simpl.
  now rewrite andb_false_r.
Qed.

(** Marking [k] removes from the available prekeys those that carry
    the [_id] of [k], and nothing else. *)
Lemma filter_markAsUsed u d t' k r t coll :
  List.filter (available u d t') (markAsUsed k r t coll)
  = List.filter (fun x => negb (Nat.eqb (pk_id x) (pk_id k)))
      (List.filter (available u d t') coll).
Proof.
  unfold markAsUsed. induction coll as [|x l IH]; simpl; [reflexivity|].
  destruct (Nat.eqb (pk_id x) (pk_id k)) eqn:Hid.
  - rewrite available_used. destruct (available u d t' x); simpl;
      rewrite ?Hid; simpl; exact IH.
  - destruct (available u d t' x); simpl; rewrite ?Hid; simpl;
      now rewrite IH.
Qed.

Lemma NoDup_map_In_eq {A B} (f : A -> B) (l : list A) x y :
  List.NoDup (List.map f l) -> In x l -> In y l -> f x = f y -> x = y.
Proof.
  induction l as [|a l IH]; simpl; intros Hnd Hx Hy Hf; [contradiction|].
  apply List.NoDup_cons_iff in Hnd as [Hna Hnd].
  destruct Hx as [<-|Hx], Hy as [<-|Hy]; try reflexivity.
  - exfalso. apply Hna. rewrite Hf. now apply List.in_map.
  - exfalso. apply Hna. rewrite <- Hf. now apply List.in_map.
  - now apply IH.
Qed.

Lemma filter_all {A} (p : A -> bool) (l : list A) :
  (forall x, In x l -> p x = true) -> List.filter p l = l.
Proof.
  induction l as [|a l IH]; simpl; intros H; [reflexivity|].
  rewrite (H a) by now left. f_equal. apply IH. intros x Hx. apply H. now right.
Qed.

Lemma filter_none {A} (p : A -> bool) (l : list A) :
  (forall x, In x l -> p x = false) -> List.filter p l = [].
Proof.
  induction l as [|a l IH]; simpl; intros H; [reflexivity|].
  rewrite (H a) by now left. apply IH. intros x Hx. apply H. now right.
Qed.

Variables (target : ObjectId) (dev : string) (from upto : Time).

Lemma pool_In coll ks k t :
  (from <= t < upto)%Z -> pool target dev from upto coll ks -> In k ks ->
  In k coll /\ available target dev t k = true.
Proof.
  intros Ht [_ Hav] Hk. rewrite <- (Hav t Ht) in Hk.
  now apply List.filter_In in Hk.
Qed.

(** A claim for the device takes the head of the available prekeys. *)
Lemma deviceKeys_this r t d coll ks c :
  (from <= t < upto)%Z ->
  dev_deviceId d = dev ->
  pool target dev from upto coll ks ->
  Forall (fun x => pk_createdAt x = c) ks ->
  snd (deviceKeys target r t d coll) = entry d (List.hd_error ks)
  /\ pool target dev from upto (fst (deviceKeys target r t d coll)) (List.tl ks).
Proof.
  intros Ht Hd Hpool Hsame. unfold deviceKeys, getAvailablePreKey.
  rewrite Hd. destruct Hpool as [Hnd Hav]. rewrite (Hav t Ht).
  destruct ks as [|k ks]; simpl.
  - split; [reflexivity|]. now split.
  - apply List.Forall_cons_iff in Hsame as [Hc Hsame].
    assert (Hhead : oldest (k :: ks) = Some k).
    { apply oldest_head. eapply List.Forall_impl; [|exact Hsame].
      simpl. intros x ->. now symmetry. }
    simpl in Hhead. rewrite Hhead.
    split; [reflexivity|]. split; [now rewrite markAsUsed_ids|].
    intros t' Ht'. rewrite filter_markAsUsed, (Hav t' Ht'). simpl.
    rewrite Nat.eqb_refl. simpl.
    apply filter_all. intros x Hx.
    apply negb_true_iff, Nat.eqb_neq. intros Hid.
    assert (Hkin : In k coll /\ In x coll).
    { split.
      - eapply (pool_In coll (k :: ks) k t' Ht'); [now split|now left].
      - eapply (pool_In coll (k :: ks) x t' Ht'); [now split|now right]. }
    destruct Hkin as [Hk Hxc].
    pose proof (NoDup_map_In_eq pk_id coll x k Hnd Hxc Hk Hid) as ->.
    assert (Hnd' : List.NoDup (k :: ks)).
    { rewrite <- (Hav t' Ht'). apply List.NoDup_filter.
      eapply List.NoDup_map_inv. exact Hnd. }
    apply List.NoDup_cons_iff in Hnd' as [Hnk _]. contradiction.
Qed.

(** A claim for another device leaves the device's pool alone. *)
Lemma deviceKeys_other r t d coll ks :
  dev_deviceId d <> dev ->
  pool target dev from upto coll ks ->
  pool target dev from upto (fst (deviceKeys target r t d coll)) ks.
Proof.
  intros Hd [Hnd Hav]. unfold deviceKeys.
  destruct (getAvailablePreKey target (dev_deviceId d) t coll) as [k|] eqn:Hk;
    simpl; [|now split].
  apply getAvailablePreKey_oldest_first in Hk as (Hin & Hak & _).
  split; [now rewrite markAsUsed_ids|].
  intros t' Ht'. rewrite filter_markAsUsed, (Hav t' Ht').
  apply filter_all. intros x Hx.
  apply negb_true_iff, Nat.eqb_neq. intros Hid.
  rewrite <- (Hav t' Ht') in Hx. apply List.filter_In in Hx as [Hxc Hax].
  pose proof (NoDup_map_In_eq pk_id coll x k Hnd Hxc Hin Hid) as ->.
  unfold available in Hak, Hax.
  apply andb_true_iff in Hak as [Hak _]. apply andb_true_iff in Hak as [Hak _].
  apply andb_true_iff in Hak as [_ Hak].
  apply andb_true_iff in Hax as [Hax _]. apply andb_true_iff in Hax as [Hax _].
  apply andb_true_iff in Hax as [_ Hax].
  apply String.eqb_eq in Hak, Hax. congruence.
Qed.

Lemma allDeviceKeys_cons r t d devs coll :
  allDeviceKeys target r t (d :: devs) coll
  = (fst (allDeviceKeys target r t devs (fst (deviceKeys target r t d coll))),
     snd (deviceKeys target r t d coll)
       :: snd (allDeviceKeys target r t devs (fst (deviceKeys target r t d coll)))).
Proof.
  cbn [allDeviceKeys].
  destruct (deviceKeys target r t d coll) as [coll1 e]. simpl.
  now destruct (allDeviceKeys target r t devs coll1).
Qed.

Lemma deviceKeys_deviceId r t d coll :
  dk_deviceId (snd (deviceKeys target r t d coll)) = dev_deviceId d.
Proof. reflexivity. Qed.

Lemma allDeviceKeys_others r t devs coll ks :
  (forall d, In d devs -> dev_deviceId d <> dev) ->
  pool target dev from upto coll ks ->
  pool target dev from upto (fst (allDeviceKeys target r t devs coll)) ks
  /\ List.find (fun e => String.eqb (dk_deviceId e) dev)
       (snd (allDeviceKeys target r t devs coll)) = None.
Proof.
  revert coll. induction devs as [|d devs IH]; intros coll Hne Hpool.
  - now split.
  - rewrite allDeviceKeys_cons. cbn [fst snd List.find].
    pose proof (deviceKeys_other r t d coll ks (Hne d (or_introl eq_refl)) Hpool)
      as Hp1.
    destruct (IH _ (fun d' H => Hne d' (or_intror H)) Hp1) as [IH1 IH2].
    split; [exact IH1|].
    rewrite deviceKeys_deviceId.
    assert (Hd : String.eqb (dev_deviceId d) dev = false).
    { apply String.eqb_neq, Hne. now left. }
    rewrite Hd. exact IH2.
Qed.

(** One call of [getUserKeys], seen from the device: its entry offers
    the head of the available prekeys and the pool keeps the rest. *)
Lemma allDeviceKeys_this r t devs coll ks c :
  (from <= t < upto)%Z ->
  List.NoDup (List.map dev_deviceId devs) ->
  In dev (List.map dev_deviceId devs) ->
  pool target dev from upto coll ks ->
  Forall (fun x => pk_createdAt x = c) ks ->
  pool target dev from upto (fst (allDeviceKeys target r t devs coll)) (List.tl ks)
  /\ option_map oneTimePreKey
       (List.find (fun e => String.eqb (dk_deviceId e) dev)
          (snd (allDeviceKeys target r t devs coll)))
     = Some (option_map
               (fun k => {| otk_keyId := keyId k; otk_publicKey := pk_publicKey k |})
               (List.hd_error ks)).
Proof.
  intros Ht. revert coll.
  induction devs as [|d devs IH]; intros coll Hnd Hin Hpool Hsame.
  - contradiction.
  - rewrite allDeviceKeys_cons. cbn [fst snd List.find].
    rewrite deviceKeys_deviceId.
    cbn [List.map] in Hnd, Hin.
    apply List.NoDup_cons_iff in Hnd as [Hnotin Hnd].
    destruct (String.eqb (dev_deviceId d) dev) eqn:Hd.
    + apply String.eqb_eq in Hd.
      destruct (deviceKeys_this r t d coll ks c Ht Hd Hpool Hsame) as [He Hp1].
      assert (Hothers : forall d', In d' devs -> dev_deviceId d' <> dev).
      { intros d' Hd' Heq. apply Hnotin. rewrite Hd, <- Heq.
        now apply List.in_map. }
      destruct (allDeviceKeys_others r t devs _ (List.tl ks) Hothers Hp1)
        as [Hp2 _].
      split; [exact Hp2|].
      rewrite He. simpl. now destruct ks.
    + assert (Hne : dev_deviceId d <> dev) by now apply String.eqb_neq.
      pose proof (deviceKeys_other r t d coll ks Hne Hpool) as Hp1.
      destruct Hin as [Hin|Hin]; [contradiction|].
      exact (IH _ Hnd Hin Hp1 Hsame).
Qed.

End Pool.

(** ** Registration followed by fetches *)

Section Fetches.

Import KeyService PreKeyModel.

Variables (target : ObjectId) (dev : string).

Lemma insertMany_fresh exp now pks : forall coll next,
  Forall (fun pk => pkd_publicKey pk <> EmptyString) pks ->
  List.NoDup (List.map pkd_keyId pks) ->
  (forall pk, In pk pks ->
              existsb (same_key target dev (pkd_keyId pk)) coll = false) ->
  insertMany target dev exp now pks coll next
  = ((coll ++ newDocs target dev exp now next pks)%list,
     (next + length pks)%nat).
Proof.
  induction pks as [|pk pks IH]; intros coll next Hvalid Hnd Hfree.
  - simpl. now rewrite List.app_nil_r, Nat.add_0_r.
  - cbn [insertMany newDocs List.map length] in *.
    apply List.Forall_cons_iff in Hvalid as [Hpk Hvalid].
    apply List.NoDup_cons_iff in Hnd as [Hnew Hnd].
    apply String.eqb_neq in Hpk. rewrite Hpk.
    rewrite (Hfree pk) by now left. cbn [orb].
    rewrite IH; try assumption.
    + now rewrite <- List.app_assoc, Nat.add_succ_r.
    + intros pk' Hin. rewrite List.existsb_app, (Hfree pk') by now right.
      cbn [existsb orb]. unfold same_key. cbn.
      rewrite orb_false_r. apply andb_false_iff. right.
      apply Z.eqb_neq. intros Heq. apply Hnew. rewrite Heq.
      now apply List.in_map.
Qed.

Lemma newDocs_ids exp now pks : forall next,
  List.map pk_id (newDocs target dev exp now next pks) = List.seq next (length pks).
Proof.
  induction pks as [|pk pks IH]; intros next; simpl; [reflexivity|].
  now rewrite IH.
Qed.

Lemma newDocs_fields exp now pks : forall next x,
  In x (newDocs target dev exp now next pks) ->
  pk_userId x = target /\ pk_deviceId x = dev /\ isUsed x = false
  /\ pk_expiresAt x = exp /\ pk_createdAt x = now.
Proof.
  induction pks as [|pk pks IH]; intros next x; simpl; [contradiction|].
  intros [<-|Hx]; [now repeat split|]. eapply IH, Hx.
Qed.

Lemma newDocs_offered exp now pks : forall next,
  List.map (fun k => {| otk_keyId := keyId k; otk_publicKey := pk_publicKey k |})
    (newDocs target dev exp now next pks)
  = List.map offered pks.
Proof.
  induction pks as [|pk pks IH]; intros next; simpl; [reflexivity|].
  now rewrite IH.
Qed.

(** After a registration without collisions the device's available
    prekeys are the documents just inserted, until they expire. *)
Lemma pool_after_insert coll next exp now pks :
  List.NoDup (List.map pk_id coll) ->
  Forall (fun k => (pk_id k < next)%nat) coll ->
  (forall k t, In k coll -> (now <= t)%Z -> available target dev t k = false) ->
  pool target dev now exp
    (coll ++ newDocs target dev exp now next pks)
    (newDocs target dev exp now next pks).
Proof.
  intros Hnd Hlt Hold. split.
  - rewrite List.map_app, newDocs_ids. apply List.NoDup_app.
    + exact Hnd.
    + apply List.seq_NoDup.
    + intros i Hi Hseq. apply List.in_seq in Hseq.
      apply List.in_map_iff in Hi as (k & <- & Hk).
      rewrite List.Forall_forall in Hlt. specialize (Hlt k Hk). lia.
  - intros t Ht. rewrite List.filter_app.
    rewrite (filter_none (available target dev t) coll).
    + simpl. apply filter_all. intros x Hx.
      apply newDocs_fields in Hx as (Hu & Hd & Hused & Hexp & _).
      unfold available. rewrite Hu, Hd, Hused, Hexp, !String.eqb_refl. simpl.
      apply Z.ltb_lt. lia.
    + intros k Hk. apply Hold; [exact Hk|lia].
Qed.

Variables (from upto : Time).

Lemma getUserKeys_eq r t db u :
  User_findById target (users db) = Some u ->
  getUserKeys target r t db
  = (set_preKeys db
       (fst (allDeviceKeys target r t
               (List.filter (activeDevice target) (devices db)) (preKeys db)))
       (nextId db),
     Ok {| b_userId := target;
           b_identityPublicKey := identityPublicKey u;
           b_signedPreKey := user_signedPreKey u;
           b_devices :=
             snd (allDeviceKeys target r t
                    (List.filter (activeDevice target) (devices db))
                    (preKeys db)) |}).
Proof.
  intros Hu. unfold getUserKeys. rewrite Hu.
  now destruct (allDeviceKeys target r t _ (preKeys db)).
Qed.

Lemma fetchAll_cons r t reqs db :
  fetchAll target ((r, t) :: reqs) db
  = (fst (fetchAll target reqs (fst (getUserKeys target r t db))),
     snd (getUserKeys target r t db)
       :: snd (fetchAll target reqs (fst (getUserKeys target r t db)))).
Proof.
  cbn [fetchAll]. destruct (getUserKeys target r t db) as [db1 b]. simpl.
  now destruct (fetchAll target reqs db1).
Qed.

(** Successive fetches hand out the available prekeys of the device in
    natural order, one for each call, and nothing once they are gone. *)
Lemma fetchAll_consumes c ks : forall reqs db u,
  User_findById target (users db) = Some u ->
  List.NoDup (List.map dev_deviceId
                (List.filter (activeDevice target) (devices db))) ->
  In dev (List.map dev_deviceId
            (List.filter (activeDevice target) (devices db))) ->
  pool target dev from upto (preKeys db) ks ->
  Forall (fun x => pk_createdAt x = c) ks ->
  length reqs = S (length ks) ->
  Forall (fun rt => (from <= snd rt < upto)%Z) reqs ->
  List.map (fetched dev) (snd (fetchAll target reqs db))
  = (List.map
       (fun k => Some (Some {| otk_keyId := keyId k;
                               otk_publicKey := pk_publicKey k |})) ks
       ++ [Some None])%list.
Proof.
  induction ks as [|k ks IH]; intros reqs db u Hu Hnd Hin Hpool Hsame Hlen Ht;
    destruct reqs as [|[r t] reqs]; try discriminate;
    apply List.Forall_cons_iff in Ht as [Ht Hts]; simpl in Ht;
    rewrite fetchAll_cons; cbn [snd List.map];
    rewrite (getUserKeys_eq r t db u Hu); cbn [fst snd fetched b_devices];
    destruct (allDeviceKeys_this target dev from upto r t _ _ _ c
                Ht Hnd Hin Hpool Hsame) as [Hp1 Hfound];
    rewrite Hfound.
  - destruct reqs; [reflexivity|discriminate].
  - simpl. f_equal.
    apply (IH reqs _ u); simpl; try assumption.
    + now apply List.Forall_cons_iff in Hsame as [_ Hsame].
    + simpl in Hlen. lia.
Qed.

End Fetches.

(** ** Claims on fetching *)

Section FetchClaims.

Import KeyService PreKeyModel.

(** C6: ten one-time prekeys with distinct fresh [keyId]s are
    registered for an active device whose pool offers nothing; eleven
    [getUserKeys] calls follow before the prekeys expire.  Each of the
    first ten returns a [oneTimePreKey], the i-th call the i-th prekey
    registered, so the ten [keyId]s are pairwise distinct; the eleventh
    call returns a bundle whose entry has no [oneTimePreKey].  Whatever
    the pool, the prekey selected is one of least [createdAt] among the
    available ones. *)
Theorem ten_prekeys_ten_fetches env target dev u pks reqs now db :
  User_findById target (users db) = Some u ->
  In dev (List.map dev_deviceId
            (List.filter (activeDevice target) (devices db))) ->
  List.NoDup (List.map dev_deviceId
                (List.filter (activeDevice target) (devices db))) ->
  List.NoDup (List.map pk_id (preKeys db)) ->
  Forall (fun k => (pk_id k < nextId db)%nat) (preKeys db) ->
  (forall k t, In k (preKeys db) -> (now <= t)%Z ->
               available target dev t k = false) ->
  length pks = 10%nat ->
  List.NoDup (List.map pkd_keyId pks) ->
  Forall (fun pk => pkd_publicKey pk <> EmptyString) pks ->
  (forall pk, In pk pks ->
              existsb (same_key target dev (pkd_keyId pk)) (preKeys db) = false) ->
  length reqs = 11%nat ->
  Forall (fun rt => (now <= snd rt
                     < now + expirationDays env * 24 * 60 * 60 * 1000)%Z) reqs ->
  List.map (fetched dev)
    (snd (fetchAll target reqs
            (fst (registerPreKeys env target dev pks now db))))
  = (List.map (fun pk => Some (Some (offered pk))) pks ++ [Some None])%list
  /\ List.NoDup (List.map (fun pk => otk_keyId (offered pk)) pks)
  /\ (forall coll t k,
        getAvailablePreKey target dev t coll = Some k ->
        forall x, In x coll -> available target dev t x = true ->
                  (pk_createdAt k <= pk_createdAt x)%Z).
Proof.
  intros Hu Hin Hdevs Hids Hlt Hold Hten Hnd Hvalid Hfree Hreqs Htimes.
  split; [|split].
  - unfold registerPreKeys.
    rewrite (insertMany_fresh target dev _ now pks _ _ Hvalid Hnd Hfree).
    cbn [fst].
    rewrite (fetchAll_consumes target dev now
               (now + expirationDays env * 24 * 60 * 60 * 1000)%Z now
               (newDocs target dev
                  (now + expirationDays env * 24 * 60 * 60 * 1000)%Z now
                  (nextId db) pks) reqs _ u); try assumption.
    + f_equal.
      rewrite <- (List.map_map offered (fun o => Some (Some o)) pks).
      rewrite <- (newDocs_offered target dev
                    (now + expirationDays env * 24 * 60 * 60 * 1000)%Z now pks
                    (nextId db)).
      now rewrite List.map_map.
    + now apply pool_after_insert.
    + apply List.Forall_forall. intros x Hx.
      now apply newDocs_fields in Hx as (_ & _ & _ & _ & Hc).
    + rewrite Hreqs. f_equal.
      transitivity (length (List.map pk_id
        (newDocs target dev
           (now + expirationDays env * 24 * 60 * 60 * 1000)%Z now
           (nextId db) pks))).
      * rewrite newDocs_ids, List.length_seq. now symmetry.
      * apply List.length_map.
  - exact Hnd.
  - intros coll t k Hk. now apply getAvailablePreKey_oldest_first in Hk.
Qed.

Lemma ten_prekeys_ten_fetches_witness :
  List.map (fetched "bob-phone")
    (snd (fetchAll bob eleven_requests
            (fst (registerPreKeys None bob "bob-phone" ten_prekeys 1000 keydb0))))
  = (List.map (fun pk => Some (Some (offered pk))) ten_prekeys ++ [Some None])%list.
Proof.
  apply (ten_prekeys_ten_fetches None bob "bob-phone" (user bob) ten_prekeys
           eleven_requests 1000 keydb0).
  - reflexivity.
  - simpl. now left.
  - simpl. repeat constructor. intros [].
  - constructor.
  - constructor.
  - intros k t [].
  - reflexivity.
  - simpl. repeat (constructor; [simpl; intuition discriminate|]). constructor.
  - repeat constructor; discriminate.
  - reflexivity.
  - reflexivity.
  - simpl. repeat constructor; simpl; lia.
Defined.

(** The interrupted callback, run without interruption, is the
    uninterrupted one. *)
Lemma task_step_twice target r t d coll :
  let '(coll1, t1) := task_step target r t (Pending d) coll in
  task_step target r t t1 coll1
  = (fst (deviceKeys target r t d coll),
     Finished (snd (deviceKeys target r t d coll))).
Proof. reflexivity. Qed.

(** Whenever a prekey is available and two callers are both answered
    before either saves, both receive it. *)
Lemma read_read_write_write_shares target t d coll k r1 r2 :
  getAvailablePreKey target (dev_deviceId d) t coll = Some k ->
  List.map received
    (snd (interleave target t [0; 1; 0; 1]%nat coll
            [{| requestingUserId := r1; task := Pending d |};
             {| requestingUserId := r2; task := Pending d |}]))
  = [Some {| otk_keyId := keyId k; otk_publicKey := pk_publicKey k |};
     Some {| otk_keyId := keyId k; otk_publicKey := pk_publicKey k |}].
Proof.
  intros Hk. cbn [interleave task_step list_lookup lookup task requestingUserId
                  list_insert insert].
  simpl. now rewrite Hk.
Qed.

End FetchClaims.

(** ** Presence *)

Section Presence.

Import PresenceService.

Lemma prefix_append (s r : string) : String.prefix s (s ++ r) = true.
Proof.
  induction s as [|c s IH]; simpl; [now destruct r|].
  destruct (ascii_dec c c) as [_|Hc]; [exact IH|now destruct Hc].
Qed.

Lemma append_inj_r (s r1 r2 : string) : s ++ r1 = s ++ r2 -> r1 = r2.
Proof.
  induction s as [|c s IH]; simpl; intros H; [exact H|].
  injection H as H. now apply IH.
Qed.

Lemma presenceKey_inj u d d' : presenceKey u d = presenceKey u d' -> d = d'.
Proof.
  unfold presenceKey. intros H.
  apply append_inj_r in H. apply append_inj_r in H.
  now apply (append_inj_r ":") in H.
Qed.

Lemma append_assoc (s1 s2 s3 : string) : (s1 ++ s2) ++ s3 = s1 ++ (s2 ++ s3).
Proof.
  induction s1 as [|c s1 IH]; [reflexivity|].
  change (String c ((s1 ++ s2) ++ s3) = String c (s1 ++ (s2 ++ s3))).
  now f_equal.
Qed.

Lemma presenceKey_prefix u d :
  String.prefix ("presence:" ++ u ++ ":") (presenceKey u d) = true.
Proof.
  unfold presenceKey.
  replace ("presence:" ++ u ++ ":" ++ d) with (("presence:" ++ u ++ ":") ++ d).
  - apply prefix_append.
  - now rewrite !append_assoc.
Qed.

(** A live marker is among the keys the pattern selects. *)
Lemma keys_live u d t (r : gmap string (string * Time)) v e :
  r !! presenceKey u d = Some (v, e) -> (t < e)%Z ->
  In (presenceKey u d) (keys ("presence:" ++ u ++ ":") t r).
Proof.
  intros Hr Hlive. unfold keys. apply List.in_map_iff.
  exists (presenceKey u d, (v, e)). split; [reflexivity|].
  apply List.filter_In. split.
  - apply list_elem_of_In, elem_of_map_to_list. exact Hr.
  - cbn [fst snd]. rewrite presenceKey_prefix. now apply Z.ltb_lt.
Qed.

(** [setOffline] by itself does what the presence rule asks: while
    another device of the user has a live marker it publishes nothing. *)
Lemma setOffline_other_device_live u d d' t st v e :
  d <> d' ->
  redis st !! presenceKey u d' = Some (v, e) -> (t < e)%Z ->
  published (setOffline u d t st) = published st.
Proof.
  intros Hne Hr Hlive. unfold setOffline.
  destruct (keys _ t (delete (presenceKey u d) (redis st))) eqn:Hk;
    [|reflexivity].
  exfalso.
  assert (Hin : In (presenceKey u d')
                  (keys ("presence:" ++ u ++ ":") t
                     (delete (presenceKey u d) (redis st)))).
  { apply (keys_live u d' t _ v e); [|exact Hlive].
    rewrite lookup_delete_ne; [exact Hr|].
    intros Heq. apply Hne. now apply presenceKey_inj in Heq. }
  rewrite Hk in Hin. contradiction.
Qed.

(** And when no marker of the user is left it publishes one offline
    event. *)
Lemma setOffline_last_device u d t st :
  keys ("presence:" ++ u ++ ":") t (delete (presenceKey u d) (redis st)) = [] ->
  published (setOffline u d t st)
  = (published st
       ++ [{| ev_userId := u; ev_deviceId := d; ev_status := offline;
              ev_timestamp := t |}])%list.
Proof. intros Hk. unfold setOffline. now rewrite Hk. Qed.

(** The disconnection handler publishes an offline event of its own
    after every [setOffline]. *)
Lemma handleDisconnection_publishes u d t st :
  offlineEvents u (published (WebSocketHandlers.handleDisconnection u d t st))
  = (offlineEvents u (published (setOffline u d t st))
       ++ [{| ev_userId := u; ev_deviceId := d; ev_status := offline;
              ev_timestamp := t |}])%list.
Proof.
  unfold WebSocketHandlers.handleDisconnection, publish, offlineEvents.
  simpl. rewrite List.filter_app. simpl. now rewrite String.eqb_refl.
Qed.

(** C5, evaluated: alice has live markers for a phone and a
    laptop.  The phone disconnects: the laptop's marker remains and
    one offline event for alice is published.  The laptop disconnects:
    two more are published, one by [setOffline] and one by the
    handler.  [setOffline] alone publishes none, then one. *)
Theorem disconnect_publishes_offline_every_time :
  let st1 := WebSocketHandlers.handleDisconnection alice "alice-phone" 1000
               alice_twice in
  let st2 := WebSocketHandlers.handleDisconnection alice "alice-laptop" 2000
               st1 in
  let quiet1 := setOffline alice "alice-phone" 1000 alice_twice in
  let quiet2 := setOffline alice "alice-laptop" 2000 quiet1 in
  length (keys ("presence:" ++ alice ++ ":") 1000 (redis alice_twice)) = 2%nat
  /\ offlineEvents alice (published alice_twice) = []
  /\ keys ("presence:" ++ alice ++ ":") 1000 (redis st1)
     = [presenceKey alice "alice-laptop"]
  /\ length (offlineEvents alice (published st1)) = 1%nat
  /\ keys ("presence:" ++ alice ++ ":") 2000 (redis st2) = []
  /\ length (offlineEvents alice (published st2)) = 3%nat
  /\ length (offlineEvents alice (published quiet1)) = 0%nat
  /\ length (offlineEvents alice (published quiet2)) = 1%nat.
Proof. vm_compute. repeat split. Qed.

End Presence.

(** ** The connection registry *)

Section Registry.

Import WebSocketServer.

(** A second handshake for the same key replaces the registered
    socket. *)
Lemma second_connection_wins ws1 ws2 u d t1 t2 s :
  clients (connection ws2 u d t2 (connection ws1 u d t1 s)) !! clientKey u d
  = Some ws2.
Proof. unfold connection. simpl. apply lookup_insert_eq. Qed.

(** Closing the displaced socket deletes the key, and with it the
    registration of the socket that displaced it. *)
Lemma close_of_displaced_unregisters ws1 ws2 u d t1 t2 t3 s :
  ws1 <> ws2 ->
  clients (close ws1 t3 (connection ws2 u d t2 (connection ws1 u d t1 s)))
    !! clientKey u d = None
  /\ is_Some (wss_clients
                (close ws1 t3 (connection ws2 u d t2 (connection ws1 u d t1 s)))
                !! ws2).
Proof.
  intros Hne. unfold close, connection. simpl.
  rewrite lookup_insert_ne by congruence. rewrite lookup_insert_eq. simpl.
  split.
  - apply lookup_delete_eq.
  - rewrite lookup_delete_ne by congruence. rewrite lookup_insert_eq. eauto.
Qed.

(** C8, evaluated: socket 1 registers for alice's phone and socket 2
    registers for the same key; the registry maps the key to socket 2.
    When socket 1 is closed, or is terminated by the heartbeat after a
    missed pong while socket 2 answers, the key is no longer in the
    registry although socket 2 is still open. *)
Theorem displaced_socket_close_unregisters_new :
  let key := clientKey alice "alice-phone" in
  let closed := close 1 300 reconnected in
  let reaped := heartbeat 60000 (pong 2 (heartbeat 30000 reconnected)) in
  clients reconnected !! key = Some 2%nat
  /\ clients closed !! key = None
  /\ option_map ws_deviceId (wss_clients closed !! 2%nat) = Some "alice-phone"
  /\ wss_clients reaped !! 1%nat = None
  /\ clients reaped !! key = None
  /\ option_map ws_deviceId (wss_clients reaped !! 2%nat) = Some "alice-phone".
Proof. vm_compute. repeat split. Qed.

End Registry.


(** * Further properties of the services *)

(** ** Base64: what [isValidBase64] accepts *)

Section Base64Facts.

Import KeyService.

Lemma digits_table :
  forallb
    (fun i =>
       match Base64.unbase64 (Base64.digit (N.of_nat i)) with
       | Some m => N.eqb m (N.of_nat i)
       | None => false
       end
       && negb (Ascii.eqb (Base64.digit (N.of_nat i)) "="%char))
    (List.seq 0 64)
  = true.
Proof. vm_compute. reflexivity. Qed.

Lemma unbase64_digit n :
  (n < 64)%N ->
  Base64.unbase64 (Base64.digit n) = Some n
  /\ Ascii.eqb (Base64.digit n) "="%char = false.
Proof.
  intros Hn. pose proof digits_table as Ht.
  rewrite List.forallb_forall in Ht.
  specialize (Ht (N.to_nat n)).
  rewrite N2Nat.id in Ht.
  assert (Hin : In (N.to_nat n) (List.seq 0 64)) by (apply List.in_seq; lia).
  apply Ht in Hin. apply andb_true_iff in Hin as [H1 H2].
  destruct (Base64.unbase64 (Base64.digit n)) as [m|]; [|discriminate].
  apply N.eqb_eq in H1. subst m. split; [reflexivity|].
  now apply negb_true_iff.
Qed.

Lemma sextets_digit n r :
  (n < 64)%N ->
  Base64.sextets (String (Base64.digit n) r) = n :: Base64.sextets r.
Proof.
  intros Hn. destruct (unbase64_digit n Hn) as [Hu He].
  cbn [Base64.sextets]. now rewrite He, Hu.
Qed.

Lemma unbase64_lt c v : Base64.unbase64 c = Some v -> (v < 64)%N.
Proof.
  unfold Base64.unbase64.
  repeat match goal with
         | |- context [if ?b then _ else _] => destruct b eqn:?
         end; intros H; try discriminate; injection H as <-;
    repeat match goal with
           | H : (_ && _) = true |- _ => apply andb_true_iff in H as [? ?]
           | H : (_ <=? _)%N = true |- _ => apply N.leb_le in H
           end; lia.
Qed.

Lemma sextets_lt s : Forall (fun v => (v < 64)%N) (Base64.sextets s).
Proof.
  induction s as [|c s IH]; cbn [Base64.sextets]; [constructor|].
  destruct (Ascii.eqb c "="%char); [constructor|].
  destruct (Base64.unbase64 c) as [v|] eqn:Hv; [|exact IH].
  constructor; [eapply unbase64_lt, Hv|exact IH].
Qed.

Lemma bytes_of_sextets_lt n : forall l,
  (length l <= n)%nat ->
  Forall (fun v => (v < 64)%N) l ->
  Forall (fun b => (b < 256)%N) (Base64.bytes_of_sextets l).
Proof.
  induction n as [|n IH]; intros l Hlen Hl;
    destruct l as [|a [|b [|c [|d r]]]]; simpl in Hlen; try lia;
    cbn [Base64.bytes_of_sextets];
    repeat match goal with
           | H : Forall _ (_ :: _) |- _ => apply List.Forall_cons_iff in H as [? H]
           end;
    repeat (apply List.Forall_cons;
            [zify; Z.to_euclidean_division_equations; lia|]);
    try apply List.Forall_nil.
  apply IH; [lia|assumption].
Qed.

Lemma decode_lt s : Forall (fun b => (b < 256)%N) (Base64.decode s).
Proof.
  apply (bytes_of_sextets_lt (length (Base64.sextets s))); [lia|].
  apply sextets_lt.
Qed.

(** Decoding inverts encoding on byte strings. *)
Lemma decode_encode n : forall l,
  (length l <= n)%nat ->
  Forall (fun b => (b < 256)%N) l ->
  Base64.decode (Base64.encode l) = l.
Proof.
  unfold Base64.decode.
  induction n as [|n IH]; intros l Hlen Hl;
    destruct l as [|a [|b [|c r]]]; simpl in Hlen; try lia;
    try reflexivity;
    repeat match goal with
           | H : Forall _ (_ :: _) |- _ => apply List.Forall_cons_iff in H as [? H]
           end;
    cbn [Base64.encode];
    rewrite ?sextets_digit by (zify; Z.to_euclidean_division_equations; lia).
  - change (Base64.sextets "==") with (@nil N).
    cbn [Base64.bytes_of_sextets]. f_equal.
    zify; Z.to_euclidean_division_equations; lia.
  - change (Base64.sextets "=") with (@nil N).
    cbn [Base64.bytes_of_sextets].
    f_equal; [|f_equal]; zify; Z.to_euclidean_division_equations; lia.
  - cbn [Base64.bytes_of_sextets].
    rewrite (IH r) by (assumption || lia).
    f_equal; [|f_equal; [|f_equal]];
      zify; Z.to_euclidean_division_equations; lia.
Qed.

Lemma encode_nonempty l : l <> [] -> Base64.encode l <> EmptyString.
Proof. destruct l as [|a [|b [|c r]]]; [congruence|discriminate..]. Qed.

(** X1: [isValidBase64] accepts a value exactly when it is a string that
    is the padded standard Base64 encoding of a non-empty byte string. *)
Theorem isValidBase64_iff_canonical v :
  isValidBase64 v = true
  <-> exists l, l <> [] /\ Forall (fun b => (b < 256)%N) l
                /\ v = JsString (Base64.encode l).
Proof.
  split.
  - destruct v as [| |n|s]; try discriminate. unfold isValidBase64.
    destruct (String.eqb s EmptyString) eqn:He; [discriminate|].
    intros H. apply String.eqb_eq in H. apply String.eqb_neq in He.
    exists (Base64.decode s). split; [|split].
    + intros Hnil. rewrite Hnil in H. now apply He.
    + apply decode_lt.
    + now rewrite H.
  - intros (l & Hne & Hl & ->). unfold isValidBase64.
    apply encode_nonempty, String.eqb_neq in Hne. rewrite Hne.
    rewrite (decode_encode (length l)) by (assumption || lia).
    apply String.eqb_refl.
Qed.

End Base64Facts.

(** ** The prekey store under registration, statistics and cleanup *)

Section KeyStoreFacts.

Import KeyService PreKeyModel KeyMaintenance.

Lemma same_key_index u d kid k :
  same_key u d kid k = true <-> index_key k = (u, d, kid).
Proof.
  unfold same_key, index_key. rewrite !andb_true_iff, !String.eqb_eq, Z.eqb_eq.
  split; [intros [[-> ->] ->]; reflexivity|].
  intros H. injection H as -> -> ->. auto.
Qed.

Lemma existsb_same_key u d kid coll :
  existsb (same_key u d kid) coll = false ->
  ~ In (u, d, kid) (List.map index_key coll).
Proof.
  intros He Hin. apply List.in_map_iff in Hin as (k & Hk & Hin).
  assert (Ht : existsb (same_key u d kid) coll = true).
  { apply List.existsb_exists. exists k. split; [exact Hin|].
    now apply same_key_index. }
  congruence.
Qed.

Lemma NoDup_snoc {A} (l : list A) (x : A) :
  List.NoDup l -> ~ In x l -> List.NoDup (l ++ [x]).
Proof.
  intros Hl Hx. apply List.NoDup_app; [exact Hl|repeat constructor; intros []|].
  intros a Ha [<-|[]]. contradiction.
Qed.

(** What [insertMany] does to the collection: the stored documents stay
    where they are, and each document added is unused, belongs to the
    device and carries one of the offered keys. *)
Lemma insertMany_appends u d exp now pks : forall coll next,
  exists added,
    insertMany u d exp now pks coll next
    = ((coll ++ added)%list, (next + length added)%nat)
    /\ (length added <= length pks)%nat
    /\ Forall (fun k =>
                 pk_userId k = u /\ pk_deviceId k = d /\ isUsed k = false
                 /\ pk_expiresAt k = exp /\ pk_createdAt k = now
                 /\ exists pk, In pk pks /\ keyId k = pkd_keyId pk
                               /\ pk_publicKey k = pkd_publicKey pk) added
    /\ List.map pk_id added = List.seq next (length added)
    /\ (List.NoDup (List.map index_key coll) ->
        List.NoDup (List.map index_key (coll ++ added))).
Proof.
  induction pks as [|pk pks IH]; intros coll next.
  - exists []. simpl. rewrite List.app_nil_r, Nat.add_0_r.
    repeat split; auto.
  - cbn [insertMany].
    destruct (String.eqb (pkd_publicKey pk) EmptyString
              || existsb (same_key u d (pkd_keyId pk)) coll) eqn:Hskip.
    + destruct (IH coll next) as (added & Heq & Hlen & Hall & Hids & Hnd).
      exists added. rewrite Heq. repeat split; auto.
      * simpl. lia.
      * eapply List.Forall_impl; [|exact Hall].
        intros k (H1 & H2 & H3 & H4 & H5 & pk' & Hin & H6).
        repeat split; auto. exists pk'. split; [now right|exact H6].
    + apply orb_false_iff in Hskip as [_ Hfree].
      match goal with
      | |- context [insertMany u d exp now pks (coll ++ [?doc]) (S next)] =>
          set (doc0 := doc)
      end.
      destruct (IH (coll ++ [doc0])%list (S next))
        as (added & Heq & Hlen & Hall & Hids & Hnd).
      exists (doc0 :: added). rewrite Heq.
      rewrite <- List.app_assoc. cbn [app length].
      repeat split.
      * f_equal. lia.
      * lia.
      * constructor.
        -- repeat split; auto. exists pk. split; [now left|now split].
        -- eapply List.Forall_impl; [|exact Hall].
           intros k (H1 & H2 & H3 & H4 & H5 & pk' & Hin & H6).
           repeat split; auto. exists pk'. split; [now right|exact H6].
      * cbn [List.map List.seq]. now rewrite Hids.
      * intros Hc. change (doc0 :: added) with ([doc0] ++ added)%list.
        rewrite List.app_assoc. apply Hnd.
        rewrite List.map_app. apply NoDup_snoc; [exact Hc|].
        now apply existsb_same_key.
Qed.

Lemma count_app p (l1 l2 : list PreKey) :
  count p (l1 ++ l2) = (count p l1 + count p l2)%nat.
Proof. unfold count. now rewrite List.filter_app, List.length_app. Qed.

Lemma count_le p (l : list PreKey) : (count p l <= length l)%nat.
Proof. apply List.filter_length_le. Qed.

Lemma count_all p (l : list PreKey) :
  Forall (fun k => p k = true) l -> count p l = length l.
Proof.
  unfold count. intros H. rewrite filter_all; [reflexivity|].
  now apply List.Forall_forall.
Qed.

Lemma count_none p (l : list PreKey) :
  Forall (fun k => p k = false) l -> count p l = 0%nat.
Proof.
  unfold count. intros H. rewrite filter_none; [reflexivity|].
  now apply List.Forall_forall.
Qed.

Lemma pool_partition u d now (coll : list PreKey) :
  let a := count (fun k => of_device u d k && negb (isUsed k)
                           && (now <? pk_expiresAt k)%Z) coll in
  let us := count (fun k => of_device u d k && isUsed k) coll in
  let ex := count (fun k => of_device u d k && (pk_expiresAt k <=? now)%Z) coll in
  let t := count (of_device u d) coll in
  (a + us <= t)%nat /\ (t <= a + us + ex)%nat
  /\ t = (a + count (dead u d now) coll)%nat.
Proof.
  unfold count, dead. induction coll as [|k l IH]; [simpl; lia|].
  cbn [List.filter].
  destruct (of_device u d k), (isUsed k);
    destruct (now <? pk_expiresAt k)%Z eqn:Hlt;
    destruct (pk_expiresAt k <=? now)%Z eqn:Hle;
    try (apply Z.ltb_lt in Hlt); try (apply Z.ltb_ge in Hlt);
    try (apply Z.leb_le in Hle); try (apply Z.leb_gt in Hle);
    try lia; cbn [andb orb negb length]; cbn zeta in IH; lia.
Qed.

(** X2: the counts of [getPreKeyStats] fit together: a prekey of the
    device is available, used or expired, and only a used one can be
    counted twice, as used and as expired. *)
Theorem stats_cover_the_pool u d now db :
  let s := getPreKeyStats u d now db in
  (available s + used s <= total s)%nat
  /\ (total s <= available s + used s + expired s)%nat
  /\ total s = (available s + count (dead u d now) (preKeys db))%nat.
Proof. apply pool_partition. Qed.

(** X3: [registerPreKeys] reports the number of keys offered, whatever
    it stored; for the device, [total] and [available] grow by at most
    that number and never shrink, and [used] stays as it was. *)
Theorem registerPreKeys_grows_stats env u d pks now db :
  let s0 := getPreKeyStats u d now db in
  let out := registerPreKeys env u d pks now db in
  let s1 := getPreKeyStats u d now (fst out) in
  snd out = Ok (length pks)
  /\ (total s0 <= total s1 <= total s0 + length pks)%nat
  /\ (available s0 <= available s1 <= available s0 + length pks)%nat
  /\ used s1 = used s0.
Proof.
  unfold registerPreKeys.
  destruct (insertMany_appends u d
              (now + expirationDays env * 24 * 60 * 60 * 1000)%Z now pks
              (preKeys db) (nextId db))
    as (added & Heq & Hlen & Hall & _ & _).
  rewrite Heq. cbn [fst snd getPreKeyStats set_preKeys preKeys
                    total available used].
  rewrite !count_app.
  split; [reflexivity|].
  assert (Htot : count (of_device u d) added = length added).
  { apply count_all. eapply List.Forall_impl; [|exact Hall].
    intros k (Hu & Hd & _). unfold of_device.
    now rewrite Hu, Hd, !String.eqb_refl. }
  assert (Hused : count (fun k => of_device u d k && isUsed k) added = 0%nat).
  { apply count_none. eapply List.Forall_impl; [|exact Hall].
    intros k (_ & _ & Hun & _). rewrite Hun. apply andb_false_r. }
  pose proof (count_le
                (fun k => of_device u d k && negb (isUsed k)
                          && (now <? pk_expiresAt k)%Z) added).
  rewrite Htot, Hused. lia.
Qed.

Lemma filter_filter_and {A} (p q : A -> bool) (l : list A) :
  List.filter p (List.filter q l) = List.filter (fun x => q x && p x) l.
Proof.
  induction l as [|x l IH]; simpl; [reflexivity|].
  destruct (q x); simpl; [destruct (p x)|]; now rewrite IH.
Qed.

(** X4: [cleanupExpiredPreKeys] deletes the used and the expired
    prekeys of the device and reports their number; afterwards the
    device's statistics show the available prekeys only, and the prekeys
    of every other device are as before. *)
Theorem cleanup_keeps_available_only u d now db :
  let s0 := getPreKeyStats u d now db in
  let out := cleanupExpiredPreKeys u d now db in
  snd out = Ok (total s0 - available s0)%nat
  /\ getPreKeyStats u d now (fst out)
     = {| total := available s0; available := available s0;
          used := 0; expired := 0 |}
  /\ List.filter (fun k => negb (of_device u d k)) (preKeys (fst out))
     = List.filter (fun k => negb (of_device u d k)) (preKeys db).
Proof.
  pose proof (pool_partition u d now (preKeys db)) as (_ & _ & Hcover).
  unfold cleanupExpiredPreKeys, getPreKeyStats.
  cbn [fst snd set_preKeys preKeys total available used expired].
  split; [f_equal; lia|].
  unfold count. rewrite !filter_filter_and. split.
  - f_equal.
    + f_equal. apply List.filter_ext. intros k. unfold dead.
      destruct (of_device u d k), (isUsed k);
        destruct (now <? pk_expiresAt k)%Z eqn:Hlt;
        destruct (pk_expiresAt k <=? now)%Z eqn:Hle;
        try (apply Z.ltb_lt in Hlt); try (apply Z.ltb_ge in Hlt);
        try (apply Z.leb_le in Hle); try (apply Z.leb_gt in Hle);
        try lia; reflexivity.
    + f_equal. apply List.filter_ext. intros k. unfold dead.
      destruct (of_device u d k), (isUsed k);
        destruct (now <? pk_expiresAt k)%Z eqn:Hlt;
        destruct (pk_expiresAt k <=? now)%Z eqn:Hle;
        try (apply Z.ltb_lt in Hlt); try (apply Z.ltb_ge in Hlt);
        try (apply Z.leb_le in Hle); try (apply Z.leb_gt in Hle);
        try lia; reflexivity.
    + rewrite filter_none; [reflexivity|]. intros k _. unfold dead.
      destruct (of_device u d k), (isUsed k),
        (pk_expiresAt k <=? now)%Z; reflexivity.
    + rewrite filter_none; [reflexivity|]. intros k _. unfold dead.
      destruct (of_device u d k), (isUsed k),
        (pk_expiresAt k <=? now)%Z; reflexivity.
  - apply List.filter_ext. intros k. unfold dead.
    destruct (of_device u d k), (isUsed k),
      (pk_expiresAt k <=? now)%Z; reflexivity.
Qed.

Lemma filter_filter_absorb {A} (p q : A -> bool) (l : list A) :
  (forall x, In x l -> p x = true -> q x = true) ->
  List.filter p (List.filter q l) = List.filter p l.
Proof.
  intros H. rewrite filter_filter_and. apply List.filter_ext_in.
  intros x Hx. destruct (p x) eqn:Hp; [|apply andb_false_r].
  now rewrite (H x Hx Hp).
Qed.

(** Two collections that offer the same prekeys from [from] on. *)
Lemma deviceKeys_same_offers from target r t dv (c1 c2 : list PreKey) :
  (from <= t)%Z ->
  (forall u' d' t', (from <= t')%Z ->
     List.filter (PreKeyModel.available u' d' t') c1 = List.filter (PreKeyModel.available u' d' t') c2) ->
  snd (deviceKeys target r t dv c1) = snd (deviceKeys target r t dv c2)
  /\ (forall u' d' t', (from <= t')%Z ->
        List.filter (PreKeyModel.available u' d' t') (fst (deviceKeys target r t dv c1))
        = List.filter (PreKeyModel.available u' d' t') (fst (deviceKeys target r t dv c2))).
Proof.
  intros Ht Hsame. unfold deviceKeys, getAvailablePreKey.
  rewrite (Hsame target (dev_deviceId dv) t Ht).
  split; [reflexivity|]. cbn [fst].
  intros u' d' t' Ht'.
  destruct (oldest _) as [k|]; [|now apply Hsame].
  rewrite !filter_markAsUsed. now rewrite Hsame.
Qed.

Lemma allDeviceKeys_same_offers from target r t devs : forall c1 c2,
  (from <= t)%Z ->
  (forall u' d' t', (from <= t')%Z ->
     List.filter (PreKeyModel.available u' d' t') c1 = List.filter (PreKeyModel.available u' d' t') c2) ->
  snd (allDeviceKeys target r t devs c1) = snd (allDeviceKeys target r t devs c2).
Proof.
  induction devs as [|dv devs IH]; intros c1 c2 Ht Hsame; [reflexivity|].
  rewrite !allDeviceKeys_cons. cbn [snd].
  destruct (deviceKeys_same_offers from target r t dv c1 c2 Ht Hsame)
    as [Hhd Htl].
  rewrite Hhd. f_equal. now apply IH.
Qed.

(** X5: a cleanup changes nothing about what later fetches return: for
    every target and requester, [getUserKeys] answers after
    [cleanupExpiredPreKeys] as it would have answered without it. *)
Theorem cleanup_invisible_to_fetches u d now db target r t :
  (now <= t)%Z ->
  snd (getUserKeys target r t (fst (cleanupExpiredPreKeys u d now db)))
  = snd (getUserKeys target r t db).
Proof.
  intros Ht. unfold getUserKeys, cleanupExpiredPreKeys.
  cbn [fst set_preKeys users devices preKeys nextId].
  destruct (User_findById target (users db)) as [usr|]; [|reflexivity].
  pose proof (allDeviceKeys_same_offers now target r t
                (List.filter (activeDevice target) (devices db))
                (List.filter (fun k => negb (dead u d now k)) (preKeys db))
                (preKeys db) Ht) as Hsame.
  destruct (allDeviceKeys target r t _ (List.filter _ (preKeys db)))
    as [c1 es1].
  destruct (allDeviceKeys target r t _ (preKeys db)) as [c2 es2].
  cbn [snd] in *. rewrite Hsame; [reflexivity|].
  intros u' d' t' Ht'. apply filter_filter_absorb.
  intros k _ Hk. unfold PreKeyModel.available in Hk. unfold dead.
  apply andb_true_iff in Hk as [Hk Hlt]. apply andb_true_iff in Hk as [_ Hun].
  apply negb_true_iff in Hun. apply Z.ltb_lt in Hlt. rewrite Hun.
  apply negb_true_iff. rewrite orb_false_r.
  apply andb_false_iff. right. apply Z.leb_gt. lia.
Qed.

Lemma cleanup_invisible_to_fetches_witness :
  snd (getUserKeys bob alice 2000
         (fst (cleanupExpiredPreKeys bob "bob-phone" 1500
                 (fst (getUserKeys bob carol 1200
                         (fst (registerPreKeys None bob "bob-phone"
                                 ten_prekeys 1000 keydb0)))))))
  = snd (getUserKeys bob alice 2000
           (fst (getUserKeys bob carol 1200
                   (fst (registerPreKeys None bob "bob-phone"
                           ten_prekeys 1000 keydb0))))).
Proof.
  apply (cleanup_invisible_to_fetches bob "bob-phone" 1500 _ bob alice 2000).
  lia.
Defined.

(** X6: a rotation that supplies prekeys replaces the unused pool of
    the device: afterwards every unused prekey of the device was stored
    by this rotation from the supplied list, while the used prekeys of
    the device and all prekeys of other devices are kept. *)
Theorem rotation_replaces_unused_pool env u d nk now db dv pk pks :
  List.find (live_device u d) (devices db) = Some dv ->
  nk_preKeys nk = Some (pk :: pks) ->
  let out := rotateDeviceKeys env u d nk now db in
  snd out = Ok "Keys rotated successfully"
  /\ (forall k, In k (preKeys (fst out)) -> unused_of u d k = true ->
        pk_createdAt k = now
        /\ exists p, In p (pk :: pks) /\ keyId k = pkd_keyId p
                     /\ pk_publicKey k = pkd_publicKey p)
  /\ List.filter (fun k => negb (unused_of u d k)) (preKeys (fst out))
     = List.filter (fun k => negb (unused_of u d k)) (preKeys db).
Proof.
  intros Hdev Hpks. unfold rotateDeviceKeys. rewrite Hdev, Hpks.
  cbn [fst snd]. split; [reflexivity|].
  unfold registerPreKeys.
  cbn [set_preKeys set_devices preKeys nextId devices users].
  destruct (insertMany_appends u d
              (now + expirationDays env * 24 * 60 * 60 * 1000)%Z now
              (pk :: pks)
              (List.filter (fun k => negb (unused_of u d k)) (preKeys db))
              (nextId db))
    as (added & Heq & _ & Hall & _ & _).
  rewrite Heq. cbn [fst preKeys]. split.
  - intros k Hin Hun. apply List.in_app_or in Hin as [Hin|Hin].
    + apply List.filter_In in Hin as [_ Hin]. rewrite Hun in Hin. discriminate.
    + rewrite List.Forall_forall in Hall.
      destruct (Hall k Hin) as (_ & _ & _ & _ & Hc & Hp). now split.
  - cbn [preKeys set_preKeys].
    rewrite List.filter_app, filter_filter_and.
    rewrite (filter_none _ added).
    + rewrite List.app_nil_r. apply List.filter_ext. intros k.
      now destruct (unused_of u d k).
    + intros k Hk. rewrite List.Forall_forall in Hall.
      destruct (Hall k Hk) as (Hu & Hd & Hun & _).
      unfold unused_of. now rewrite Hu, Hd, Hun, !String.eqb_refl.
Qed.

Lemma rotation_replaces_unused_pool_witness :
  List.map keyId
    (preKeys
       (fst (rotateDeviceKeys None bob "bob-phone"
               {| nk_publicKey := None; nk_signedPreKey := None;
                  nk_preKeys := Some [prekey 21; prekey 22] |} 5000
               (fst (getUserKeys bob carol 1200
                       (fst (registerPreKeys None bob "bob-phone"
                               ten_prekeys 1000 keydb0)))))))
  = [1; 21; 22]%Z
  /\ snd (rotateDeviceKeys None bob "bob-phone"
            {| nk_publicKey := None; nk_signedPreKey := None;
               nk_preKeys := Some [prekey 21; prekey 22] |} 5000
            (fst (getUserKeys bob carol 1200
                    (fst (registerPreKeys None bob "bob-phone"
                            ten_prekeys 1000 keydb0)))))
     = Ok "Keys rotated successfully".
Proof.
  split; [reflexivity|].
  apply (rotation_replaces_unused_pool None bob "bob-phone"
           {| nk_publicKey := None; nk_signedPreKey := None;
              nk_preKeys := Some [prekey 21; prekey 22] |} 5000 _
           bob_phone (prekey 21) [prekey 22]); reflexivity.
Defined.

End KeyStoreFacts.

(** ** Invariants of the key store *)

Section KeyStoreInvariants.

Import KeyService PreKeyModel KeyMaintenance AuthService.

Lemma map_update_first_same {A B} (g : A -> B) (p : A -> bool) (c : A)
    (l : list A) :
  (forall x, p x = true -> g x = g c) ->
  List.map g (update_first p (fun _ => c) l) = List.map g l.
Proof.
  intros H. induction l as [|x l IH]; simpl; [reflexivity|].
  destruct (p x) eqn:Hp; simpl; [now rewrite (H x Hp)|now rewrite IH].
Qed.

Lemma NoDup_map_filter {A B} (g : A -> B) (p : A -> bool) (l : list A) :
  List.NoDup (List.map g l) -> List.NoDup (List.map g (List.filter p l)).
Proof.
  induction l as [|x l IH]; simpl; intros H; [constructor|].
  apply List.NoDup_cons_iff in H as [Hx H].
  destruct (p x); simpl; [|now apply IH].
  constructor; [|now apply IH].
  intros Hin. apply Hx. apply List.in_map_iff in Hin as (y & Hy & Hin).
  apply List.filter_In in Hin as [Hin _]. rewrite <- Hy. now apply List.in_map.
Qed.

Lemma markAsUsed_index k r t coll :
  List.map index_key (markAsUsed k r t coll) = List.map index_key coll.
Proof.
  unfold markAsUsed. rewrite List.map_map. apply List.map_ext.
  intros x. now destruct (Nat.eqb (pk_id x) (pk_id k)).
Qed.

Lemma allDeviceKeys_maps target r t devs : forall coll,
  List.map pk_id (fst (allDeviceKeys target r t devs coll)) = List.map pk_id coll
  /\ List.map index_key (fst (allDeviceKeys target r t devs coll))
     = List.map index_key coll
  /\ List.map dk_deviceId (snd (allDeviceKeys target r t devs coll))
     = List.map dev_deviceId devs.
Proof.
  induction devs as [|dv devs IH]; intros coll; [now repeat split|].
  rewrite allDeviceKeys_cons. cbn [fst snd List.map].
  destruct (IH (fst (deviceKeys target r t dv coll))) as (H1 & H2 & H3).
  rewrite H1, H2, H3. unfold deviceKeys. cbn [fst snd entry dk_deviceId].
  destruct (getAvailablePreKey target (dev_deviceId dv) t coll);
    now rewrite ?markAsUsed_ids, ?markAsUsed_index.
Qed.

Lemma Forall_ids n (l : list PreKey) :
  Forall (fun k => (pk_id k < n)%nat) l
  <-> Forall (fun i => (i < n)%nat) (List.map pk_id l).
Proof. symmetry. apply List.Forall_map. Qed.

Lemma indexes_same_maps db db' :
  List.map dev_deviceId (devices db') = List.map dev_deviceId (devices db) ->
  List.map index_key (preKeys db') = List.map index_key (preKeys db) ->
  List.map pk_id (preKeys db') = List.map pk_id (preKeys db) ->
  nextId db' = nextId db ->
  indexes_hold db -> indexes_hold db'.
Proof.
  unfold indexes_hold. intros Hd Hk Hi Hn (H1 & H2 & H3 & H4).
  rewrite Hd, Hk, Hi, Hn. repeat split; try assumption.
  apply Forall_ids. rewrite Hi. now apply Forall_ids.
Qed.

Lemma indexes_filter db p :
  indexes_hold db ->
  indexes_hold (set_preKeys db (List.filter p (preKeys db)) (nextId db)).
Proof.
  unfold indexes_hold. intros (H1 & H2 & H3 & H4).
  cbn [set_preKeys devices preKeys nextId].
  repeat split; auto using NoDup_map_filter.
  apply List.Forall_forall. intros k Hk. apply List.filter_In in Hk as [Hk _].
  rewrite List.Forall_forall in H4. now apply H4.
Qed.

Lemma indexes_insertMany u d exp now pks db :
  indexes_hold db ->
  indexes_hold
    (set_preKeys db
       (fst (insertMany u d exp now pks (preKeys db) (nextId db)))
       (snd (insertMany u d exp now pks (preKeys db) (nextId db)))).
Proof.
  unfold indexes_hold. intros (H1 & H2 & H3 & H4).
  destruct (insertMany_appends u d exp now pks (preKeys db) (nextId db))
    as (added & Heq & _ & _ & Hids & Hnd).
  rewrite Heq. cbn [fst snd set_preKeys devices preKeys nextId].
  repeat split; auto.
  - rewrite List.map_app, Hids. apply List.NoDup_app; auto using List.seq_NoDup.
    intros i Hi Hseq. apply List.in_seq in Hseq.
    apply List.in_map_iff in Hi as (k & <- & Hk).
    rewrite List.Forall_forall in H4. specialize (H4 k Hk). lia.
  - apply Forall_ids. rewrite List.map_app, Hids.
    apply List.Forall_app. split.
    + apply Forall_ids. eapply List.Forall_impl; [|exact H4].
      intros k Hk. simpl in *. lia.
    + apply List.Forall_forall. intros i Hi. apply List.in_seq in Hi. lia.
Qed.

Lemma indexes_registerPreKeys env u d pks now db :
  indexes_hold db -> indexes_hold (fst (registerPreKeys env u d pks now db)).
Proof.
  intros H. unfold registerPreKeys.
  pose proof (indexes_insertMany u d
                (now + expirationDays env * 24 * 60 * 60 * 1000)%Z now pks db H)
    as Hi.
  now destruct (insertMany u d _ now pks (preKeys db) (nextId db)).
Qed.

Lemma is_device_deviceId u d x : is_device u d x = true -> dev_deviceId x = d.
Proof.
  unfold is_device. intros H. apply andb_true_iff in H as [_ H].
  now apply String.eqb_eq.
Qed.

Lemma Device_save_NoDup isNew dv l devs :
  List.NoDup (List.map dev_deviceId l) ->
  Device_save isNew dv l = Ok devs ->
  List.NoDup (List.map dev_deviceId devs).
Proof.
  intros Hnd. unfold Device_save. destruct isNew.
  - destruct (String.eqb (dev_deviceId dv) EmptyString); [discriminate|].
    destruct (negb _); [discriminate|].
    destruct (existsb _ l) eqn:He; [discriminate|].
    intros H. injection H as <-. rewrite List.map_app. apply NoDup_snoc; auto.
    intros Hin. apply List.in_map_iff in Hin as (x & Hx & Hin).
    assert (existsb (fun d' => String.eqb (dev_deviceId d') (dev_deviceId dv)) l
            = true).
    { apply List.existsb_exists. exists x. split; [exact Hin|].
      now apply String.eqb_eq. }
    congruence.
  - intros H. injection H as <-.
    rewrite map_update_first_same; [exact Hnd|].
    intros x Hx. now apply is_device_deviceId in Hx.
Qed.

Lemma indexes_set_devices db devs :
  List.NoDup (List.map dev_deviceId devs) ->
  indexes_hold db -> indexes_hold (set_devices db devs).
Proof. unfold indexes_hold. intros Hd (_ & H2 & H3 & H4). now repeat split. Qed.

Lemma indexes_set_users db us :
  indexes_hold db -> indexes_hold (set_users db us).
Proof. unfold indexes_hold. intros (H1 & H2 & H3 & H4). now repeat split. Qed.

Lemma indexes_registerDeviceKeys env u kd now db :
  indexes_hold db ->
  indexes_hold (fst (registerDeviceKeys env u kd now db)).
Proof.
  intros H. unfold registerDeviceKeys. cbv zeta.
  destruct (negb (isValidBase64 (kd_publicKey kd))); [exact H|].
  destruct (kd_signedPreKey kd) as [spk|]; [|exact H].
  match goal with
  | |- context [match ?saved with Ok _ => _ | Throw _ => _ end] =>
      destruct saved as [devs|e] eqn:Hsaved
  end; [|exact H].
  assert (Hdevs : List.NoDup (List.map dev_deviceId devs)).
  { destruct H as (Hd & _).
    destruct (List.find (is_device u (kd_deviceId kd)) (devices db));
      eapply Device_save_NoDup; eauto. }
  pose proof (indexes_set_devices db devs Hdevs H) as H1.
  match goal with
  | |- context [match ?identity with Ok _ => _ | Throw _ => _ end] =>
      destruct identity as [us|e]
  end; [|exact H1].
  pose proof (indexes_set_users _ us H1) as H2.
  cbn [fst].
  destruct (kd_preKeys kd) as [[|pk pks]|]; try exact H2.
  now apply indexes_registerPreKeys.
Qed.

Lemma indexes_getUserKeys target r t db :
  indexes_hold db -> indexes_hold (fst (getUserKeys target r t db)).
Proof.
  intros H. unfold getUserKeys.
  destruct (User_findById target (users db)); [|exact H].
  pose proof (allDeviceKeys_maps target r t
                (List.filter (activeDevice target) (devices db)) (preKeys db))
    as (Hi & Hk & _).
  destruct (allDeviceKeys target r t _ (preKeys db)) as [coll es].
  cbn [fst] in *. now apply (indexes_same_maps db).
Qed.

Lemma live_device_deviceId u d x : live_device u d x = true -> dev_deviceId x = d.
Proof.
  unfold live_device. intros H. apply andb_true_iff in H as [H _].
  now apply is_device_deviceId in H.
Qed.

Lemma find_some_p {A} (p : A -> bool) (l : list A) x :
  List.find p l = Some x -> p x = true.
Proof. intros H. now apply List.find_some in H. Qed.

Lemma indexes_rotateDeviceKeys env u d nk now db :
  indexes_hold db ->
  indexes_hold (fst (rotateDeviceKeys env u d nk now db)).
Proof.
  intros H. unfold rotateDeviceKeys. cbv zeta.
  destruct (List.find (live_device u d) (devices db)) as [dv|] eqn:Hf;
    [|exact H].
  cbn [fst].
  match goal with
  | |- context [set_devices db ?devs] =>
      assert (H1 : indexes_hold (set_devices db devs))
  end.
  { apply indexes_set_devices; [|exact H].
    rewrite map_update_first_same; [now destruct H|].
    intros x Hx. cbn [dev_deviceId].
    apply live_device_deviceId in Hx. apply find_some_p in Hf.
    apply live_device_deviceId in Hf. congruence. }
  destruct (nk_preKeys nk) as [[|pk pks]|]; try exact H1.
  apply indexes_registerPreKeys.
  now apply (indexes_filter (set_devices db _)).
Qed.

Lemma indexes_revokeDevice u d db :
  indexes_hold db -> indexes_hold (fst (revokeDevice u d db)).
Proof.
  intros H. unfold revokeDevice.
  destruct (List.find (is_device u d) (devices db)) as [dv|] eqn:Hf;
    [|exact H].
  cbn [fst]. apply indexes_set_devices; [|exact H].
  rewrite map_update_first_same; [now destruct H|].
  intros x Hx. cbn [revoke set_flags dev_deviceId].
  apply is_device_deviceId in Hx. apply find_some_p in Hf.
  apply is_device_deviceId in Hf. congruence.
Qed.

Lemma indexes_logout u d now db :
  indexes_hold db -> indexes_hold (logout u d now db).
Proof.
  intros H. unfold logout. cbv zeta. apply indexes_set_users.
  apply indexes_set_devices; [|exact H].
  destruct (List.find (is_device u d) (devices db)) as [dv|] eqn:Hf;
    [|now destruct H].
  rewrite map_update_first_same; [now destruct H|].
  intros x Hx. cbn [set_flags dev_deviceId].
  apply is_device_deviceId in Hx. apply find_some_p in Hf.
  apply is_device_deviceId in Hf. congruence.
Qed.

Lemma indexes_applyKeyOp now op db :
  indexes_hold db -> indexes_hold (applyKeyOp now op db).
Proof.
  intros H. destruct op; cbn [applyKeyOp].
  - now apply indexes_registerDeviceKeys.
  - now apply indexes_registerPreKeys.
  - now apply indexes_getUserKeys.
  - now apply indexes_rotateDeviceKeys.
  - now apply (indexes_filter db).
  - now apply indexes_revokeDevice.
  - now apply indexes_logout.
Qed.

Lemma indexes_runKeyOps ops : forall db,
  indexes_hold db -> indexes_hold (runKeyOps ops db).
Proof.
  unfold runKeyOps. induction ops as [|op ops IH]; intros db H; [exact H|].
  cbn [fold_left]. apply IH. now apply indexes_applyKeyOp.
Qed.

(** X7: the unique indexes of the key store survive every sequence of
    key-service calls, whether the calls return or throw: no two devices
    share a [deviceId], no two prekeys share [(userId, deviceId, keyId)]
    or an [_id]. *)
Theorem key_store_indexes_preserved ops db :
  indexes_hold db -> indexes_hold (runKeyOps ops db).
Proof. apply indexes_runKeyOps. Qed.

Lemma key_store_indexes_preserved_witness :
  indexes_hold
    (runKeyOps
       [(1000, RegisterPreKeys None bob "bob-phone" (prekey 1 :: ten_prekeys));
        (1200, GetUserKeys bob carol);
        (1300, RegisterDeviceKeys None carol malformed_rest);
        (1400, RotateDeviceKeys None bob "bob-phone"
                 {| nk_publicKey := None; nk_signedPreKey := None;
                    nk_preKeys := Some [prekey 1; prekey 2] |});
        (1500, RevokeDevice bob "bob-phone")]%Z
       keydb0).
Proof.
  apply key_store_indexes_preserved.
  repeat split; repeat constructor. intros [].
Defined.

Lemma update_first_const_as {A} (p : A -> bool) (c : A) (F : A -> A) l x :
  List.find p l = Some x -> F x = c ->
  update_first p (fun _ => c) l = update_first p F l.
Proof.
  intros Hf Hc. induction l as [|a l IH]; simpl in *; [reflexivity|].
  destruct (p a).
  - injection Hf as ->. now rewrite Hc.
  - f_equal. now apply IH.
Qed.

Lemma const_rewrite_keeps_revocation p c l x :
  List.find p l = Some x ->
  dev_userId c = dev_userId x -> dev_deviceId c = dev_deviceId x ->
  (isRevoked x = true -> isRevoked c = true) ->
  rewritten keeps_revocation l (update_first p (fun _ => c) l).
Proof.
  intros Hf Hu Hd Hr. right. right. exists p.
  exists (fun y =>
            {| dev_userId := dev_userId y; dev_deviceId := dev_deviceId y;
               deviceName := deviceName c; deviceType := deviceType c;
               dev_publicKey := dev_publicKey c;
               dev_signedPreKey := dev_signedPreKey c;
               dev_isActive := dev_isActive c;
               isRevoked := isRevoked y || isRevoked c |}).
  split.
  - intros y. cbn. repeat split. now intros ->.
  - apply (update_first_const_as p c _ l x Hf).
    destruct c as [cu cd cn ct cp cs ca cr]. cbn in *. subst cu cd.
    f_equal. destruct (isRevoked x); [now rewrite Hr|reflexivity].
Qed.

Lemma const_rewrite_keeps_identity p c l x :
  List.find p l = Some x ->
  user_id c = user_id x ->
  (truthy (identityPublicKey x) = true ->
   identityPublicKey c = identityPublicKey x) ->
  rewritten keeps_identity l (update_first p (fun _ => c) l).
Proof.
  intros Hf Hu Hi. right. right. exists p.
  exists (fun y =>
            {| user_id := user_id y;
               identityPublicKey :=
                 if truthy (identityPublicKey y) then identityPublicKey y
                 else identityPublicKey c;
               user_signedPreKey := user_signedPreKey c;
               isOnline := isOnline c; lastSeen := lastSeen c |}).
  split.
  - intros y. cbn. split; [reflexivity|]. now intros ->.
  - apply (update_first_const_as p c _ l x Hf).
    destruct c as [cu ci cs co cl]. cbn in *. subst cu.
    f_equal. destruct (truthy (identityPublicKey x)); [|reflexivity].
    symmetry. now apply Hi.
Qed.

Lemma registerPreKeys_rest env u d pks now db :
  devices (fst (registerPreKeys env u d pks now db)) = devices db
  /\ users (fst (registerPreKeys env u d pks now db)) = users db.
Proof.
  unfold registerPreKeys.
  now destruct (insertMany u d _ now pks (preKeys db) (nextId db)).
Qed.

Lemma getUserKeys_rest target r t db :
  devices (fst (getUserKeys target r t db)) = devices db
  /\ users (fst (getUserKeys target r t db)) = users db.
Proof.
  unfold getUserKeys. destruct (User_findById target (users db)); [|now split].
  now destruct (allDeviceKeys target r t _ (preKeys db)).
Qed.

Lemma Device_save_false dv l :
  Device_save false dv l
  = Ok (update_first (is_device (dev_userId dv) (dev_deviceId dv))
          (fun _ => dv) l).
Proof. reflexivity. Qed.

Ltac split_on_preKeys tac :=
  match goal with
  | |- context [kd_preKeys ?kd] => destruct (kd_preKeys kd) as [[|? ?]|]
  end;
  rewrite ?(proj1 (registerPreKeys_rest _ _ _ _ _ _)),
    ?(proj2 (registerPreKeys_rest _ _ _ _ _ _));
  tac.

Ltac identity_and_prekeys Hdev :=
  cbn [set_devices users devices];
  match goal with
  | |- context [truthy (kd_identityPublicKey ?kd)] =>
      destruct (truthy (kd_identityPublicKey kd))
  end;
  [ match goal with
    | |- context [User_findById ?u (users ?db)] =>
        let Hu := fresh "Hu" in
        destruct (User_findById u (users db)) eqn:Hu;
        [|split; [exact Hdev|now left]]
    end;
    match goal with
    | Hu : User_findById _ _ = Some ?usr |- _ =>
        let Hset := fresh "Hset" in
        destruct (truthy (identityPublicKey usr)) eqn:Hset; cbn [fst];
        [ split_on_preKeys ltac:(split; [exact Hdev|now left])
        | match goal with
          | |- context [update_first ?p (fun _ => set_identity usr ?k) ?l] =>
              let Hus := fresh "Hus" in
              assert (Hus : rewritten keeps_identity l
                              (update_first p (fun _ => set_identity usr k) l))
                by (apply (const_rewrite_keeps_identity _ _ _ usr Hu);
                    [reflexivity|intros; congruence]);
              split_on_preKeys ltac:(split; [exact Hdev|exact Hus])
          end ]
    end
  | cbn [fst]; split_on_preKeys ltac:(split; [exact Hdev|now left]) ].

(** What [registerDeviceKeys] may do to devices and to users. *)
Lemma registerDeviceKeys_rewrites env u kd now db :
  rewritten keeps_revocation (devices db)
    (devices (fst (registerDeviceKeys env u kd now db)))
  /\ rewritten keeps_identity (users db)
       (users (fst (registerDeviceKeys env u kd now db))).
Proof.
  unfold registerDeviceKeys. cbv zeta.
  destruct (negb (isValidBase64 (kd_publicKey kd))); [split; now left|].
  destruct (kd_signedPreKey kd) as [spk|]; [|split; now left].
  destruct (List.find (is_device u (kd_deviceId kd)) (devices db))
    as [device|] eqn:Hf.
  - rewrite Device_save_false. cbn [dev_userId dev_deviceId].
    assert (Hids : is_device (dev_userId device) (dev_deviceId device)
                   = is_device u (kd_deviceId kd)).
    { apply find_some_p in Hf. unfold is_device in Hf.
      apply andb_true_iff in Hf as [Hu Hd].
      apply String.eqb_eq in Hu, Hd. now rewrite Hu, Hd. }
    rewrite Hids.
    match goal with
    | |- context [update_first ?p (fun _ => ?c) (devices db)] =>
        assert (Hdev : rewritten keeps_revocation (devices db)
                         (update_first p (fun _ => c) (devices db)))
          by (apply (const_rewrite_keeps_revocation _ _ _ device); auto)
    end.
    identity_and_prekeys Hdev.
  - unfold Device_save.
    repeat match goal with
           | |- context [if ?b then Throw _ else _] =>
               destruct b; [split; now left|]
           end.
    match goal with
    | |- context [set_devices db (?l ++ [?c])%list] =>
        assert (Hdev : rewritten keeps_revocation l (l ++ [c])%list)
          by (right; left; eauto)
    end.
    identity_and_prekeys Hdev.
Qed.

Lemma rotateDeviceKeys_rewrites env u d nk now db :
  rewritten keeps_revocation (devices db)
    (devices (fst (rotateDeviceKeys env u d nk now db)))
  /\ users (fst (rotateDeviceKeys env u d nk now db)) = users db.
Proof.
  unfold rotateDeviceKeys. cbv zeta.
  destruct (List.find (live_device u d) (devices db)) as [dv|] eqn:Hf;
    [|split; [now left|reflexivity]].
  cbn [fst].
  match goal with
  | |- context [update_first ?p (fun _ => ?c) (devices db)] =>
      assert (Hdev : rewritten keeps_revocation (devices db)
                       (update_first p (fun _ => c) (devices db)))
        by (apply (const_rewrite_keeps_revocation _ _ _ dv); auto)
  end.
  destruct (nk_preKeys nk) as [[|pk pks]|];
    rewrite ?(proj1 (registerPreKeys_rest _ _ _ _ _ _)),
      ?(proj2 (registerPreKeys_rest _ _ _ _ _ _));
    (split; [exact Hdev|reflexivity]).
Qed.

Lemma applyKeyOp_rewrites now op db :
  rewritten keeps_revocation (devices db) (devices (applyKeyOp now op db))
  /\ rewritten keeps_identity (users db) (users (applyKeyOp now op db)).
Proof.
  destruct op; cbn [applyKeyOp].
  - apply registerDeviceKeys_rewrites.
  - destruct (registerPreKeys_rest env userId deviceId preKeys0 now db)
      as [-> ->]. split; now left.
  - destruct (getUserKeys_rest targetUserId requestingUserId0 now db)
      as [-> ->]. split; now left.
  - destruct (rotateDeviceKeys_rewrites env userId deviceId newKeyData now db)
      as [H ->]. split; [exact H|now left].
  - split; now left.
  - unfold revokeDevice.
    destruct (List.find (is_device userId deviceId) (devices db))
      as [dv|] eqn:Hf; [|split; now left].
    split; [|now left]. cbn [fst set_devices devices].
    apply (const_rewrite_keeps_revocation _ _ _ dv); auto.
  - unfold logout. cbv zeta. cbn [set_users set_devices devices users]. split.
    + destruct (List.find (is_device userId deviceId) (devices db))
        as [dv|] eqn:Hf; [|now left].
      apply (const_rewrite_keeps_revocation _ _ _ dv); auto.
    + destruct (Nat.eqb _ 0); [|now left].
      right. right. unfold PresenceService.User_findByIdAndUpdate.
      eexists _, _. split; [|reflexivity].
      intros x. cbn. now split.
Qed.

Lemma In_update_first {A} (p : A -> bool) (F : A -> A) (l : list A) y :
  In y l -> In y (update_first p F l) \/ In (F y) (update_first p F l).
Proof.
  induction l as [|a l IH]; simpl; [tauto|].
  intros [<-|Hy]; destruct (p a); simpl; tauto.
Qed.

Lemma revoked_rewritten u d (l l' : list Device) :
  rewritten keeps_revocation l l' ->
  (exists dv, In dv l /\ is_device u d dv = true /\ isRevoked dv = true) ->
  exists dv, In dv l' /\ is_device u d dv = true /\ isRevoked dv = true.
Proof.
  intros [->|[[x ->]|(p & F & HF & ->)]] (dv & Hin & Hd & Hr).
  - eauto.
  - exists dv. split; [apply List.in_or_app; now left|now split].
  - destruct (In_update_first p F l dv Hin) as [H|H]; [eauto|].
    exists (F dv). destruct (HF dv) as (Hu & Hdv & Hrv).
    split; [exact H|]. split; [|now apply Hrv].
    unfold is_device in *. now rewrite Hu, Hdv.
Qed.

Lemma find_update_first_q {A} (p q : A -> bool) (F : A -> A) (l : list A) x :
  (forall y, q (F y) = q y) ->
  List.find q l = Some x ->
  List.find q (update_first p F l) = Some x
  \/ List.find q (update_first p F l) = Some (F x).
Proof.
  intros Hq. induction l as [|a l IH]; simpl; [discriminate|].
  destruct (p a); simpl.
  - rewrite Hq. destruct (q a); intros H; [injection H as ->|]; tauto.
  - destruct (q a); intros H; tauto.
Qed.

Lemma find_app_some {A} (q : A -> bool) (l l2 : list A) x :
  List.find q l = Some x -> List.find q (l ++ l2) = Some x.
Proof.
  induction l as [|a l IH]; simpl; [discriminate|].
  now destruct (q a).
Qed.

Lemma identity_rewritten u (l l' : list User) x :
  rewritten keeps_identity l l' ->
  User_findById u l = Some x -> truthy (identityPublicKey x) = true ->
  exists x', User_findById u l' = Some x'
             /\ identityPublicKey x' = identityPublicKey x.
Proof.
  unfold User_findById.
  intros [->|[[y ->]|(p & F & HF & ->)]] Hf Ht.
  - eauto.
  - exists x. split; [now apply find_app_some|reflexivity].
  - destruct (find_update_first_q p (fun u0 => String.eqb (user_id u0) u) F l x)
      as [H|H]; auto.
    + intros y. now rewrite (proj1 (HF y)).
    + eauto.
    + exists (F x). split; [exact H|]. now apply (HF x).
Qed.

Lemma revoked_runKeyOps u d ops : forall db,
  revoked u d db -> revoked u d (runKeyOps ops db).
Proof.
  unfold runKeyOps. induction ops as [|[t op] ops IH]; intros db H; [exact H|].
  cbn [fold_left fst snd]. apply IH. unfold revoked in *.
  eapply revoked_rewritten; [|exact H]. apply applyKeyOp_rewrites.
Qed.

Lemma find_none_all {A} (p : A -> bool) (l : list A) :
  (forall x, In x l -> p x = false) -> List.find p l = None.
Proof.
  induction l as [|a l IH]; simpl; intros H; [reflexivity|].
  rewrite (H a) by now left. apply IH. intros x Hx. apply H. now right.
Qed.

Lemma In_update_first_found {A} (p : A -> bool) (c : A) (l : list A) x :
  List.find p l = Some x -> In c (update_first p (fun _ => c) l).
Proof.
  induction l as [|a l IH]; simpl; [discriminate|].
  destruct (p a); intros H; [now left|right; now apply IH].
Qed.

(** X8: revocation is final.  Once [revokeDevice] has succeeded for a
    device of a store whose indexes hold, then after any further
    key-service calls (registrations, rotations, sign-outs, ...) a
    rotation of that device is refused with the store left alone, and no
    bundle of any fetch lists the device. *)
Theorem revocation_is_final u d db ops :
  indexes_hold db ->
  snd (revokeDevice u d db) = Ok "Device revoked successfully" ->
  let db' := runKeyOps ops (fst (revokeDevice u d db)) in
  (forall env nk t,
     rotateDeviceKeys env u d nk t db'
     = (db', Throw (Error "Device not found or revoked")))
  /\ (forall target r t b,
        snd (getUserKeys target r t db') = Ok b ->
        ~ In d (List.map dk_deviceId (b_devices b))).
Proof.
  intros Hidx Hok db'.
  assert (Hrev : revoked u d db').
  { apply revoked_runKeyOps. unfold revokeDevice in *.
    destruct (List.find (is_device u d) (devices db)) as [dv|] eqn:Hf;
      [|discriminate].
    cbn [fst set_devices]. unfold revoked. cbn [devices].
    exists (revoke dv). pose proof (find_some_p _ _ _ Hf) as Hp. split.
    - eapply In_update_first_found, Hf.
    - now split. }
  assert (Hidx' : indexes_hold db').
  { apply indexes_runKeyOps. now apply indexes_revokeDevice. }
  destruct Hrev as (dv & Hin & Hdv & Hr). destruct Hidx' as (Hnd & _).
  assert (Honly : forall x, In x (devices db') -> dev_deviceId x = d -> x = dv).
  { intros x Hx Hd. apply (NoDup_map_In_eq dev_deviceId (devices db')); auto.
    apply is_device_deviceId in Hdv. congruence. }
  split.
  - intros env nk t. unfold rotateDeviceKeys.
    rewrite find_none_all; [reflexivity|].
    intros x Hx. unfold live_device.
    destruct (is_device u d x) eqn:Hxd; [|reflexivity].
    apply is_device_deviceId in Hxd. rewrite (Honly x Hx Hxd), Hr. reflexivity.
  - intros target r t b Hb Hin'. unfold getUserKeys in Hb.
    destruct (User_findById target (users db')); [|discriminate].
    pose proof (allDeviceKeys_maps target r t
                  (List.filter (activeDevice target) (devices db'))
                  (preKeys db')) as (_ & _ & Hids).
    destruct (allDeviceKeys target r t _ (preKeys db')) as [coll es].
    cbn [snd] in *. injection Hb as <-. cbn [b_devices] in Hin'.
    rewrite Hids in Hin'. apply List.in_map_iff in Hin' as (x & Hxd & Hx).
    apply List.filter_In in Hx as [Hx Hact].
    rewrite (Honly x Hx Hxd) in Hact. unfold activeDevice in Hact.
    rewrite Hr in Hact. cbn in Hact. now rewrite andb_false_r in Hact.
Qed.

Lemma keydb0_indexes : indexes_hold keydb0.
Proof. repeat split; repeat constructor. intros []. Qed.

Lemma revocation_is_final_witness :
  let db' := runKeyOps after_revocation
               (fst (revokeDevice bob "bob-phone" keydb0)) in
  option_map dev_isActive
    (List.find (is_device bob "bob-phone") (devices db')) = Some true
  /\ snd (getUserKeys bob alice 3000 db')
     = Ok {| b_userId := bob; b_identityPublicKey := Some "aWRlbnRpdHk=";
             b_signedPreKey := None; b_devices := [] |}
  /\ rotateDeviceKeys None bob "bob-phone"
       {| nk_publicKey := None; nk_signedPreKey := None;
          nk_preKeys := Some [prekey 41] |} 3000 db'
     = (db', Throw (Error "Device not found or revoked")).
Proof.
  split; [reflexivity|]. split; [reflexivity|].
  apply (revocation_is_final bob "bob-phone" keydb0 after_revocation).
  - exact keydb0_indexes.
  - reflexivity.
Defined.

Lemma identity_runKeyOps u ops : forall db x,
  User_findById u (users db) = Some x ->
  truthy (identityPublicKey x) = true ->
  exists x', User_findById u (users (runKeyOps ops db)) = Some x'
             /\ identityPublicKey x' = identityPublicKey x.
Proof.
  unfold runKeyOps. induction ops as [|[t op] ops IH]; intros db x Hf Ht;
    [eauto|].
  cbn [fold_left fst snd].
  destruct (identity_rewritten u (users db) (users (applyKeyOp t op db)) x)
    as (x1 & Hf1 & Hi1); auto; [apply applyKeyOp_rewrites|].
  destruct (IH _ x1 Hf1) as (x' & Hf' & Hi'); [congruence|].
  exists x'. split; [exact Hf'|congruence].
Qed.

(** X9: the identity key is written once.  When a user's
    [identityPublicKey] is set, no sequence of key-service calls, with
    whatever identity keys they carry, changes it. *)
Theorem identity_key_written_once u ops db x :
  User_findById u (users db) = Some x ->
  truthy (identityPublicKey x) = true ->
  exists x', User_findById u (users (runKeyOps ops db)) = Some x'
             /\ identityPublicKey x' = identityPublicKey x.
Proof. apply identity_runKeyOps. Qed.

Lemma identity_key_written_once_witness :
  exists x',
    User_findById carol
      (users (runKeyOps
                [(600, RegisterDeviceKeys None carol malformed_publicKey);
                 (700, RegisterDeviceKeys None carol
                         {| kd_deviceId := "carol-laptop";
                            kd_publicKey := JsString key32;
                            kd_signedPreKey := kd_signedPreKey malformed_publicKey;
                            kd_identityPublicKey := Some "b3RoZXI=";
                            kd_preKeys := None; kd_deviceName := None;
                            kd_deviceType := None |});
                 (800, Logout carol "carol-laptop")]%Z
                (fst (registerDeviceKeys None carol malformed_rest 500 keydb0))))
    = Some x'
    /\ identityPublicKey x' = Some "<identity>".
Proof.
  apply (identity_key_written_once carol _
           (fst (registerDeviceKeys None carol malformed_rest 500 keydb0))
           (set_identity (user carol) "<identity>")); reflexivity.
Defined.

End KeyStoreInvariants.

(** ** Fetches made one after the other *)

Section SequentialFetches.

Import KeyService PreKeyModel.

Lemma consumed_markAsUsed u d kid k r t coll :
  consumed u d kid coll -> consumed u d kid (markAsUsed k r t coll).
Proof.
  intros (k0 & Hin & Hused & Hu & Hd & Hk). unfold markAsUsed.
  exists (if Nat.eqb (pk_id k0) (pk_id k) then used k0 r t else k0).
  split; [apply List.in_map_iff; now exists k0|].
  now destruct (Nat.eqb (pk_id k0) (pk_id k)).
Qed.

Lemma consumed_deviceKeys u d kid target r t dv coll :
  consumed u d kid coll ->
  consumed u d kid (fst (deviceKeys target r t dv coll)).
Proof.
  intros H. unfold deviceKeys. cbn [fst].
  destruct (getAvailablePreKey target (dev_deviceId dv) t coll); [|exact H].
  now apply consumed_markAsUsed.
Qed.

Lemma consumed_allDeviceKeys u d kid target r t devs : forall coll,
  consumed u d kid coll ->
  consumed u d kid (fst (allDeviceKeys target r t devs coll)).
Proof.
  induction devs as [|dv devs IH]; intros coll H; [exact H|].
  rewrite allDeviceKeys_cons. cbn [fst]. now apply IH, consumed_deviceKeys.
Qed.

Lemma available_fields u d t k :
  available u d t k = true ->
  pk_userId k = u /\ pk_deviceId k = d /\ isUsed k = false.
Proof.
  unfold available. intros H.
  apply andb_true_iff in H as [H _]. apply andb_true_iff in H as [H Hun].
  apply andb_true_iff in H as [Hu Hd].
  apply String.eqb_eq in Hu, Hd. apply negb_true_iff in Hun. auto.
Qed.

(** The prekey a callback hands out is stored as used when it is done. *)
Lemma deviceKeys_consumes target r t dv coll o :
  oneTimePreKey (snd (deviceKeys target r t dv coll)) = Some o ->
  consumed target (dev_deviceId dv) (otk_keyId o)
    (fst (deviceKeys target r t dv coll)).
Proof.
  unfold deviceKeys. cbn [fst snd entry oneTimePreKey].
  destruct (getAvailablePreKey target (dev_deviceId dv) t coll) as [k|] eqn:Hk;
    [|discriminate].
  intros H. injection H as <-. cbn [otk_keyId].
  apply getAvailablePreKey_oldest_first in Hk as (Hin & Hav & _).
  apply available_fields in Hav as (Hu & Hd & _).
  exists (used k r t). split.
  - unfold markAsUsed. apply List.in_map_iff. exists k.
    split; [now rewrite Nat.eqb_refl|exact Hin].
  - now repeat split.
Qed.

Lemma allDeviceKeys_consumes target r t devs : forall coll e o,
  In e (snd (allDeviceKeys target r t devs coll)) ->
  oneTimePreKey e = Some o ->
  consumed target (dk_deviceId e) (otk_keyId o)
    (fst (allDeviceKeys target r t devs coll)).
Proof.
  induction devs as [|dv devs IH]; intros coll e o; [intros []|].
  rewrite allDeviceKeys_cons. cbn [fst snd]. intros [<-|Hin] Ho.
  - apply consumed_allDeviceKeys. now apply deviceKeys_consumes.
  - now apply IH.
Qed.

(** A prekey stored as used is not handed out, the unique index on
    [(userId, deviceId, keyId)] given. *)
Lemma allDeviceKeys_fresh target r t d kid devs : forall coll e o,
  List.NoDup (List.map index_key coll) ->
  consumed target d kid coll ->
  In e (snd (allDeviceKeys target r t devs coll)) ->
  dk_deviceId e = d -> oneTimePreKey e = Some o ->
  otk_keyId o <> kid.
Proof.
  induction devs as [|dv devs IH]; intros coll e o Hnd Hc; [intros []|].
  rewrite allDeviceKeys_cons. cbn [fst snd]. intros [<-|Hin] Hd Ho.
  - unfold deviceKeys in Hd, Ho. cbn [snd entry dk_deviceId oneTimePreKey] in *.
    destruct (getAvailablePreKey target (dev_deviceId dv) t coll) as [k2|] eqn:Hk;
      [|discriminate].
    injection Ho as <-. cbn [otk_keyId]. intros Heq.
    apply getAvailablePreKey_oldest_first in Hk as (Hin2 & Hav & _).
    apply available_fields in Hav as (Hu2 & Hd2 & Hun2).
    destruct Hc as (k & Hin & Hused & Hu & Hdk & Hkid).
    assert (Hsame : k = k2).
    { apply (NoDup_map_In_eq index_key coll); auto.
      unfold index_key. congruence. }
    congruence.
  - apply (IH (fst (deviceKeys target r t dv coll)) e o); auto.
    + unfold deviceKeys. cbn [fst].
      destruct (getAvailablePreKey target (dev_deviceId dv) t coll);
        now rewrite ?markAsUsed_index.
    + now apply consumed_deviceKeys.
Qed.

Lemma getUserKeys_cases target r t db :
  (getUserKeys target r t db = (db, Throw (Error "User not found")))
  \/ exists usr,
       getUserKeys target r t db
       = (set_preKeys db
            (fst (allDeviceKeys target r t
                    (List.filter (activeDevice target) (devices db))
                    (preKeys db)))
            (nextId db),
          Ok {| b_userId := target;
                b_identityPublicKey := identityPublicKey usr;
                b_signedPreKey := user_signedPreKey usr;
                b_devices :=
                  snd (allDeviceKeys target r t
                         (List.filter (activeDevice target) (devices db))
                         (preKeys db)) |}).
Proof.
  destruct (User_findById target (users db)) as [usr|] eqn:Hu.
  - right. exists usr. now apply getUserKeys_eq.
  - left. unfold getUserKeys. now rewrite Hu.
Qed.

Lemma fetched_entry d b o :
  fetched d (Ok b) = Some (Some o) ->
  exists e, In e (b_devices b) /\ dk_deviceId e = d /\ oneTimePreKey e = Some o.
Proof.
  unfold fetched.
  destruct (List.find _ (b_devices b)) as [e|] eqn:Hf; [|discriminate].
  cbn. intros H. injection H as H. apply List.find_some in Hf as [Hin Hd].
  apply String.eqb_eq in Hd. eauto.
Qed.

Lemma fetchAll_fresh target d kid reqs : forall db res o,
  List.NoDup (List.map index_key (preKeys db)) ->
  consumed target d kid (preKeys db) ->
  In res (snd (fetchAll target reqs db)) ->
  fetched d res = Some (Some o) ->
  otk_keyId o <> kid.
Proof.
  induction reqs as [|[r t] reqs IH]; intros db res o Hnd Hc; [intros []|].
  rewrite fetchAll_cons. cbn [snd].
  destruct (getUserKeys_cases target r t db) as [Hg|(usr & Hg)];
    rewrite Hg; cbn [fst snd].
  - intros [<-|Hin] Hf; [discriminate|]. now apply (IH db res o).
  - intros [<-|Hin] Hf.
    + apply fetched_entry in Hf as (e & Hin & Hd & Ho). cbn [b_devices] in Hin.
      eapply (allDeviceKeys_fresh target r t d kid); eauto.
    + eapply (IH _ res o); [| |exact Hin|exact Hf]; cbn [preKeys set_preKeys].
      * destruct (allDeviceKeys_maps target r t
                    (List.filter (activeDevice target) (devices db))
                    (preKeys db)) as (_ & Hk & _). now rewrite Hk.
      * now apply consumed_allDeviceKeys.
Qed.

(** X10: fetches made one after the other never hand out one prekey
    twice: with the unique index on [(userId, deviceId, keyId)] in
    place, the [oneTimePreKey]s that any two calls of a sequence of
    [getUserKeys] calls return for a device have different [keyId]s. *)
Theorem sequential_fetches_never_repeat target d reqs : forall db i j ri rj o1 o2,
  List.NoDup (List.map index_key (preKeys db)) ->
  (i < j)%nat ->
  nth_error (snd (fetchAll target reqs db)) i = Some ri ->
  nth_error (snd (fetchAll target reqs db)) j = Some rj ->
  fetched d ri = Some (Some o1) ->
  fetched d rj = Some (Some o2) ->
  otk_keyId o1 <> otk_keyId o2.
Proof.
  induction reqs as [|[r t] reqs IH]; intros db i j ri rj o1 o2 Hnd Hij.
  - destruct i; discriminate.
  - rewrite fetchAll_cons. cbn [snd].
    destruct j as [|j]; [lia|]. cbn [nth_error].
    assert (Hnd1 : List.NoDup
                     (List.map index_key (preKeys (fst (getUserKeys target r t db))))).
    { destruct (getUserKeys_cases target r t db) as [Hg|(usr & Hg)];
        rewrite Hg; cbn [fst preKeys set_preKeys]; [exact Hnd|].
      destruct (allDeviceKeys_maps target r t
                  (List.filter (activeDevice target) (devices db))
                  (preKeys db)) as (_ & Hk & _). now rewrite Hk. }
    destruct i as [|i]; cbn [nth_error].
    + intros Hi Hj H1 H2. injection Hi as <-.
      apply List.nth_error_In in Hj. intros Heq.
      refine (fetchAll_fresh target d (otk_keyId o1) reqs _ rj o2 Hnd1 _ Hj H2 _);
        [|now symmetry].
      destruct (getUserKeys_cases target r t db) as [Hg|(usr & Hg)];
        rewrite Hg in *; cbn [fst snd] in *; [discriminate|].
      apply fetched_entry in H1 as (e & Hin & Hd & Ho). cbn [b_devices] in Hin.
      cbn [preKeys set_preKeys]. rewrite <- Hd.
      now apply allDeviceKeys_consumes.
    + apply IH; [exact Hnd1|lia].
Qed.

Lemma sequential_fetches_never_repeat_witness :
  let results :=
    snd (fetchAll bob eleven_requests
           (fst (KeyService.registerPreKeys None bob "bob-phone"
                   ten_prekeys 1000 keydb0))) in
  let answer n :=
    Ok {| b_userId := bob; b_identityPublicKey := None;
          b_signedPreKey := None;
          b_devices := [entry bob_phone (Some (last_prekey_like n))] |} in
  nth_error results 2 = Some (answer 3%Z)
  /\ nth_error results 7 = Some (answer 8%Z)
  /\ otk_keyId (offered (prekey 3)) <> otk_keyId (offered (prekey 8)).
Proof.
  split; [vm_compute; reflexivity|]. split; [vm_compute; reflexivity|].
  apply (sequential_fetches_never_repeat bob "bob-phone" eleven_requests
           (fst (KeyService.registerPreKeys None bob "bob-phone"
                   ten_prekeys 1000 keydb0)) 2 7
           (Ok {| b_userId := bob; b_identityPublicKey := None;
                  b_signedPreKey := None;
                  b_devices := [entry bob_phone (Some (last_prekey_like 3))] |})
           (Ok {| b_userId := bob; b_identityPublicKey := None;
                  b_signedPreKey := None;
                  b_devices := [entry bob_phone (Some (last_prekey_like 8))] |})).
  - vm_compute. repeat (constructor; [simpl; intuition discriminate|]).
    constructor.
  - lia.
  - vm_compute; reflexivity.
  - vm_compute; reflexivity.
  - vm_compute; reflexivity.
  - vm_compute; reflexivity.
Defined.

End SequentialFetches.

(** ** Reading messages back *)

Section MessageReads.

Import MessageService MessageQueries.

Section Sorting.

Variable before : Message -> Message -> bool.
Hypothesis before_total : forall a b, before a b = true \/ before b a = true.
Hypothesis before_trans :
  forall a b c, before a b = true -> before b c = true -> before a c = true.

Lemma In_insert_by m l y : In y (insert_by before m l) <-> y = m \/ In y l.
Proof.
  induction l as [|x r IH]; simpl; [intuition|].
  destruct (before m x); simpl; [intuition|]. rewrite IH. intuition.
Qed.

Lemma In_sort_by l y : In y (sort_by before l) <-> In y l.
Proof.
  induction l as [|x r IH]; simpl; [tauto|].
  rewrite In_insert_by, IH. intuition.
Qed.



Lemma insert_by_sorted m l :
  StronglySorted (fun a b => before a b = true) l ->
  StronglySorted (fun a b => before a b = true) (insert_by before m l).
Proof.
  induction l as [|x r IH]; simpl; intros Hs.
  - repeat constructor.
  - apply StronglySorted_inv in Hs as [Hr Hx].
    destruct (before m x) eqn:Hmx.
    + constructor; [constructor; assumption|].
      constructor; [exact Hmx|].
      eapply List.Forall_impl; [|exact Hx]. intros y Hy. eauto.
    + constructor; [now apply IH|].
      apply List.Forall_forall. intros y Hy.
      apply In_insert_by in Hy as [->|Hy].
      * destruct (before_total m x); congruence.
      * rewrite List.Forall_forall in Hx. now apply Hx.
Qed.

Lemma sort_by_sorted l :
  StronglySorted (fun a b => before a b = true) (sort_by before l).
Proof.
  induction l as [|x r IH]; simpl; [constructor|now apply insert_by_sorted].
Qed.

Lemma sorted_app_le (l1 l2 : list Message) :
  StronglySorted (fun a b => before a b = true) (l1 ++ l2) ->
  forall x y, In x l1 -> In y l2 -> before x y = true.
Proof.
  induction l1 as [|a l1 IH]; simpl; intros Hs x y Hx Hy; [contradiction|].
  apply StronglySorted_inv in Hs as [Hs Ha]. destruct Hx as [<-|Hx].
  - rewrite List.Forall_forall in Ha. apply Ha, List.in_or_app. now right.
  - now apply IH.
Qed.

Lemma sorted_app_l (l1 l2 : list Message) :
  StronglySorted (fun a b => before a b = true) (l1 ++ l2) ->
  StronglySorted (fun a b => before a b = true) l1.
Proof.
  induction l1 as [|a l1 IH]; simpl; intros Hs; [constructor|].
  apply StronglySorted_inv in Hs as [Hs Ha]. constructor; [now apply IH|].
  rewrite List.Forall_forall in *. intros y Hy. apply Ha, List.in_or_app.
  now left.
Qed.

Lemma In_firstn {A} n (l : list A) x : In x (firstn n l) -> In x l.
Proof.
  intros H. rewrite <- (List.firstn_skipn n l). apply List.in_or_app. now left.
Qed.

(** A page cut from the front of the sorted matches. *)
Lemma page_of_sorted n q (coll : list Message) :
  let page := firstn n (sort_by before (List.filter q coll)) in
  (length page <= n)%nat
  /\ (forall m, In m page -> In m coll /\ q m = true)
  /\ StronglySorted (fun a b => before a b = true) page
  /\ (forall m, In m coll -> q m = true -> ~ In m page ->
        length page = n /\ forall x, In x page -> before x m = true).
Proof.
  set (s := sort_by before (List.filter q coll)).
  pose proof (sort_by_sorted (List.filter q coll)) as Hs. fold s in Hs.
  rewrite <- (List.firstn_skipn n s) in Hs.
  cbv zeta. repeat split.
  - apply List.firstn_le_length.
  - apply In_firstn, In_sort_by, List.filter_In in H. tauto.
  - apply In_firstn, In_sort_by, List.filter_In in H. tauto.
  - eapply sorted_app_l, Hs.
  - assert (Hin : In m (firstn n s ++ skipn n s)).
    { rewrite List.firstn_skipn. apply In_sort_by, List.filter_In. now split. }
    apply List.in_app_or in Hin as [Hin|Hin]; [contradiction|].
    destruct (Nat.le_gt_cases (length s) n) as [Hle|Hgt].
    + rewrite List.skipn_all2 in Hin by exact Hle. contradiction.
    + rewrite List.length_firstn. lia.
  - intros x Hx.
    assert (Hin : In m (firstn n s ++ skipn n s)).
    { rewrite List.firstn_skipn. apply In_sort_by, List.filter_In. now split. }
    apply List.in_app_or in Hin as [Hin|Hin]; [contradiction|].
    eapply sorted_app_le; eauto.
Qed.

End Sorting.

Lemma ascending_total a b : ascending a b = true \/ ascending b a = true.
Proof. unfold ascending. rewrite !Z.leb_le. lia. Qed.

Lemma ascending_trans a b c :
  ascending a b = true -> ascending b c = true -> ascending a c = true.
Proof. unfold ascending. rewrite !Z.leb_le. lia. Qed.



Lemma StronglySorted_impl {A} (R R' : A -> A -> Prop) (l : list A) :
  (forall a b, R a b -> R' a b) -> StronglySorted R l -> StronglySorted R' l.
Proof.
  intros H. induction 1 as [|a l Hs IH Ha]; constructor; [exact IH|].
  eapply List.Forall_impl; [|exact Ha]. auto.
Qed.



(** X11: a page of [getOfflineMessages] holds at most 1000 messages,
    each stored, not deleted, created after the watermark and addressed
    to the user (directly, or by a per-recipient entry); it is ordered
    by creation time, oldest first; and a message that qualifies is
    left out only when the page is full and the message is no older
    than any message of the page. *)
Theorem offline_sync_page userId dev since db :
  let page := getOfflineMessages userId dev since db in
  (length page <= 1000)%nat
  /\ (forall m, In m page ->
        In m (messages db) /\ isDeleted m = false
        /\ (since < createdAt m)%Z /\ addressed_to userId m = true)
  /\ StronglySorted (fun a b => (createdAt a <= createdAt b)%Z) page
  /\ (forall m, In m (messages db) -> isDeleted m = false ->
        (since < createdAt m)%Z -> addressed_to userId m = true ->
        ~ In m page ->
        length page = 1000%nat
        /\ forall x, In x page -> (createdAt x <= createdAt m)%Z).
Proof.
  destruct (page_of_sorted ascending ascending_total ascending_trans 1000
              (offline_query userId since) (messages db))
    as (Hlen & Hsound & Hsorted & Hcut).
  unfold getOfflineMessages. cbv zeta. repeat split.
  - exact Hlen.
  - now apply Hsound.
  - apply Hsound in H as [_ H]. unfold offline_query in H.
    apply andb_true_iff in H as [H _]. apply andb_true_iff in H as [H _].
    now apply negb_true_iff.
  - apply Hsound in H as [_ H]. unfold offline_query in H.
    apply andb_true_iff in H as [H _]. apply andb_true_iff in H as [_ H].
    now apply Z.ltb_lt.
  - apply Hsound in H as [_ H]. unfold offline_query in H.
    now apply andb_true_iff in H as [_ H].
  - eapply StronglySorted_impl; [|exact Hsorted].
    intros a b. unfold ascending. apply Z.leb_le.
  - apply (Hcut m); auto. unfold offline_query.
    rewrite H0, H2. cbn. rewrite andb_true_r. now apply Z.ltb_lt.
  - intros x Hx. apply Z.leb_le.
    apply (proj2 (Hcut m H ltac:(unfold offline_query; rewrite H0, H2; cbn;
                                 rewrite andb_true_r; now apply Z.ltb_lt) H3)).
    exact Hx.
Qed.











Lemma only_rewritten_has_id (l : list Message) mid c x :
  List.NoDup (List.map messageId l) ->
  In x (update_first (fun m => String.eqb (messageId m) mid) (fun _ => c) l) ->
  messageId x = mid -> x = c.
Proof.
  induction l as [|a l IH]; simpl; intros Hnd Hin Hx; [contradiction|].
  apply List.NoDup_cons_iff in Hnd as [Hna Hnd].
  destruct (String.eqb (messageId a) mid) eqn:Ha.
  - destruct Hin as [<-|Hin]; [reflexivity|].
    exfalso. apply Hna. apply String.eqb_eq in Ha. rewrite Ha, <- Hx.
    now apply List.in_map.
  - destruct Hin as [<-|Hin]; [|now apply IH].
    apply String.eqb_neq in Ha. contradiction.
Qed.

(** X15: only the sender deletes a message: for any other user the
    call is refused and the store left alone.  After the sender's
    [deleteMessage] the ciphertext is still stored, flagged as deleted,
    and neither an offline sync nor a conversation history returns the
    message any more. *)
Theorem deleted_message_disappears db mid m now :
  List.NoDup (List.map messageId (messages db)) ->
  findOne mid (messages db) = Some m ->
  let db' := fst (deleteMessage mid (senderId m) now db) in
  (forall other, other <> senderId m ->
     deleteMessage mid other now db
     = (db, Throw (Error "Not authorized to delete this message")))
  /\ (exists m', findOne mid (messages db') = Some m' /\ isDeleted m' = true
                 /\ encryptedContent m' = encryptedContent m)
  /\ (forall u dev since x,
        In x (getOfflineMessages u dev since db') -> messageId x <> mid)
  /\ (forall u o limit b a x,
        In x (getDirectMessages u o limit b a db') -> messageId x <> mid).
Proof.
  intros Hnd Hf. pose proof (findOne_messageId _ _ _ Hf) as Hid.
  cbv zeta. unfold deleteMessage. rewrite Hf, String.eqb_refl. cbn [negb fst].
  cbn [messages set_messages].
  assert (Hgone : forall x, In x (save (softDelete m now) (messages db)) ->
                    messageId x = mid -> isDeleted x = true).
  { intros x Hin Hx. unfold save in Hin. cbn [softDelete messageId] in Hin.
    rewrite Hid in Hin.
    now rewrite (only_rewritten_has_id _ mid _ x Hnd Hin Hx). }
  repeat split.
  - intros other Hother. apply String.eqb_neq in Hother.
    now rewrite String.eqb_sym, Hother.
  - exists (softDelete m now). split; [|now split].
    now apply (findOne_save mid (messages db) m).
  - intros u dev since x Hin Hx. unfold getOfflineMessages in Hin.
    apply In_firstn, In_sort_by, List.filter_In in Hin as [Hin Hq].
    cbn [messages set_messages] in Hin. unfold offline_query in Hq.
    rewrite (Hgone x Hin Hx) in Hq. discriminate.
  - intros u o limit b a x Hin Hx. unfold getDirectMessages in Hin.
    apply List.in_rev, In_firstn, In_sort_by, List.filter_In in Hin as [Hin Hq].
    cbn [messages set_messages] in Hin. unfold direct_query in Hq.
    rewrite (Hgone x Hin Hx) in Hq. cbn in Hq.
    now rewrite andb_false_r in Hq.
Qed.

Lemma deleted_message_disappears_witness :
  deleteMessage "m1" bob 60 db1
  = (db1, Throw (Error "Not authorized to delete this message"))
  /\ getOfflineMessages bob None 0 db1 = [m1]
  /\ getOfflineMessages bob None 0 (fst (deleteMessage "m1" alice 60 db1)) = [].
Proof.
  split; [|split; reflexivity].
  apply (deleted_message_disappears db1 "m1" m1 60);
    [repeat constructor; intros []|reflexivity|discriminate].
Defined.

Lemma update_first_unique (l : list Message) f c :
  List.NoDup (List.map messageId l) -> In f l ->
  update_first (fun m => String.eqb (messageId m) (messageId f)) (fun _ => c) l
  = List.map (fun m => if String.eqb (messageId m) (messageId f) then c else m) l.
Proof.
  induction l as [|a l IH]; simpl; intros Hnd Hin; [reflexivity|].
  apply List.NoDup_cons_iff in Hnd as [Hna Hnd].
  destruct (String.eqb (messageId a) (messageId f)) eqn:Ha.
  - f_equal. symmetry. rewrite <- (List.map_id l) at 2.
    apply List.map_ext_in. intros x Hx.
    destruct (String.eqb (messageId x) (messageId f)) eqn:Hxf; [|reflexivity].
    exfalso. apply Hna. apply String.eqb_eq in Ha, Hxf. rewrite Ha, <- Hxf.
    now apply List.in_map.
  - f_equal. destruct Hin as [->|Hin]; [|now apply IH].
    now rewrite String.eqb_refl in Ha.
Qed.

Lemma existsb_eqb_In (x : string) (l : list string) :
  existsb (String.eqb x) l = true <-> In x l.
Proof.
  rewrite List.existsb_exists. split.
  - intros (y & Hy & He). apply String.eqb_eq in He. now subst.
  - intros H. exists x. split; [exact H|apply String.eqb_refl].
Qed.

Lemma marked_messageId status r d t m :
  messageId (marked status r d t m) = messageId m.
Proof.
  destruct status; simpl;
    [apply markDelivered_messageId|apply markRead_messageId|reflexivity].
Qed.

Lemma save_marked_loop status r d t (fs coll : list Message) :
  List.NoDup (List.map messageId coll) ->
  List.NoDup (List.map messageId fs) ->
  (forall f, In f fs -> In f coll) ->
  fold_left
    (fun coll m =>
       match status with
       | BSdelivered => save (MessageModel.markDelivered m r d t) coll
       | BSread => save (MessageModel.markRead m r d t) coll
       | BSother => coll
       end) fs coll
  = List.map
      (fun m => if existsb (String.eqb (messageId m)) (List.map messageId fs)
                then marked status r d t m else m) coll.
Proof.
  revert coll. induction fs as [|f fs IH]; intros coll Hc Hf Hsub.
  - simpl. now rewrite List.map_id.
  - cbn [fold_left List.map].
    apply List.NoDup_cons_iff in Hf as [Hnf Hf].
    assert (Hstep :
      match status with
      | BSdelivered => save (MessageModel.markDelivered f r d t) coll
      | BSread => save (MessageModel.markRead f r d t) coll
      | BSother => coll
      end
      = List.map (fun m => if String.eqb (messageId m) (messageId f)
                           then marked status r d t f else m) coll).
    { destruct status; unfold save; cbn [marked].
      - rewrite markDelivered_messageId.
        apply update_first_unique; [exact Hc|apply Hsub; now left].
      - rewrite markRead_messageId.
        apply update_first_unique; [exact Hc|apply Hsub; now left].
      - symmetry. erewrite List.map_ext_in; [apply List.map_id|].
        intros m Hm.
        destruct (String.eqb (messageId m) (messageId f)) eqn:E; [|reflexivity].
        apply String.eqb_eq in E. symmetry.
        apply (NoDup_map_In_eq messageId coll); auto. apply Hsub. now left. }
    rewrite Hstep. clear Hstep.
    assert (Hids :
      List.map messageId
        (List.map (fun m => if String.eqb (messageId m) (messageId f)
                            then marked status r d t f else m) coll)
      = List.map messageId coll).
    { rewrite List.map_map. apply List.map_ext. intros m.
      destruct (String.eqb (messageId m) (messageId f)) eqn:E; [|reflexivity].
      apply String.eqb_eq in E. now rewrite marked_messageId. }
    rewrite IH; [|now rewrite Hids|exact Hf|].
    + rewrite List.map_map. apply List.map_ext_in. intros m Hm.
      cbn [existsb].
      destruct (String.eqb (messageId m) (messageId f)) eqn:E.
      * rewrite marked_messageId.
        destruct (existsb (String.eqb (messageId f)) (List.map messageId fs))
          eqn:Ex.
        { apply existsb_eqb_In in Ex. contradiction. }
        cbn [orb]. apply String.eqb_eq in E.
        assert (m = f) as ->; [|reflexivity].
        apply (NoDup_map_In_eq messageId coll); auto. apply Hsub. now left.
      * reflexivity.
    + intros g Hg. apply List.in_map_iff. exists g. split.
      * destruct (String.eqb (messageId g) (messageId f)) eqn:E; [|reflexivity].
        exfalso. apply Hnf. apply String.eqb_eq in E. rewrite <- E.
        now apply List.in_map.
      * apply Hsub. now right.
Qed.

(** X16: with message ids unique in the store, the save loop of
    [bulkUpdateStatus] amounts to one pointwise update: exactly the
    stored messages whose id is listed are marked (as delivered or as
    read; for any other status nothing is written), every other
    message is left as it was, and the count returned is the number of
    ids asked for, whether or not they name a stored message. *)
Theorem bulkUpdateStatus_pointwise ids r dev status now db :
  List.NoDup (List.map messageId (messages db)) ->
  bulkUpdateStatus ids r dev status now db
  = (set_messages db
       (List.map
          (fun m => if existsb (String.eqb (messageId m)) ids
                    then marked status r dev now m else m)
          (messages db)),
     Ok (length ids)).
Proof.
  intros Hnd. unfold bulkUpdateStatus. f_equal. f_equal.
  rewrite save_marked_loop.
  - apply List.map_ext_in. intros m Hm.
    destruct (existsb (String.eqb (messageId m)) ids) eqn:E.
    + assert (In (messageId m)
                (List.map messageId
                   (List.filter
                      (fun m => existsb (String.eqb (messageId m)) ids)
                      (messages db)))) as Hin.
      { apply List.in_map. apply List.filter_In. now split. }
      apply existsb_eqb_In in Hin. now rewrite Hin.
    + destruct (existsb (String.eqb (messageId m))
                  (List.map messageId
                     (List.filter
                        (fun m => existsb (String.eqb (messageId m)) ids)
                        (messages db)))) eqn:E'; [|reflexivity].
      apply existsb_eqb_In, List.in_map_iff in E' as (x & Hx & Hxin).
      apply List.filter_In in Hxin as [_ Hxin].
      rewrite Hx in Hxin. congruence.
  - exact Hnd.
  - now apply NoDup_map_filter.
  - intros f Hf. now apply List.filter_In in Hf as [Hf _].
Qed.

Lemma bulkUpdateStatus_pointwise_witness :
  bulkUpdateStatus ["m1"; "no-such-message"] carol None BSdelivered 70 db1
  = (set_messages db1
       (List.map
          (fun m => if existsb (String.eqb (messageId m))
                         ["m1"; "no-such-message"]
                    then marked BSdelivered carol None 70 m else m)
          (messages db1)),
     Ok 2%nat).
Proof.
  apply (bulkUpdateStatus_pointwise ["m1"; "no-such-message"] carol None
           BSdelivered 70 db1).
  repeat constructor. intros [].
Defined.

Lemma Room_findById_id rid l room :
  Room_findById rid l = Some room -> room_id room = rid.
Proof.
  intros H. apply List.find_some in H as [_ H]. now apply String.eqb_eq in H.
Qed.

Lemma Room_findById_save rid l room room' :
  Room_findById rid l = Some room -> room_id room' = rid ->
  Room_findById rid (Room_save room' l) = Some room'.
Proof.
  intros Hf Hid. unfold Room_findById, Room_save. rewrite Hid.
  rewrite find_update_first.
  - unfold Room_findById in Hf. now rewrite Hf.
  - intros _ _. rewrite Hid. apply String.eqb_refl.
Qed.

Lemma removed_is_no_participant room u t :
  RoomModel.isParticipant (RoomModel.removeParticipant room u t) u = false.
Proof.
  unfold RoomModel.isParticipant, RoomModel.removeParticipant. simpl.
  induction (participants room) as [|p ps IH]; [reflexivity|]. simpl.
  destruct (String.eqb (p_userId p) u) eqn:E; simpl; [exact IH|].
  now rewrite E.
Qed.

(** X17: the room history is open to the roster of the moment of the
    request.  Once a participant is removed, [getRoomMessages] refuses
    that user the whole history, the messages received as a member
    included; a user added to a room that has space reads exactly what
    every other member reads, the messages sent before the user joined
    included. *)
Theorem room_history_follows_roster db rid room u limit b a t :
  Room_findById rid (rooms db) = Some room ->
  getRoomMessages u rid limit b a
    (applyRosterOp t (RemoveParticipant rid u) db)
  = Throw (Error "Not authorized to view room messages")
  /\ (RoomModel.isParticipant room u = false ->
      (length (participants room) < maxParticipants room)%nat ->
      forall v, RoomModel.isParticipant room v = true ->
        getRoomMessages u rid limit b a
          (applyRosterOp t (AddParticipant rid u) db)
        = getRoomMessages v rid limit b a db
        /\ exists page, getRoomMessages v rid limit b a db = Ok page).
Proof.
  intros Hf. pose proof (Room_findById_id _ _ _ Hf) as Hid. split.
  - unfold getRoomMessages, applyRosterOp. rewrite Hf. cbn [rooms set_rooms].
    rewrite (Room_findById_save rid (rooms db) room
               (RoomModel.removeParticipant room u t) Hf Hid).
    now rewrite removed_is_no_participant.
  - intros Hu Hroomy v Hv.
    unfold getRoomMessages, applyRosterOp, RoomModel.addParticipant.
    rewrite Hf, Hu, Hv.
    assert ((maxParticipants room <=? length (participants room))%nat = false)
      as -> by (apply Nat.leb_gt; lia).
    cbn [rooms set_rooms messages negb].
    erewrite Room_findById_save; [|exact Hf|exact Hid].
    unfold RoomModel.isParticipant, RoomModel.set_roster.
    cbn [participants]. rewrite List.existsb_app. cbn [existsb p_userId].
    rewrite String.eqb_refl, orb_true_r. cbn [negb orb].
    split; [reflexivity|eauto].
Qed.

Lemma room_history_follows_roster_witness :
  getRoomMessages carol (room_id room1) 50 None None
    (applyRosterOp 300 (RemoveParticipant (room_id room1) carol) db1)
  = Throw (Error "Not authorized to view room messages")
  /\ getRoomMessages "64a0000000000000000000d4" (room_id room1) 50 None None
       (applyRosterOp 300
          (AddParticipant (room_id room1) "64a0000000000000000000d4") db1)
     = getRoomMessages alice (room_id room1) 50 None None db1.
Proof.
  destruct (room_history_follows_roster db1 (room_id room1) room1 carol
              50 None None 300) as [Hrem _]; [reflexivity|].
  destruct (room_history_follows_roster db1 (room_id room1) room1
              "64a0000000000000000000d4" 50 None None 300) as [_ Hadd];
    [reflexivity|].
  split; [exact Hrem|].
  apply (Hadd eq_refl); [vm_compute; lia|reflexivity].
Defined.

End MessageReads.

(** ** Presence between connection events *)

Section PresenceFacts.

Import PresenceService PresenceReads.

Lemma getPresence_live u d t (st : State) v e :
  redis st !! presenceKey u d = Some (v, e) -> (t < e)%Z ->
  exists n, getPresence u t st = PresenceOnline (S n).
Proof.
  intros Hr Hlive. pose proof (keys_live u d t (redis st) v e Hr Hlive) as Hin.
  unfold getPresence.
  destruct (keys ("presence:" ++ u ++ ":") t (redis st)) as [|k ks];
    [contradiction|].
  exists (length ks). reflexivity.
Qed.

Lemma keys_none prefix t (r : gmap string (string * Time)) :
  (forall k v e, r !! k = Some (v, e) -> String.prefix prefix k = true ->
                 (e <= t)%Z) ->
  keys prefix t r = [].
Proof.
  intros H. unfold keys. rewrite filter_none; [reflexivity|].
  intros [k [v e]] Hin. cbn [fst snd].
  apply list_elem_of_In, elem_of_map_to_list in Hin.
  destruct (String.prefix prefix k) eqn:Hp; [|reflexivity].
  cbn [andb]. apply Z.ltb_ge. eauto.
Qed.

(** X18: a heartbeat keeps the user online for the next sixty seconds:
    whatever the state, [getPresence] answers online, with at least one
    device, at every moment before the renewed marker runs out.  A
    heartbeat that found its marker alive writes nothing but the
    marker: the user document and the presence channel are as before;
    one that found it gone publishes one online event. *)
Theorem heartbeat_keeps_online u d t t' st :
  (t <= t' < t + 60000)%Z ->
  (exists n, getPresence u t' (fst (heartbeat u d t st)) = PresenceOnline (S n))
  /\ (snd (heartbeat u d t st) = false ->
      users (fst (heartbeat u d t st)) = users st
      /\ published (fst (heartbeat u d t st)) = published st)
  /\ (snd (heartbeat u d t st) = true ->
      published (fst (heartbeat u d t st))
      = (published st ++
           [{| ev_userId := u; ev_deviceId := d; ev_status := online;
               ev_timestamp := t |}])%list).
Proof.
  intros Ht. unfold heartbeat.
  destruct (redis st !! presenceKey u d) as [[v e]|] eqn:Hr;
    [destruct (t <? e)%Z eqn:Hlive|]; cbn [fst snd];
    (split; [|split; [intros; try discriminate; now split
                     |intros; try discriminate; reflexivity]]).
  - apply (getPresence_live u d t' _ v (t + PRESENCE_TIMEOUT * 1000)%Z).
    + cbn [redis]. apply lookup_insert_eq.
    + unfold PRESENCE_TIMEOUT. lia.
  - apply (getPresence_live u d t' _ "online" (t + PRESENCE_TIMEOUT * 1000)%Z).
    + cbn [redis setOnline publish]. apply lookup_insert_eq.
    + unfold PRESENCE_TIMEOUT. lia.
  - apply (getPresence_live u d t' _ "online" (t + PRESENCE_TIMEOUT * 1000)%Z).
    + cbn [redis setOnline publish]. apply lookup_insert_eq.
    + unfold PRESENCE_TIMEOUT. lia.
Qed.

Lemma heartbeat_keeps_online_witness :
  (exists n,
     getPresence alice 59999 (fst (heartbeat alice "alice-phone" 0 presence0))
     = PresenceOnline (S n)).
Proof.
  apply (heartbeat_keeps_online alice "alice-phone" 0 59999 presence0). lia.
Defined.

Lemma User_findByIdAndUpdate_found uid on t l usr :
  List.find (fun u => String.eqb (user_id u) uid) l = Some usr ->
  exists usr',
    List.find (fun u => String.eqb (user_id u) uid)
      (User_findByIdAndUpdate uid on t l) = Some usr'
    /\ isOnline usr' = on /\ lastSeen usr' = Some t.
Proof.
  intros Hf. unfold User_findByIdAndUpdate.
  rewrite find_update_first by (intros x Hx; exact Hx).
  rewrite Hf. cbn [option_map]. eexists. split; [reflexivity|]. now split.
Qed.

(** X19: presence runs out by itself.  Sixty seconds after a
    [setOnline] that no heartbeat followed, and with no other marker of
    the user alive, [getPresence] answers offline, last seen at the
    moment of that [setOnline]; yet the user document still says
    [isOnline: true], and the presence channel carries no offline event
    for it. *)
Theorem presence_lapses_silently u d t t' st usr :
  List.find (fun x => String.eqb (user_id x) u) (users st) = Some usr ->
  (t + 60000 <= t')%Z ->
  (forall k v e, redis st !! k = Some (v, e) ->
     String.prefix ("presence:" ++ u ++ ":") k = true -> (e <= t')%Z) ->
  let st' := setOnline u d t st in
  getPresence u t' st' = PresenceOffline (Some t)
  /\ (exists usr',
        List.find (fun x => String.eqb (user_id x) u) (users st') = Some usr'
        /\ isOnline usr' = true)
  /\ offlineEvents u (published st') = offlineEvents u (published st).
Proof.
  intros Hu Ht Hdead. cbv zeta.
  destruct (User_findByIdAndUpdate_found u true t (users st) usr Hu)
    as (usr' & Hf & Hon & Hseen).
  repeat split.
  - unfold getPresence. rewrite keys_none.
    + cbn [users setOnline publish]. now rewrite Hf, Hseen.
    + intros k v e Hk Hp. cbn [redis setOnline publish] in Hk.
      destruct (decide (k = presenceKey u d)) as [->|Hne].
      * rewrite lookup_insert_eq in Hk. injection Hk as _ <-.
        unfold PRESENCE_TIMEOUT. lia.
      * rewrite lookup_insert_ne in Hk by congruence. eauto.
  - exists usr'. now split.
  - unfold setOnline, publish, offlineEvents. cbn [published].
    rewrite List.filter_app. cbn [List.filter ev_status ev_userId].
    rewrite andb_false_r. apply List.app_nil_r.
Qed.

Lemma presence_lapses_silently_witness :
  getPresence alice 60000 (setOnline alice "alice-phone" 0 presence0)
  = PresenceOffline (Some 0%Z)
  /\ (exists usr',
        List.find (fun x => String.eqb (user_id x) alice)
          (users (setOnline alice "alice-phone" 0 presence0)) = Some usr'
        /\ isOnline usr' = true)
  /\ offlineEvents alice (published (setOnline alice "alice-phone" 0 presence0))
     = offlineEvents alice (published presence0).
Proof.
  apply (presence_lapses_silently alice "alice-phone" 0 60000 presence0
           (user alice)); [reflexivity|lia|].
  intros k v e Hk. cbn in Hk. rewrite lookup_empty in Hk. discriminate.
Defined.

End PresenceFacts.

(** ** Pushes and the connection registry *)

Section Pushes.

Import MessageService WebSocketServer WebSocketPush.

Lemma prefix_inv (p s : string) :
  String.prefix p s = true -> exists r, s = p ++ r.
Proof.
  revert s. induction p as [|c p IH]; intros s H.
  - exists s. reflexivity.
  - destruct s as [|c' s]; [discriminate|]. simpl in H.
    destruct (ascii_dec c c') as [->|]; [|discriminate].
    destruct (IH s H) as [r ->]. exists r. reflexivity.
Qed.

Lemma startsWith_user u k :
  String.prefix (u ++ ":") k = true <-> exists d, k = clientKey u d.
Proof.
  unfold clientKey. split.
  - intros H. apply prefix_inv in H as [d ->]. exists d. apply append_assoc.
  - intros [d ->]. rewrite <- append_assoc. apply prefix_append.
Qed.

Lemma In_sendToUser u s ws :
  In ws (sendToUser u s)
  <-> exists d, clients s !! clientKey u d = Some ws /\ open s ws = true.
Proof.
  unfold sendToUser. rewrite List.in_map_iff. split.
  - intros ([k w] & <- & Hin). apply List.filter_In in Hin as [Hin Hp].
    cbn [fst snd] in *. apply andb_true_iff in Hp as [Hp Ho].
    apply startsWith_user in Hp as [d ->]. exists d. split; [|exact Ho].
    now apply list_elem_of_In, elem_of_map_to_list in Hin.
  - intros (d & Hk & Ho). exists (clientKey u d, ws). split; [reflexivity|].
    apply List.filter_In. split.
    + now apply list_elem_of_In, elem_of_map_to_list.
    + cbn [fst snd]. rewrite Ho, andb_true_r. apply startsWith_user. eauto.
Qed.

(** X20: a push to a user goes to exactly the open sockets that the
    registry holds under a key of that user, one per registered device;
    a push to one device goes to the socket under that device's key, if
    it is open. *)
Theorem push_reaches_registered_sockets u s ws :
  (In ws (sendToUser u s)
   <-> exists d, clients s !! clientKey u d = Some ws /\ open s ws = true)
  /\ (forall d, sendToDevice u d s = Some ws
               <-> clients s !! clientKey u d = Some ws /\ open s ws = true).
Proof.
  split; [apply In_sendToUser|]. intros d. unfold sendToDevice.
  destruct (clients s !! clientKey u d) as [w|]; [|split; [|intros []]; discriminate].
  destruct (open s w) eqn:Ho.
  - split; [intros [= <-]; now split|intros [[= <-] _]; reflexivity].
  - split; [discriminate|]. intros [[= <-] Ho']. congruence.
Qed.

(** X21: after a device has reconnected and its displaced socket has
    closed, the new socket is open but no push reaches it: not one
    addressed to its user or its device, and not a broadcast either. *)
Theorem reconnected_socket_gets_no_push ws1 ws2 u d t1 t2 t3 s :
  ws1 <> ws2 ->
  (forall k, clients s !! k <> Some ws2) ->
  let s' := close ws1 t3 (connection ws2 u d t2 (connection ws1 u d t1 s)) in
  open s' ws2 = true
  /\ (forall v, ~ In ws2 (sendToUser v s'))
  /\ (forall v e, sendToDevice v e s' <> Some ws2)
  /\ (forall x, ~ In ws2 (broadcast x s')).
Proof.
  intros Hne Hfresh. cbv zeta.
  assert (Hcl : forall k,
    clients (close ws1 t3 (connection ws2 u d t2 (connection ws1 u d t1 s)))
      !! k <> Some ws2).
  { intros k. unfold close, connection. cbn [wss_clients clients presence].
    rewrite lookup_insert_ne by congruence. rewrite lookup_insert_eq.
    cbn [clients ws_userId ws_deviceId].
    destruct (decide (k = clientKey u d)) as [->|Hk].
    - rewrite lookup_delete_eq. discriminate.
    - rewrite lookup_delete_ne by congruence.
      rewrite !lookup_insert_ne by congruence. apply Hfresh. }
  repeat split.
  - unfold open.
    destruct (close_of_displaced_unregisters ws1 ws2 u d t1 t2 t3 s Hne)
      as [_ [sock ->]]. reflexivity.
  - intros v Hin. apply In_sendToUser in Hin as (e & Hk & _).
    exact (Hcl _ Hk).
  - intros v e Hs. unfold sendToDevice in Hs.
    destruct (clients _ !! clientKey v e) as [w|] eqn:Hk; [|discriminate].
    destruct (open _ w); [|discriminate]. injection Hs as ->.
    exact (Hcl _ Hk).
  - intros x Hin. unfold broadcast in Hin.
    apply List.in_map_iff in Hin as ([k w] & Hw & Hin). cbn [snd] in Hw.
    subst w. apply List.filter_In in Hin as [Hin _].
    apply list_elem_of_In, elem_of_map_to_list in Hin. exact (Hcl _ Hin).
Qed.

Lemma reconnected_socket_gets_no_push_witness :
  open (close 1 300 reconnected) 2 = true
  /\ (forall v, ~ In 2%nat (sendToUser v (close 1 300 reconnected)))
  /\ (forall v e, sendToDevice v e (close 1 300 reconnected) <> Some 2%nat)
  /\ (forall x, ~ In 2%nat (broadcast x (close 1 300 reconnected))).
Proof.
  apply (reconnected_socket_gets_no_push 1 2 alice "alice-phone" 100 200 300
           server0); [discriminate|].
  intros k. cbn. rewrite lookup_empty. discriminate.
Defined.



End Pushes.

(** ** Rosters *)

Section Rosters.

Import MessageService.








End Rosters.

(** ** The account lock *)

Section AccountLock.

Import LoginGuard.

Lemma failures_below_limit ts u :
  lockUntil u = None -> (0 <= loginAttempts u)%Z ->
  (loginAttempts u + Z.of_nat (length ts) < MAX_ATTEMPTS)%Z ->
  lockUntil (failures ts u) = None
  /\ loginAttempts (failures ts u)
     = (loginAttempts u + Z.of_nat (length ts))%Z.
Proof.
  revert u. induction ts as [|t ts IH]; intros u Hl Hn Hlt.
  - simpl. split; [exact Hl|lia].
  - assert (Hstep : fst (login false t u)
                    = {| loginAttempts := loginAttempts u + 1;
                         lockUntil := None; lastLogin := lastLogin u |}).
    { unfold login, isLocked. rewrite Hl. cbn [negb fst].
      unfold incLoginAttempts, isLocked. rewrite Hl.
      cbn [length] in Hlt.
      assert ((MAX_ATTEMPTS <=? loginAttempts u + 1)%Z = false) as ->
        by (apply Z.leb_gt; lia).
      reflexivity. }
    change (failures (t :: ts) u) with (failures ts (fst (login false t u))).
    rewrite Hstep. cbn [length] in Hlt.
    destruct (IH {| loginAttempts := loginAttempts u + 1;
                    lockUntil := None; lastLogin := lastLogin u |})
      as [IHl IHn]; cbn [lockUntil loginAttempts]; [reflexivity|lia|lia|].
    split; [exact IHl|]. rewrite IHn. cbn [loginAttempts length]. lia.
Qed.

Lemma failures_app ts t u :
  failures (ts ++ [t]) u = fst (login false t (failures ts u)).
Proof. unfold failures. now rewrite List.fold_left_app. Qed.

(** X24: the account lock counts wrong passwords.  On an account with
    a clear counter, fewer than five wrong passwords leave the account
    open, and the right password then passes and clears the counter.
    The fifth wrong password locks the account for fifteen minutes from
    that attempt: until then every login is refused, the right password
    included, and the refusal changes nothing. *)
Theorem five_failures_lock_account u ts :
  loginAttempts u = 0%Z -> lockUntil u = None ->
  ((length ts < 5)%nat ->
   forall now,
     login true now (failures ts u)
     = ({| loginAttempts := 0; lockUntil := None; lastLogin := Some now |},
        Ok tt))
  /\ (forall t5, (length ts = 4)%nat ->
      forall now passwordOk, (now < t5 + 900000)%Z ->
        login passwordOk now (failures (ts ++ [t5]) u)
        = (failures (ts ++ [t5]) u,
           Throw (Error "Account is locked. Please try again later."))).
Proof.
  intros Hn Hl. split.
  - intros Hlen now.
    destruct (failures_below_limit ts u Hl) as [Hl' _];
      [lia|unfold MAX_ATTEMPTS; lia|].
    unfold login, isLocked. rewrite Hl'. reflexivity.
  - intros t5 Hlen now ok Hnow.
    destruct (failures_below_limit ts u Hl) as [Hl' Hn'];
      [lia|unfold MAX_ATTEMPTS; lia|].
    assert (Hstep : fst (login false t5 (failures ts u))
                    = {| loginAttempts := 5;
                         lockUntil := Some (t5 + LOCK_TIME)%Z;
                         lastLogin := lastLogin (failures ts u) |}).
    { unfold login, isLocked. rewrite Hl'. cbn [negb fst].
      unfold incLoginAttempts, isLocked. rewrite Hl', Hn', Hn, Hlen.
      reflexivity. }
    rewrite failures_app, Hstep.
    unfold login, isLocked. cbn [lockUntil].
    assert ((now <? t5 + LOCK_TIME)%Z = true) as ->
      by (apply Z.ltb_lt; unfold LOCK_TIME; lia).
    reflexivity.
Qed.

Lemma five_failures_lock_account_witness :
  login true 900499
    (failures [100; 200; 300; 400; 500]%Z
       {| loginAttempts := 0; lockUntil := None; lastLogin := None |})
  = ({| loginAttempts := 5; lockUntil := Some 900500%Z; lastLogin := None |},
     Throw (Error "Account is locked. Please try again later.")).
Proof.
  destruct (five_failures_lock_account
              {| loginAttempts := 0; lockUntil := None; lastLogin := None |}
              [100; 200; 300; 400]%Z eq_refl eq_refl) as [_ H].
  exact (H 500%Z eq_refl 900499%Z true ltac:(lia)).
Defined.



End AccountLock.
